(** * nue-cli: asynchronous job lifecycle and bulk-data staging

  A shallow embedding of the job poller ([src/utils/jobManager.js]),
  the error handler ([src/utils/errorHandler.js]), the API client
  ([src/utils/apiClient.js]), the export downloader
  ([src/services/strategy/exportStrategies.js]), the upload field table
  ([src/commands/platform/metadata/import.js], [src/services/objectTypes.js])
  and the file stager ([src/utils/fileUtils.js]); with them the download
  command and the strategy factory of the export, the poller of the
  [import] command, the registry of object types and its validator
  ([src/services/validator.js]).

  Conventions of the embedding.
  - A JavaScript string is a [string] of bytes (its UTF-8 encoding; a
    surrogate that has no partner, for which UTF-8 has no encoding, is
    the three bytes of its code point).  The text of a file is the string
    that reading it as UTF-8 gives, the text written the string handed
    to the write.
  - A JavaScript number is a double, NaN left out: no operation of the
    program on the values it reads gives one.
  - [undefined] fields are [option]s; [x && ...] and [x || d] are written
    out with the truthiness of the value at hand.
  - [Date.now()] is an explicit clock reading in milliseconds, an integer.
  - A call that can return, throw, or end the process ([process.exit])
    yields an [outcome].
  - [Logger] and [console] calls are collected in a list of [log] entries;
    the [Logger.debug] and [Logger.verbose] dumps are left out. *)

From Stdlib Require Import String Ascii List ZArith Lia Bool.
From Stdlib Require Import Numbers.DecimalString.
From Stdlib Require Numbers.DecimalPos Numbers.DecimalFacts.
Import ListNotations.

Local Open Scope string_scope.
Local Open Scope Z_scope.

(* ================================================================== *)
(** ** JavaScript strings                                              *)
(* ================================================================== *)

Module JsString.

Definition LF : ascii := "010"%char.
Definition nl : string := String LF "".

(** [String.prototype.toLowerCase] on the ASCII range: [A]..[Z] go to
    [a]..[z], every other byte is kept.  This is the operation of the
    program on a string of ASCII characters; the letters outside ASCII,
    which the program lowers too (the Kelvin sign, for one, to [k]), are
    left as they are here. *)
Definition lowerChar (c : ascii) : ascii :=
  let n := N_of_ascii c in
  if ((65 <=? n) && (n <=? 90))%N then ascii_of_N (n + 32) else c.

Fixpoint toLowerCase (s : string) : string :=
  match s with
  | EmptyString => EmptyString
  | String c r => String (lowerChar c) (toLowerCase r)
  end.

(** A string of ASCII characters. *)
Fixpoint isAscii (s : string) : bool :=
  match s with
  | EmptyString => true
  | String c r => (N_of_ascii c <? 128)%N && isAscii r
  end.

(** [s.includes(sub)] *)
Fixpoint includes (s sub : string) : bool :=
  String.prefix sub s ||
  match s with
  | EmptyString => false
  | String _ r => includes r sub
  end.

(** Truthiness of a string value: the empty string is falsy. *)
Definition truthy (s : string) : bool :=
  match s with EmptyString => false | _ => true end.

(** Truthiness of a possibly-undefined string. *)
Definition truthyOpt (s : option string) : bool :=
  match s with Some x => truthy x | None => false end.

(** Template-literal rendering of an integer. *)
Definition ofZ (z : Z) : string := NilEmpty.string_of_int (Z.to_int z).

(** [s.split(sep)] for a one-character separator: never empty. *)
Fixpoint split (sep : ascii) (s : string) : list string :=
  match s with
  | EmptyString => [EmptyString]
  | String c r =>
      if Ascii.eqb c sep then EmptyString :: split sep r
      else match split sep r with
           | piece :: rest => String c piece :: rest
           | [] => [String c EmptyString]
           end
  end.

(** [lines.join(sep)] *)
Definition join (sep : string) (pieces : list string) : string :=
  String.concat sep pieces.

(** [Array.prototype.some] *)
Definition some {A} (p : A -> bool) (l : list A) : bool := existsb p l.

End JsString.

(* ================================================================== *)
(** ** Effects: outcomes of calls, log entries                         *)
(* ================================================================== *)

Inductive level : Type :=
| Progress | Success | Warning | Info | Err | JobStatusLine | Gray | Stdout.

Definition log : Type := (level * string)%type.

(** A line of the log that is a warning. *)
Definition isWarning (l : log) : bool :=
  match fst l with Warning => true | _ => false end.

(** The [response] of an axios error, when the server answered. *)
Record HttpResponse : Type := mkResponse { http_status : Z }.

(** A thrown JavaScript error: its message and, for axios errors, the response. *)
Record JsError : Type := mkError {
  message : string;
  response : option HttpResponse
}.

Inductive outcome (A : Type) : Type :=
| Returned (a : A)
| Threw (e : JsError)
| Exited (code : Z).

Arguments Returned {A} a.
Arguments Threw {A} e.
Arguments Exited {A} code.

(* ================================================================== *)
(** ** Data model: the job status returned by the Job API              *)
(* ================================================================== *)

Record JobObject : Type := mkObject {
  name : string;
  status : string;
  totalSize : option Z;
  fileUrls : option (list string);
  errors : option (list string)
}.

Record ImportJob : Type := mkImportJob {
  objectName : string;
  ij_status : string
}.

Record JobStatus : Type := mkStatus {
  js_status : string;
  objects : option (list JobObject);
  importJobs : option (list ImportJob);
  js_error : option string;
  errorMessage : option string;
  errorCode : option string
}.

Record Options : Type := mkOptions {
  timeout : Z;
  verbose : bool
}.

(** [`${obj.totalSize}`] *)
Definition showSize (obj : JobObject) : string :=
  match totalSize obj with
  | Some z => JsString.ofZ z
  | None => "undefined"
  end.

(** [obj.errors?.join(', ') || 'Unknown error'] *)
Definition showErrors (obj : JobObject) : string :=
  match errors obj with
  | Some errs =>
      let joined := JsString.join ", " errs in
      if JsString.truthy joined then joined else "Unknown error"
  | None => "Unknown error"
  end.

(* ================================================================== *)
(** ** ErrorHandler                                                    *)
(* ================================================================== *)

Module ErrorHandler.

Definition optLine (pre : string) (v : option string) : list log :=
  if JsString.truthyOpt v
  then [(Err, pre ++ match v with Some x => x | None => "" end)]
  else [].

(** [handleJobFailure(status, options)]: prints what the status carries
    (under [verbose] the dump of the status itself is left out) and throws
    [new Error('Job failed')].  The job id is not an argument. *)
Definition handleJobFailure (st : JobStatus) (options : Options)
  : list log * JsError :=
  (([(Err, "✗ Job failed")]
      ++ optLine "Error: " (js_error st)
      ++ optLine "Error Message: " (errorMessage st)
      ++ optLine "Error Code: " (errorCode st)
      ++ (if verbose options then [(Gray, "Full job status:")] else []))%list,
   mkError "Job failed" None).

(** [handleApiError(error, options, context, objectType)]: prints the error
    (the lines taken from the response body are left out) and ends the
    process with [process.exit(1)]. *)
Definition handleApiError {A} (e : JsError) (context target : string)
  : list log * outcome A :=
  ((Err, "Error " ++ context ++ " " ++ target ++ ":")
     :: match response e with
        | Some r => [(Err, "Status: " ++ JsString.ofZ (http_status r))]
        | None => [(Err, message e)]
        end,
   Exited 1).

(** [handleValidationError(message, options)]: prints the message (under
    [verbose] also a stack trace, of which the heading is kept) and ends
    the process with [process.exit(1)]. *)
Definition handleValidationError {A} (msg : string) (options : Options)
  : list log * outcome A :=
  ((Err, "Validation Error: " ++ msg)
     :: (if verbose options then [(Gray, "Stack trace:")] else []),
   Exited 1).

End ErrorHandler.

(* ================================================================== *)
(** ** ApiClient                                                       *)
(* ================================================================== *)

Module ApiClient.

(** What [axios.get] does for one request: resolve with the response
    data or reject with an error. *)
Definition AxiosResult (A : Type) : Type := (A + JsError)%type.

(** [async get(endpoint)]: the [try] returns [response.data]; the [catch]
    hands every rejection to [ErrorHandler.handleApiError]. *)
Definition get {A} (endpoint : string) (r : AxiosResult A)
  : list log * outcome A :=
  match r with
  | inl data => ([], Returned data)
  | inr e => ErrorHandler.handleApiError e "making GET request to" endpoint
  end.

(** [getExportJobStatus(jobId)] *)
Definition getExportJobStatus {A} (jobId : string) (r : AxiosResult A)
  : list log * outcome A :=
  get ("/cpq/async/exports/" ++ jobId) r.

(** [error.response && error.response.status === 404] *)
Definition is404 (e : JsError) : bool :=
  match response e with
  | Some r => http_status r =? 404
  | None => false
  end.

(** [getImportJobStatus(jobId)]: the endpoint for product catalog imports
    first; in the [catch], on a 404, the standard endpoint, and on a second
    404 the exports endpoint.  [axios] answers a request by its endpoint.
    The result lists the endpoints requested, in order, then what was
    printed and the outcome. *)
Definition getImportJobStatus {A} (jobId : string)
           (axios : string -> AxiosResult A)
  : list string * (list log * outcome A) :=
  let first := "/cpq/async/imports/revenue-builder-data/" ++ jobId in
  let second := "/cpq/async/imports/" ++ jobId in
  let third := "/cpq/async/exports/" ++ jobId in
  match get first (axios first) with
  | (out, Threw error) =>
      if is404 error then
        match get second (axios second) with
        | (out2, Threw secondError) =>
            if is404 secondError then
              let '(out3, r) := get third (axios third) in
              ([first; second; third], ((out ++ out2 ++ out3)%list, r))
            else ([first; second], ((out ++ out2)%list, Threw secondError))
        | (out2, r) => ([first; second], ((out ++ out2)%list, r))
        end
      else ([first], (out, Threw error))
  | r => ([first], r)
  end.

(** [getTransactionHubImportJobStatus(jobId)] *)
Definition getTransactionHubImportJobStatus {A} (jobId : string)
           (r : AxiosResult A) : list log * outcome A :=
  get ("/revenue/transaction-hub/async-job/" ++ jobId) r.

(** [downloadFile(url)]: the same [try]/[catch] around [axios.get(url)]. *)
Definition downloadFile (url : string) (r : AxiosResult string)
  : list log * outcome string :=
  match r with
  | inl data => ([], Returned data)
  | inr e => ErrorHandler.handleApiError e "downloading file from" url
  end.

End ApiClient.

(* ================================================================== *)
(** ** JobManager                                                      *)
(* ================================================================== *)

Module JobManager.

(** What one loop iteration decides. *)
Inductive step : Type :=
| Return (st : JobStatus)
| Throw (e : JsError)
| Exit (code : Z)
| Sleep (ms : Z).

Definition isCompleted (obj : JobObject) : bool :=
  (status obj =? "Completed")%string.

(** [obj.totalSize === 0 && obj.errors &&
     obj.errors.some(error => error.includes('No ') && error.includes(' fetched'))] *)
Definition noRecordsPattern (obj : JobObject) : bool :=
  match totalSize obj with
  | Some 0 =>
      match errors obj with
      | Some errs =>
          JsString.some
            (fun error => JsString.includes error "No "
                          && JsString.includes error " fetched") errs
      | None => false
      end
  | _ => false
  end.

Definition isNoRecords (obj : JobObject) : bool :=
  (status obj =? "Failed")%string && noRecordsPattern obj.

Definition isActualFailed (obj : JobObject) : bool :=
  (status obj =? "Failed")%string && negb (noRecordsPattern obj).

(** [status.objects?.filter(p) || []] *)
Definition filterObjects (p : JobObject -> bool) (st : JobStatus)
  : list JobObject :=
  match objects st with
  | Some objs => filter p objs
  | None => []
  end.

Definition completedObjects := filterObjects isCompleted.
Definition noRecordsObjects := filterObjects isNoRecords.
Definition actualFailedObjects := filterObjects isActualFailed.

(** One block of the summary: a title, then a line per object, when
    there is an object. *)
Definition summaryBlock (lv : level) (title : string)
           (line : JobObject -> string) (objs : list JobObject) : list log :=
  if (0 <? length objs)%nat
  then (lv, title) :: map (fun obj => (lv, line obj)) objs
  else [].

(** [displayJobSummary(status, options)] *)
Definition displayJobSummary (st : JobStatus) : list log :=
  List.app
    (summaryBlock Info "Completed objects:"
       (fun obj => "  • " ++ name obj ++ ": " ++ showSize obj ++ " records")
       (completedObjects st))
    (List.app
       (summaryBlock Warning "No records found:"
          (fun obj => "  • " ++ name obj ++ ": No records available")
          (noRecordsObjects st))
       (summaryBlock Err "Failed objects:"
          (fun obj => "  • " ++ name obj ++ ": " ++ showErrors obj)
          (actualFailedObjects st))).

(** Body of the export loop's [try] once the status has arrived. *)
Definition exportOnStatus (jobId : string) (options : Options)
           (st : JobStatus) : list log * step :=
  let statusLower := JsString.toLowerCase (js_status st) in
  if ((statusLower =? "completed") || (statusLower =? "succeeded"))%string
  then ([(Success, "Export job completed successfully!")], Return st)
  else if (statusLower =? "failed")%string
  then
    if ((0 <? length (completedObjects st))
        || (0 <? length (noRecordsObjects st)))%nat
    then ([(Success, "Export job completed with partial success")], Return st)
    else let '(out, e) := ErrorHandler.handleJobFailure st options in
         (out, Throw e)
  else ([(JobStatusLine, js_status st)], Sleep 5000).

(** Body of the import loop's [try] once the status has arrived. *)
Definition importOnStatus (jobId : string) (options : Options)
           (st : JobStatus) : list log * step :=
  let statusLower := JsString.toLowerCase (js_status st) in
  if ((statusLower =? "completed") || (statusLower =? "succeeded"))%string
  then ([(Success, "Import job completed successfully!")], Return st)
  else if (statusLower =? "failed")%string
  then
    let jobs := match importJobs st with Some l => l | None => [] end in
    let hasPartialSuccess :=
      JsString.some
        (fun job => ((ij_status job =? "PartialCompleted")
                     || (ij_status job =? "Completed"))%string) jobs in
    if hasPartialSuccess
    then ([(Warning, "Import job completed with partial success")], Return st)
    else let '(out, e) := ErrorHandler.handleJobFailure st options in
         (out, Throw e)
  else if (statusLower =? "partialcompleted")%string
  then ([(Warning, "Import job completed with partial success")], Return st)
  else ([(JobStatusLine, js_status st)], Sleep 5000).

(** The [catch] of either loop: [error.response && error.response.status === 404]
    waits two seconds, anything else is thrown again. *)
Definition onError (kind : string) (e : JsError) : list log * step :=
  match response e with
  | Some r =>
      if http_status r =? 404
      then ([(Warning, kind ++ " job not found yet, waiting...")], Sleep 2000)
      else ([], Throw e)
  | None => ([], Throw e)
  end.

(** An error thrown by the body of the [try] reaches the same [catch]. *)
Definition tryCatch (kind : string) (r : list log * step) : list log * step :=
  match r with
  | (out, Throw e) => let '(out', s) := onError kind e in ((out ++ out')%list, s)
  | _ => r
  end.

(** [Date.now() - startTime > timeoutMs] *)
Definition timedOut (startTime timeoutMs now : Z) : bool :=
  timeoutMs <? now - startTime.

Definition timeoutError (kind : string) (options : Options) : JsError :=
  mkError (kind ++ " job timed out after "
                ++ JsString.ofZ (timeout options) ++ " seconds") None.

(** One request as the poller sees it: how long the call took, what it
    gave (with what the client printed), and by how much the timer of
    the following [setTimeout] overshot. *)
Record tick : Type := mkTick {
  latency : Z;
  reply : list log * outcome JobStatus;
  jitter : Z
}.

(** How a run of the loop ended; [TimedOut] is the [throw] at the head of
    the loop, [Failed] a [throw] from its body. *)
Inductive result : Type :=
| Resolved (st : JobStatus)
| TimedOut (e : JsError)
| Failed (e : JsError)
| ProcessExit (code : Z)
| OutOfFuel.

(** A finished run: what was printed, how it ended, the clock at the end
    and how many status requests were sent. *)
Record run : Type := mkRun {
  printed : list log;
  ended : result;
  clock : Z;
  requests : nat
}.

Definition addLog (l : list log) (r : run) : run :=
  mkRun (l ++ printed r)%list (ended r) (clock r) (requests r).

Definition addRequest (r : run) : run :=
  mkRun (printed r) (ended r) (clock r) (S (requests r)).

(** What the [try]/[catch] of one iteration makes of the answer to the
    status request; [onStatus] is the body of the [try] after the [await]. *)
Definition react (kind : string) (onStatus : JobStatus -> list log * step)
           (r : outcome JobStatus) : list log * step :=
  match r with
  | Returned st => tryCatch kind (onStatus st)
  | Threw e => onError kind e
  | Exited code => ([], Exit code)
  end.

(** The [while (true)] loop shared by the two pollers; [client n] is the
    [n]-th status request, [now] the clock at the head of the loop. *)
Fixpoint loop (kind : string) (onStatus : JobStatus -> list log * step)
         (options : Options) (client : nat -> tick)
         (startTime : Z) (fuel : nat) (n : nat) (now : Z) : run :=
  match fuel with
  | O => mkRun [] OutOfFuel now 0
  | S fuel' =>
      if timedOut startTime (timeout options * 1000) now
      then mkRun [] (TimedOut (timeoutError kind options)) now 0
      else
        let t := client n in
        let now1 := now + latency t in
        let did := react kind onStatus (snd (reply t)) in
        addRequest (addLog (fst (reply t) ++ fst did)%list
          match snd did with
          | Return st => mkRun [] (Resolved st) now1 0
          | Throw e => mkRun [] (Failed e) now1 0
          | Exit code => mkRun [] (ProcessExit code) now1 0
          | Sleep ms =>
              loop kind onStatus options client startTime fuel' (S n)
                   (now1 + ms + jitter t)
          end)
  end.

(** [waitForExportCompletion(jobId, apiClient, options)], started when the
    clock reads [startTime]. *)
Definition waitForExportCompletion (jobId : string)
           (apiClient : string -> nat -> tick) (options : Options)
           (startTime : Z) (fuel : nat) : run :=
  addLog [(Progress, "Waiting for export job completion...")]
    (loop "Export" (exportOnStatus jobId options) options (apiClient jobId)
          startTime fuel 0 startTime).

(** [waitForImportCompletion(jobId, apiClient, options)] *)
Definition waitForImportCompletion (jobId : string)
           (apiClient : string -> nat -> tick) (options : Options)
           (startTime : Z) (fuel : nat) : run :=
  addLog [(Progress, "Waiting for import job completion...")]
    (loop "Import" (importOnStatus jobId options) options (apiClient jobId)
          startTime fuel 0 startTime).

(** The export status requests as [ApiClient] issues them: the [n]-th
    axios answer goes through [ApiClient.getExportJobStatus]. *)
Definition viaApiClient
           (axios : nat -> Z * ApiClient.AxiosResult JobStatus * Z)
           (jobId : string) (n : nat) : tick :=
  let '(lat, r, jit) := axios n in
  mkTick lat (ApiClient.getExportJobStatus jobId r) jit.

(** Body of the transaction hub loop's [try] once the status has arrived:
    the status is compared as it comes, [status.status === 'completed']. *)
Definition transactionHubOnStatus (jobId : string) (options : Options)
           (st : JobStatus) : list log * step :=
  if (js_status st =? "completed")%string
  then ([(Success, "Transaction hub import job completed successfully!")],
        Return st)
  else if (js_status st =? "failed")%string
  then let '(out, e) := ErrorHandler.handleJobFailure st options in
       (out, Throw e)
  else ([(JobStatusLine, js_status st)], Sleep 5000).

(** [waitForTransactionHubImportCompletion(jobId, apiClient, options)] *)
Definition waitForTransactionHubImportCompletion (jobId : string)
           (apiClient : string -> nat -> tick) (options : Options)
           (startTime : Z) (fuel : nat) : run :=
  addLog [(Progress, "Waiting for transaction hub import job completion...")]
    (loop "Import" (transactionHubOnStatus jobId options) options
          (apiClient jobId) startTime fuel 0 startTime).

(** The import status requests as [ApiClient] issues them: the [n]-th
    request goes through [ApiClient.getImportJobStatus], [axios n] answering
    each endpoint it asks. *)
Definition importViaApiClient
           (axios : nat -> Z * (string -> ApiClient.AxiosResult JobStatus) * Z)
           (jobId : string) (n : nat) : tick :=
  let '(lat, answer, jit) := axios n in
  mkTick lat (snd (ApiClient.getImportJobStatus jobId answer)) jit.

(** The transaction hub status requests as [ApiClient] issues them. *)
Definition hubViaApiClient
           (axios : nat -> Z * ApiClient.AxiosResult JobStatus * Z)
           (jobId : string) (n : nat) : tick :=
  let '(lat, r, jit) := axios n in
  mkTick lat (ApiClient.getTransactionHubImportJobStatus jobId r) jit.

End JobManager.

(* ================================================================== *)
(** ** Paths and the object-type tables                                *)
(* ================================================================== *)

Module Path.

(** Node's [path] on a POSIX system, by the segments of a path: the
    pieces between its slashes. *)
Definition segments (p : string) : list string := JsString.split "/" p.

(** [path.basename(p)]: the last segment that is not empty. *)
Definition basename (p : string) : string :=
  last (filter JsString.truthy (segments p)) EmptyString.

(** [fileName.split('-')[0]] *)
Definition prefixBeforeDash (fileName : string) : string :=
  hd EmptyString (JsString.split "-" fileName).

(** The three functions of Node's [path] the downloader calls. *)
Record api : Type := mkApi {
  extname : string -> string;
  dirname : string -> string;
  join : string -> string -> string
}.

(** A file name proper: no directory separator in it. *)
Definition plainName (f : string) : bool :=
  negb (JsString.includes f "/").

(** A name that stands for a file of its own in a directory: a plain name
    that is not empty and is neither [.] nor [..]. *)
Definition properName (f : string) : bool :=
  plainName f && JsString.truthy f
  && negb (f =? ".")%string && negb (f =? "..")%string.

(** What the downloader relies on: joining two different names of this
    kind to one directory gives two different paths. *)
Definition joinKeepsNames (P : api) : Prop :=
  forall dir f g,
    properName f = true -> properName g = true ->
    join P dir f = join P dir g -> f = g.

(** [path.extname(p)]: what the last dot of the base name starts, unless
    the base name has no dot, starts with its only dot, or is [..]. *)
Definition posixExtname (p : string) : string :=
  let b := basename p in
  if (b =? "..")%string then EmptyString
  else match rev (JsString.split "." b) with
       | [_; EmptyString] => EmptyString
       | ext :: _ :: _ => String "." ext
       | _ => EmptyString
       end.

Fixpoint dropWhile (p : ascii -> bool) (l : list ascii) : list ascii :=
  match l with
  | [] => []
  | c :: r => if p c then dropWhile p r else l
  end.

Definition isSlash (c : ascii) : bool := Ascii.eqb c "/".

(** [path.dirname(p)]: the path up to the slash before its last segment,
    slashes at the end of the path not counted and the first character
    never taken for that slash. *)
Definition posixDirname (p : string) : string :=
  match p with
  | EmptyString => "."
  | String c0 r =>
      let back :=
        dropWhile (fun c => negb (isSlash c))
                  (dropWhile isSlash (rev (list_ascii_of_string r))) in
      match back with
      | [] => if isSlash c0 then "/" else "."
      | _ :: pre =>
          match pre with
          | [] => if isSlash c0 then "//" else String c0 EmptyString
          | _ => String c0 (string_of_list_ascii (rev pre))
          end
      end
  end.

(** One segment met by [normalizeString]; [kept] holds the segments kept
    so far, the last one first. *)
Definition keep (allowAboveRoot : bool) (kept : list string) (seg : string)
  : list string :=
  if ((seg =? "") || (seg =? "."))%string then kept
  else if (seg =? "..")%string then
    match kept with
    | top :: below =>
        if (top =? "..")%string
        then if allowAboveRoot then ".." :: kept else kept
        else below
    | [] => if allowAboveRoot then [".."] else []
    end
  else seg :: kept.

Definition normalizeString (path : string) (allowAboveRoot : bool) : string :=
  JsString.join "/" (rev (fold_left (keep allowAboveRoot) (segments path) [])).

(** [path.normalize(path)] *)
Definition posixNormalize (path : string) : string :=
  match path with
  | EmptyString => "."
  | String c _ =>
      let isAbsolute := isSlash c in
      let trailingSeparator := negb (JsString.truthy (last (segments path) "")) in
      let p := normalizeString path (negb isAbsolute) in
      if JsString.truthy p
      then (if isAbsolute then "/" else "") ++ p
             ++ (if trailingSeparator then "/" else "")
      else if isAbsolute then "/"
      else if trailingSeparator then "./" else "."
  end.

(** [path.join(a, b)]: the arguments that are not empty, joined by a
    slash, then normalized. *)
Definition posixJoin (a b : string) : string :=
  posixNormalize
    (if JsString.truthy a
     then if JsString.truthy b then a ++ "/" ++ b else a
     else b).

Definition posix : api := mkApi posixExtname posixDirname posixJoin.

End Path.

Module ObjectTypes.

(** Lookup in an object literal used as a table. *)
Fixpoint lookup (k : string) (table : list (string * string)) : option string :=
  match table with
  | [] => None
  | (k', v) :: rest => if (k =? k')%string then Some v else lookup k rest
  end.

(** [formFieldMap] of [ObjectType.generateFormFieldName]. *)
Definition formFieldMap : list (string * string) :=
  [ ("pricebook", "price-book"); ("pricetag", "price-tag");
    ("credittype", "credit-type"); ("creditpool", "credit-pool");
    ("creditconversion", "credit-conversion");
    ("productgroup", "product-group"); ("bundlesuite", "bundle-suite");
    ("customsetting", "custom-setting") ].

(** [formFieldMap[this.name] || this.name] *)
Definition generateFormFieldName (name : string) : string :=
  match lookup name formFieldMap with
  | Some v => v
  | None => name
  end.

(** The [(name, apiName)] pairs registered by [initializeTypes]. *)
Definition registered : list (string * string) :=
  [ ("product", "Product"); ("uom", "UOM"); ("pricebook", "PriceBook");
    ("pricetag", "PriceTag"); ("credittype", "CreditType");
    ("creditpool", "CreditPool"); ("creditconversion", "CreditConversion");
    ("productgroup", "ProductGroup"); ("bundle", "Bundle");
    ("bundlesuite", "BundleSuite"); ("customsetting", "CustomSetting");
    ("subscription", "Subscription"); ("customer", "Customer");
    ("order", "Order"); ("usage", "Usage"); ("invoice", "Invoice");
    ("creditmemo", "CreditMemo"); ("transactionhub", "TransactionHub") ].

(** [register]: each type is stored under its lowercased name and its
    lowercased API name; the value kept here is the type's name. *)
Definition types : list (string * string) :=
  flat_map (fun '(name, apiName) =>
              [ (JsString.toLowerCase name, name);
                (JsString.toLowerCase apiName, name) ]) registered.

(** [objectTypeRegistry.get(name)], as the name of the type found.  A
    later [Map.set] of a key replaces the earlier one; here the two
    entries of a key always carry the same type. *)
Definition getObjectType (objectType : string) : option string :=
  lookup (JsString.toLowerCase objectType) types.

(** [isValidObjectType(objectType)] *)
Definition isValidObjectType (objectType : string) : bool :=
  match getObjectType objectType with Some _ => true | None => false end.

(** [getFormFieldName(objectType)] of [objectTypes.js]:
    [type ? type.formFieldName : objectType.toLowerCase()] *)
Definition getFormFieldName (objectType : string) : string :=
  match getObjectType objectType with
  | Some name => generateFormFieldName name
  | None => JsString.toLowerCase objectType
  end.

(** The category each registered type is created with, by the class used
    in [initializeTypes]. *)
Definition categories : list (string * string) :=
  [ ("product", "product_catalog"); ("uom", "product_catalog");
    ("pricebook", "product_catalog"); ("pricetag", "product_catalog");
    ("credittype", "product_catalog"); ("creditpool", "product_catalog");
    ("creditconversion", "product_catalog");
    ("productgroup", "product_catalog"); ("bundle", "product_catalog");
    ("bundlesuite", "product_catalog"); ("customsetting", "product_catalog");
    ("subscription", "transaction"); ("customer", "transaction");
    ("order", "transaction"); ("usage", "transaction");
    ("invoice", "transaction"); ("creditmemo", "transaction");
    ("transactionhub", "transaction_hub") ].

(** [getObjectCategory(objectType)]; [None] is [null]. *)
Definition getObjectCategory (objectType : string) : option string :=
  match getObjectType objectType with
  | Some name => lookup name categories
  | None => None
  end.

(** [type ? type.isInCategory(category) : false] *)
Definition isInCategory (category objectType : string) : bool :=
  match getObjectCategory objectType with
  | Some c => (c =? category)%string
  | None => false
  end.

Definition isProductCatalogObjectType : string -> bool :=
  isInCategory "product_catalog".

Definition isTransactionObjectType : string -> bool :=
  isInCategory "transaction".

Definition isTransactionHubObjectType : string -> bool :=
  isInCategory "transaction_hub".

(** [getApiObjectName(objectType)]: [type ? type.apiName : objectType] *)
Definition getApiObjectName (objectType : string) : string :=
  match getObjectType objectType with
  | Some name =>
      match lookup name registered with
      | Some apiName => apiName
      | None => objectType
      end
  | None => objectType
  end.

(** [normalizeObjectType(objectType)]: [type ? type.name : objectType] *)
Definition normalizeObjectType (objectType : string) : string :=
  match getObjectType objectType with
  | Some name => name
  | None => objectType
  end.

(** The keys of a [Map] in the order they were first set. *)
Fixpoint distinct (keys : list string) : list string :=
  match keys with
  | [] => []
  | k :: rest => k :: filter (fun x => negb (x =? k)%string) (distinct rest)
  end.

(** [objectTypeRegistry.getAllNames()] *)
Definition getAllNames : list string := distinct (map fst types).

(** [getValidObjectTypesList()] *)
Definition getValidObjectTypesList : string := JsString.join ", " getAllNames.

End ObjectTypes.

Module ImportMetadataCommand.

(** [fieldMap] of [getFormFieldName] in [import.js]. *)
Definition fieldMap : list (string * string) :=
  [ ("uom", "uom"); ("credittype", "creditType"); ("creditpool", "creditPool");
    ("creditconversion", "creditConversion"); ("pricebook", "priceBook");
    ("pricetag", "priceTag"); ("productgroup", "productGroup");
    ("product", "product"); ("bundle", "bundle");
    ("bundlesuite", "bundleSuite"); ("customsetting", "customSetting") ].

(** [fieldMap[objectType?.toLowerCase()] || objectType?.toLowerCase()],
    for a word whose lower case is no property that the object literal
    inherits from [Object.prototype]: of these, [constructor] and
    [__proto__] are in lower case, and for them the program gives a
    function and an object, not a string. *)
Definition getFormFieldName (objectType : string) : string :=
  match ObjectTypes.lookup (JsString.toLowerCase objectType) fieldMap with
  | Some v => v
  | None => JsString.toLowerCase objectType
  end.

(** [productCatalogObjects] of [isProductCatalogObjectType] in [import.js]. *)
Definition productCatalogObjects : list string :=
  [ "uom"; "credittype"; "creditpool"; "creditconversion"; "pricebook";
    "pricetag"; "productgroup"; "product"; "bundle"; "bundlesuite";
    "customsetting" ].

(** [productCatalogObjects.includes(objectType?.toLowerCase())] *)
Definition isProductCatalogObjectType (objectType : string) : bool :=
  existsb (String.eqb (JsString.toLowerCase objectType)) productCatalogObjects.

(** *** The poller of the [import] command *)

Definition pollingInterval : Z := 5000.

Definition maxPollingTime : Z := 3600000.

(** [new Error(`Import job ${jobId} failed: ${status.error || 'Unknown error'}`)] *)
Definition failedError (jobId : string) (st : JobStatus) : JsError :=
  mkError ("Import job " ++ jobId ++ " failed: "
             ++ match js_error st with
                | Some x => if JsString.truthy x then x else "Unknown error"
                | None => "Unknown error"
                end) None.

(** [new Error(`Import job ${jobId} timed out after ${maxPollingTime / 1000} seconds`)] *)
Definition timedOutError (jobId : string) : JsError :=
  mkError ("Import job " ++ jobId ++ " timed out after "
             ++ JsString.ofZ (maxPollingTime / 1000) ++ " seconds") None.

(** The test of the [catch]: an error with such a message is thrown on. *)
Definition thrownOn (e : JsError) : bool :=
  JsString.includes (message e) "Import job"
  && (JsString.includes (message e) "failed"
      || JsString.includes (message e) "cancelled"
      || JsString.includes (message e) "timed out").

(** What one iteration decides. *)
Inductive step : Type :=
| Finish
| Raise (e : JsError)
| Exit (code : Z)
| Wait.

(** How a run of the loop ended. *)
Inductive ending : Type :=
| Done
| Thrown (e : JsError)
| ProcessExit (code : Z)
| OutOfFuel.

Record run : Type := mkRun {
  printed : list log;
  ended : ending;
  clock : Z;
  requests : nat
}.

Definition addLog (l : list log) (r : run) : run :=
  mkRun (l ++ printed r)%list (ended r) (clock r) (requests r).

Definition addRequest (r : run) : run :=
  mkRun (printed r) (ended r) (clock r) (S (requests r)).

Section Waiting.

(** [this.displayImportJobResults(status, options)], which only prints. *)
Variable displayImportJobResults : JobStatus -> list log.

(** The body of the [try] once the status has arrived, the clock reading
    [now]. *)
Definition onStatus (jobId : string) (startTime now : Z) (st : JobStatus)
  : list log * step :=
  let statusLower := JsString.toLowerCase (js_status st) in
  if ((statusLower =? "completed") || (statusLower =? "succeeded"))%string
  then ((Success, "Import job completed successfully!")
          :: displayImportJobResults st, Finish)
  else if (statusLower =? "failed")%string
  then
    let jobs := match importJobs st with Some l => l | None => [] end in
    let hasPartialSuccess :=
      JsString.some
        (fun job => ((ij_status job =? "PartialCompleted")
                     || (ij_status job =? "Completed"))%string) jobs in
    if hasPartialSuccess
    then ((Warning, "Import job completed with partial success")
            :: displayImportJobResults st, Finish)
    else ([], Raise (failedError jobId st))
  else if (statusLower =? "partialcompleted")%string
  then ((Warning, "Import job completed with partial success")
          :: displayImportJobResults st, Finish)
  else ([(JobStatusLine, js_status st)],
        if maxPollingTime <? now - startTime
        then Raise (timedOutError jobId)
        else Wait).

(** The [catch]: the errors of the poller itself are thrown on, after any
    other the poller warns and asks again. *)
Definition onError (e : JsError) : list log * step :=
  if thrownOn e then ([], Raise e)
  else ([(Warning, "Could not check job status: " ++ message e)], Wait).

(** One iteration: the request, then the [try] or the [catch]. *)
Definition react (jobId : string) (startTime now : Z)
           (r : outcome JobStatus) : list log * step :=
  match r with
  | Returned st =>
      match onStatus jobId startTime now st with
      | (out, Raise e) =>
          let '(out', s) := onError e in ((out ++ out')%list, s)
      | did => did
      end
  | Threw e => onError e
  | Exited code => ([], Exit code)
  end.

(** The [while (true)] loop; [client n] is the [n]-th status request,
    [now] the clock when it is sent. *)
Fixpoint loop (jobId : string) (client : nat -> JobManager.tick)
         (startTime : Z) (fuel : nat) (n : nat) (now : Z) : run :=
  match fuel with
  | O => mkRun [] OutOfFuel now 0
  | S fuel' =>
      let t := client n in
      let now1 := now + JobManager.latency t in
      let did := react jobId startTime now1 (snd (JobManager.reply t)) in
      addRequest (addLog (fst (JobManager.reply t) ++ fst did)%list
        match snd did with
        | Finish => mkRun [] Done now1 0
        | Raise e => mkRun [] (Thrown e) now1 0
        | Exit code => mkRun [] (ProcessExit code) now1 0
        | Wait =>
            loop jobId client startTime fuel' (S n)
                 (now1 + pollingInterval + JobManager.jitter t)
        end)
  end.

(** [waitForJobCompletion(jobId, apiClient, options)], started when the
    clock reads [startTime].  The options are not read. *)
Definition waitForJobCompletion (jobId : string)
           (apiClient : string -> nat -> JobManager.tick)
           (startTime : Z) (fuel : nat) : run :=
  addLog [(Progress, "Waiting for import job completion...")]
    (loop jobId (apiClient jobId) startTime fuel 0 startTime).

End Waiting.

End ImportMetadataCommand.

Module Validator.

(** [validateObjectType(objectType, options)] *)
Definition validateObjectType (objectType : string) (options : Options)
  : list log * outcome unit :=
  if ObjectTypes.isValidObjectType objectType then ([], Returned tt)
  else ErrorHandler.handleValidationError
         ("Invalid object type '" ++ objectType ++ "'. Valid types are: "
            ++ ObjectTypes.getValidObjectTypesList) options.

End Validator.

(* ================================================================== *)
(** ** Numbers: the doubles, read from decimal text and printed        *)
(* ================================================================== *)

Module Number.

(** A Number value other than NaN: an IEEE 754 double.  A finite one is
    [mantissa * 2 ^ exponent] with its sign, the mantissa below [2 ^ 53] and
    the exponent from [-1074] to [971]; its mantissa is at least [2 ^ 52]
    unless the exponent is [-1074]. *)
Inductive number : Type :=
| Finite (negative : bool) (mantissa exponent : Z)
| Infinite (negative : bool).

Definition zero (negative : bool) : number := Finite negative 0 (-1074).

(** The integer nearest to [N / D], the even one of two that are as near. *)
Definition nearest (N D : Z) : Z :=
  let q := N / D in
  let r := N mod D in
  if 2 * r <? D then q
  else if D <? 2 * r then q + 1
  else if Z.even q then q else q + 1.

(** The Number value for the positive rational [num / den]: rounded to
    nearest, ties to even. *)
Definition roundFraction (negative : bool) (num den : Z) : number :=
  let N0 := num * 2 ^ 1074 in
  let q := N0 / den in
  if q <? 2 ^ 52 then Finite negative (nearest N0 den) (-1074)
  else
    let shift := Z.log2 q - 52 in
    let m := nearest N0 (den * 2 ^ shift) in
    let m' := if m =? 2 ^ 53 then 2 ^ 52 else m in
    let e := if m =? 2 ^ 53 then shift - 1073 else shift - 1074 in
    if 971 <? e then Infinite negative else Finite negative m' e.

(** The Number value for [digits * 10 ^ exp10].  A decimal exponent above
    400 is beyond the largest double whatever the digits, and a value below
    [10 ^ -400] is nearer to zero than to any other double. *)
Definition ofDecimal (negative : bool) (digits exp10 : Z) : number :=
  if digits <=? 0 then zero negative
  else if 400 <? exp10 then Infinite negative
  else if exp10 + Z.log2 digits + 1 <? -400 then zero negative
  else if 0 <=? exp10 then roundFraction negative (digits * 10 ^ exp10) 1
  else roundFraction negative digits (10 ^ (- exp10)).

(** *** Decimal digits *)

Definition isDigit (c : ascii) : bool :=
  let n := N_of_ascii c in ((48 <=? n) && (n <=? 57))%N.

Definition digitChar (d : Z) : ascii := ascii_of_N (Z.to_N (48 + d)).

Definition digitValue (c : ascii) : Z := Z.of_N (N_of_ascii c) - 48.

(** The number a string of digits stands for. *)
Fixpoint valueFrom (acc : Z) (s : string) : Z :=
  match s with
  | EmptyString => acc
  | String c r => valueFrom (acc * 10 + digitValue c) r
  end.

Definition value (s : string) : Z := valueFrom 0 s.

Fixpoint digitsFrom (fuel : nat) (z : Z) (acc : string) : string :=
  match fuel with
  | O => acc
  | S f =>
      let acc' := String (digitChar (z mod 10)) acc in
      if z <? 10 then acc' else digitsFrom f (z / 10) acc'
  end.

(** The decimal digits of a natural number, no leading zero. *)
Definition digitsOf (z : Z) : string :=
  digitsFrom (S (Z.to_nat (Z.log2 z))) z EmptyString.

Fixpoint zeros (n : nat) : string :=
  match n with
  | O => EmptyString
  | S k => String "0" (zeros k)
  end.

(** *** [Number::toString] *)

(** [mantissa * 2 ^ exponent] as [digits * 10 ^ exp10], exactly. *)
Definition exact (m e : Z) : Z * Z :=
  if 0 <=? e then (m * 2 ^ e, 0) else (m * 5 ^ (- e), e).

(** The decimal [s * 10 ^ p] is read as the double [m * 2 ^ e]. *)
Definition reads (m e s p : Z) : bool :=
  match ofDecimal false s p with
  | Finite _ m' e' => (m' =? m) && (e' =? e)
  | Infinite _ => false
  end.

(** The [k] digits next above: [10 ^ k] is written [10 ^ (k - 1)], one
    place higher. *)
Definition carried (s p k : Z) : Z * Z :=
  if s =? 10 ^ k then (10 ^ (k - 1), p + 1) else (s, p).

(** The fewest digits that are read as [m * 2 ^ e], from [k] digits on:
    of the [k] digits just below the exact value [D0 * 10 ^ P0] (of [L]
    digits) and the [k] digits just above, those nearer to it, the even
    ones when they are as near. *)
Fixpoint shortest (fuel : nat) (m e D0 P0 L k : Z) : Z * Z :=
  match fuel with
  | O => (D0, P0)
  | S f =>
      if L <=? k then (D0, P0)
      else
        let cut := 10 ^ (L - k) in
        let lo := (D0 / cut, P0 + (L - k)) in
        let hi := carried (D0 / cut + 1) (P0 + (L - k)) k in
        let r := D0 mod cut in
        let okLo := reads m e (fst lo) (snd lo) in
        let okHi := reads m e (fst hi) (snd hi) in
        if okLo && okHi
        then if 2 * r <? cut then lo
             else if cut <? 2 * r then hi
             else if Z.even (D0 / cut) then lo else hi
        else if okLo then lo
        else if okHi then hi
        else shortest f m e D0 P0 L (k + 1)
  end.

(** The digits [ds] of [s], [k] of them, with [n = p + k]: the text of
    the positive number [s * 10 ^ p]. *)
Definition format (s p : Z) : string :=
  let ds := digitsOf s in
  let k := Z.of_nat (String.length ds) in
  let n := p + k in
  if (k <=? n) && (n <=? 21) then ds ++ zeros (Z.to_nat (n - k))
  else if (0 <? n) && (n <=? 21)
  then String.substring 0 (Z.to_nat n) ds ++ "."
         ++ String.substring (Z.to_nat n) (Z.to_nat (k - n)) ds
  else if (-6 <? n) && (n <=? 0)
  then "0." ++ zeros (Z.to_nat (- n)) ++ ds
  else
    let e := n - 1 in
    let exponent :=
      "e" ++ (if e <? 0 then "-" else "+") ++ digitsOf (Z.abs e) in
    match ds with
    | String d EmptyString => String d exponent
    | String d more => String d ("." ++ more) ++ exponent
    | EmptyString => exponent
    end.

(** [Number::toString(x)], radix 10. *)
Definition toString (x : number) : string :=
  match x with
  | Infinite false => "Infinity"
  | Infinite true => "-Infinity"
  | Finite negative m e =>
      if m <=? 0 then "0"
      else
        let '(D0, P0) := exact m e in
        let L := Z.of_nat (String.length (digitsOf D0)) in
        let '(s, p) := shortest (Z.to_nat L) m e D0 P0 L 1 in
        (if negative then "-" else "") ++ format s p
  end.

Definition isFinite (x : number) : bool :=
  match x with Finite _ _ _ => true | Infinite _ => false end.

End Number.

(* ================================================================== *)
(** ** JSON: the values and the two built-ins                          *)
(* ================================================================== *)

Module JSON.

(** A JavaScript value as [JSON.parse] builds it.  An object is the list
    of its own properties in the order [JSON.stringify] and [Object.keys]
    meet them: the keys that are array indices first, in ascending order,
    then the other keys in the order they were created; each key once.  A
    string is held in UTF-8; a lone surrogate, which only an escape can
    bring in, takes the three bytes of its code point. *)
#[local] Set Warnings "-register-all".
Inductive json : Type :=
| JNull
| JBool (b : bool)
| JNum (x : Number.number)
| JStr (s : string)
| JArr (items : list json)
| JObj (members : list (string * json)).

Definition dquote : ascii := "034"%char.
Definition backslash : ascii := "092"%char.

(** *** [JSON.stringify(value)], no indentation *)

Definition hexDigit (n : N) : ascii :=
  if (n <? 10)%N then ascii_of_N (48 + n) else ascii_of_N (87 + n).

(** [\uXXXX] for a code unit, in lower case. *)
Definition unicodeEscapeOf (unit : N) : string :=
  String backslash
    (String "u"
       (String (hexDigit (unit / 4096))
          (String (hexDigit ((unit / 256) mod 16))
             (String (hexDigit ((unit / 16) mod 16))
                (String (hexDigit (unit mod 16)) ""))))).

(** ECMAScript [QuoteJSONString], for a character of one byte and for a
    byte of a longer character. *)
Definition escapeChar (c : ascii) : string :=
  let n := N_of_ascii c in
  if (n =? 34)%N then String backslash (String dquote "")
  else if (n =? 92)%N then String backslash (String backslash "")
  else if (n =? 8)%N then String backslash "b"
  else if (n =? 9)%N then String backslash "t"
  else if (n =? 10)%N then String backslash "n"
  else if (n =? 12)%N then String backslash "f"
  else if (n =? 13)%N then String backslash "r"
  else if (n <? 32)%N then unicodeEscapeOf n
  else String c "".

(** The three bytes of a surrogate, U+D800 to U+DFFF. *)
Definition isSurrogate (a b c : ascii) : bool :=
  ((N_of_ascii a =? 237)
   && (160 <=? N_of_ascii b) && (N_of_ascii b <=? 191)
   && (128 <=? N_of_ascii c) && (N_of_ascii c <=? 191))%N.

Definition surrogateUnit (b c : ascii) : N :=
  (53248 + (N_of_ascii b - 128) * 64 + (N_of_ascii c - 128))%N.

(** A lone surrogate is written as its escape; every other character
    that needs no escape is written as it is. *)
Fixpoint escape (s : string) : string :=
  match s with
  | EmptyString => EmptyString
  | String a r =>
      match r with
      | String b (String c r') =>
          if isSurrogate a b c
          then unicodeEscapeOf (surrogateUnit b c) ++ escape r'
          else escapeChar a ++ escape r
      | _ => escapeChar a ++ escape r
      end
  end.

Definition quote (s : string) : string :=
  String dquote (escape s ++ String dquote "").

(** [JSON.stringify] of a number: [null] for an infinity. *)
Definition stringifyNumber (x : Number.number) : string :=
  if Number.isFinite x then Number.toString x else "null".

Fixpoint stringify (v : json) : string :=
  match v with
  | JNull => "null"
  | JBool true => "true"
  | JBool false => "false"
  | JNum x => stringifyNumber x
  | JStr s => quote s
  | JArr items =>
      String "["
        ((fix elems (l : list json) : string :=
            match l with
            | [] => "]"
            | x :: r =>
                stringify x ++ match r with
                               | [] => "]"
                               | _ => String "," (elems r)
                               end
            end) items)
  | JObj members =>
      String "{"
        ((fix mems (l : list (string * json)) : string :=
            match l with
            | [] => "}"
            | (k, x) :: r =>
                quote k ++ String ":" (stringify x)
                  ++ match r with
                     | [] => "}"
                     | _ => String "," (mems r)
                     end
            end) members)
  end.

(** The two local functions of [stringify], by name. *)
Fixpoint stringifyItems (l : list json) : string :=
  match l with
  | [] => "]"
  | x :: r =>
      stringify x ++ match r with
                     | [] => "]"
                     | _ => String "," (stringifyItems r)
                     end
  end.

Fixpoint stringifyMembers (l : list (string * json)) : string :=
  match l with
  | [] => "}"
  | (k, x) :: r =>
      quote k ++ String ":" (stringify x)
        ++ match r with
           | [] => "}"
           | _ => String "," (stringifyMembers r)
           end
  end.

(** *** [JSON.parse(text)] *)

Definition isWs (c : ascii) : bool :=
  let n := N_of_ascii c in
  ((n =? 32) || (n =? 9) || (n =? 10) || (n =? 13))%N.

Fixpoint skipWs (s : string) : string :=
  match s with
  | EmptyString => EmptyString
  | String c r => if isWs c then skipWs r else s
  end.

Definition hexVal (c : ascii) : option N :=
  let n := N_of_ascii c in
  if ((48 <=? n) && (n <=? 57))%N then Some (n - 48)%N
  else if ((97 <=? n) && (n <=? 102))%N then Some (n - 87)%N
  else if ((65 <=? n) && (n <=? 70))%N then Some (n - 55)%N
  else None.

(** The character a two-character escape stands for. *)
Definition simpleEscape (e : ascii) : option ascii :=
  let n := N_of_ascii e in
  if (n =? 34)%N then Some dquote
  else if (n =? 92)%N then Some backslash
  else if (n =? 47)%N then Some "/"%char
  else if (n =? 98)%N then Some "008"%char
  else if (n =? 102)%N then Some "012"%char
  else if (n =? 110)%N then Some "010"%char
  else if (n =? 114)%N then Some "013"%char
  else if (n =? 116)%N then Some "009"%char
  else None.

(** A code unit in UTF-8. *)
Definition utf8 (code : N) : string :=
  if (code <? 128)%N then String (ascii_of_N code) ""
  else if (code <? 2048)%N
  then String (ascii_of_N (192 + code / 64))
         (String (ascii_of_N (128 + code mod 64)) "")
  else String (ascii_of_N (224 + code / 4096))
         (String (ascii_of_N (128 + (code / 64) mod 64))
            (String (ascii_of_N (128 + code mod 64)) "")).

(** The code unit of a [\uXXXX] escape, in UTF-8. *)
Definition unicodeEscape (h1 h2 h3 h4 : ascii) : option string :=
  match hexVal h1, hexVal h2, hexVal h3, hexVal h4 with
  | Some a, Some b, Some c, Some d =>
      Some (utf8 (((a * 16 + b) * 16 + c) * 16 + d)%N)
  | _, _, _, _ => None
  end.

Definition consString (p : string) (r : option (string * string))
  : option (string * string) :=
  match r with
  | Some (s, rest) => Some (p ++ s, rest)
  | None => None
  end.

(** The characters of a string literal after its opening quote, up to
    and including the closing quote; gives the code units, each in UTF-8,
    and what follows. *)
Fixpoint parseChars (s : string) : option (string * string) :=
  match s with
  | EmptyString => None
  | String c r =>
      if Ascii.eqb c dquote then Some (EmptyString, r)
      else if Ascii.eqb c backslash then
        match r with
        | EmptyString => None
        | String e r1 =>
            match simpleEscape e with
            | Some x => consString (String x "") (parseChars r1)
            | None =>
                if Ascii.eqb e "u" then
                  match r1 with
                  | String h1 (String h2 (String h3 (String h4 r2))) =>
                      match unicodeEscape h1 h2 h3 h4 with
                      | Some x => consString x (parseChars r2)
                      | None => None
                      end
                  | _ => None
                  end
                else None
            end
        end
      else if (N_of_ascii c <? 32)%N then None
      else consString (String c "") (parseChars r)
  end.

(** A high surrogate and the low surrogate after it are one character:
    its four bytes. *)
Definition isHigh (a b c : ascii) : bool :=
  isSurrogate a b c && (N_of_ascii b <=? 175)%N.

Definition isLow (a b c : ascii) : bool :=
  isSurrogate a b c && (176 <=? N_of_ascii b)%N.

Definition pairBytes (b c e f : ascii) : string :=
  let cp := (65536
             + ((N_of_ascii b - 160) * 64 + (N_of_ascii c - 128)) * 1024
             + ((N_of_ascii e - 176) * 64 + (N_of_ascii f - 128)))%N in
  String (ascii_of_N (240 + cp / 262144))
    (String (ascii_of_N (128 + (cp / 4096) mod 64))
       (String (ascii_of_N (128 + (cp / 64) mod 64))
          (String (ascii_of_N (128 + cp mod 64)) ""))).

Fixpoint pairUp (s : string) : string :=
  match s with
  | EmptyString => EmptyString
  | String a r =>
      match r with
      | String b (String c (String d (String e (String f r')))) =>
          if isHigh a b c && isLow d e f
          then pairBytes b c e f ++ pairUp r'
          else String a (pairUp r)
      | _ => String a (pairUp r)
      end
  end.

Definition isDigit (c : ascii) : bool := Number.isDigit c.

Fixpoint spanDigits (s : string) : string * string :=
  match s with
  | EmptyString => (EmptyString, EmptyString)
  | String c r =>
      if isDigit c
      then let '(ds, rest) := spanDigits r in (String c ds, rest)
      else (EmptyString, s)
  end.

(** The integer part of a number: [0], or digits that do not start with
    [0]. *)
Definition lexInt (s : string) : option (string * string) :=
  match s with
  | String c r =>
      if Ascii.eqb c "0" then Some ("0", r)
      else if isDigit c then Some (spanDigits s)
      else None
  | EmptyString => None
  end.

(** The digits of the fraction, none when there is no point. *)
Definition lexFrac (s : string) : option (string * string) :=
  match s with
  | String c r =>
      if Ascii.eqb c "."
      then let '(ds, rest) := spanDigits r in
           if JsString.truthy ds then Some (ds, rest) else None
      else Some (EmptyString, s)
  | EmptyString => Some (EmptyString, s)
  end.

(** The exponent, [0] when there is none. *)
Definition lexExp (s : string) : option (Z * string) :=
  match s with
  | String c r =>
      if Ascii.eqb c "e" || Ascii.eqb c "E"
      then
        let '(negative, r1) :=
          match r with
          | String sign r' =>
              if Ascii.eqb sign "-" then (true, r')
              else if Ascii.eqb sign "+" then (false, r')
              else (false, r)
          | EmptyString => (false, r)
          end in
        let '(ds, rest) := spanDigits r1 in
        if JsString.truthy ds
        then Some (if negative then - Number.value ds else Number.value ds, rest)
        else None
      else Some (0, s)
  | EmptyString => Some (0, s)
  end.

(** The digits and the decimal exponent of a number without its sign:
    integer part, fraction, exponent. *)
Definition lexDecimal (s : string) : option (Z * Z * string) :=
  match lexInt s with
  | Some (int, s2) =>
      match lexFrac s2 with
      | Some (frac, s3) =>
          match lexExp s3 with
          | Some (exp, rest) =>
              Some (Number.value (int ++ frac),
                    exp - Z.of_nat (String.length frac), rest)
          | None => None
          end
      | None => None
      end
  | None => None
  end.

(** A number, with its sign. *)
Definition parseNumber (s : string) : option (json * string) :=
  let '(negative, s1) :=
    match s with
    | String c r => if Ascii.eqb c "-" then (true, r) else (false, s)
    | EmptyString => (false, s)
    end in
  match lexDecimal s1 with
  | Some (digits, exp10, rest) =>
      Some (JNum (Number.ofDecimal negative digits exp10), rest)
  | None => None
  end.

(** A key that is an array index: the decimal digits of a whole number
    up to [2 ^ 32 - 2], written as [toString] writes it. *)
Definition arrayIndex (k : string) : option Z :=
  let i := Number.value k in
  if (0 <=? i) && (i <=? 4294967294) && (k =? Number.digitsOf i)%string
  then Some i else None.

Fixpoint hasKey (k : string) (l : list (string * json)) : bool :=
  match l with
  | [] => false
  | (k', _) :: r => (k' =? k)%string || hasKey k r
  end.

Fixpoint replaceMember (k : string) (v : json) (l : list (string * json))
  : list (string * json) :=
  match l with
  | [] => []
  | (k', v') :: r =>
      if (k' =? k)%string then (k, v) :: r else (k', v') :: replaceMember k v r
  end.

(** The place of a new array index: after the smaller ones. *)
Fixpoint insertIndex (i : Z) (k : string) (v : json)
         (l : list (string * json)) : list (string * json) :=
  match l with
  | [] => [(k, v)]
  | (k', v') :: r =>
      match arrayIndex k' with
      | Some j => if j <? i then (k', v') :: insertIndex i k v r
                  else (k, v) :: l
      | None => (k, v) :: l
      end
  end.

(** [CreateDataProperty]: a key met again keeps its place and takes the
    new value; a new key goes to its place among the array indices, or
    to the end. *)
Definition setMember (k : string) (v : json) (l : list (string * json))
  : list (string * json) :=
  if hasKey k l then replaceMember k v l
  else match arrayIndex k with
       | Some i => insertIndex i k v l
       | None => (l ++ [(k, v)])%list
       end.

Definition stripPrefix (p s : string) : option string :=
  if String.prefix p s
  then Some (String.substring (String.length p)
                              (String.length s - String.length p) s)
  else None.

Fixpoint parseValue (fuel : nat) (s : string) {struct fuel}
  : option (json * string) :=
  match fuel with
  | O => None
  | S f =>
      match skipWs s with
      | EmptyString => None
      | String c r =>
          if Ascii.eqb c "[" then
            match skipWs r with
            | EmptyString => None
            | String c1 r' =>
                if Ascii.eqb c1 "]" then Some (JArr [], r')
                else match parseElems f r with
                     | Some (l, r'') => Some (JArr l, r'')
                     | None => None
                     end
            end
          else if Ascii.eqb c "{" then
            match skipWs r with
            | EmptyString => None
            | String c1 r' =>
                if Ascii.eqb c1 "}" then Some (JObj [], r')
                else match parseMembers f r [] with
                     | Some (l, r'') => Some (JObj l, r'')
                     | None => None
                     end
            end
          else if Ascii.eqb c dquote then
            match parseChars r with
            | Some (str, r') => Some (JStr (pairUp str), r')
            | None => None
            end
          else if Ascii.eqb c "t" then
            match stripPrefix "rue" r with
            | Some r' => Some (JBool true, r')
            | None => None
            end
          else if Ascii.eqb c "f" then
            match stripPrefix "alse" r with
            | Some r' => Some (JBool false, r')
            | None => None
            end
          else if Ascii.eqb c "n" then
            match stripPrefix "ull" r with
            | Some r' => Some (JNull, r')
            | None => None
            end
          else parseNumber (String c r)
      end
  end

with parseElems (fuel : nat) (s : string) {struct fuel}
  : option (list json * string) :=
  match fuel with
  | O => None
  | S f =>
      match parseValue f s with
      | Some (v, r) =>
          match skipWs r with
          | String c r' =>
              if Ascii.eqb c "," then
                match parseElems f r' with
                | Some (l, r'') => Some (v :: l, r'')
                | None => None
                end
              else if Ascii.eqb c "]" then Some ([v], r')
              else None
          | EmptyString => None
          end
      | None => None
      end
  end

with parseMembers (fuel : nat) (s : string) (acc : list (string * json))
     {struct fuel} : option (list (string * json) * string) :=
  match fuel with
  | O => None
  | S f =>
      match skipWs s with
      | String q r =>
          if Ascii.eqb q dquote then
            match parseChars r with
            | Some (k, r1) =>
                match skipWs r1 with
                | String c r2 =>
                    if Ascii.eqb c ":" then
                      match parseValue f r2 with
                      | Some (v, r3) =>
                          match skipWs r3 with
                          | String d r4 =>
                              if Ascii.eqb d "," then
                                parseMembers f r4 (setMember (pairUp k) v acc)
                              else if Ascii.eqb d "}" then
                                Some (setMember (pairUp k) v acc, r4)
                              else None
                          | EmptyString => None
                          end
                      | None => None
                      end
                    else None
                | EmptyString => None
                end
            | None => None
            end
          else None
      | EmptyString => None
      end
  end.

(** [JSON.parse(text)]; [None] stands for the [SyntaxError]. *)
Definition parse (text : string) : option json :=
  match parseValue (S (String.length text)) text with
  | Some (v, rest) =>
      match skipWs rest with
      | EmptyString => Some v
      | _ => None
      end
  | None => None
  end.

(** *** Values as the program reads them *)

(** How deep [parseValue] has to go for a value. *)
Fixpoint size (v : json) : nat :=
  match v with
  | JArr items =>
      S ((fix sizes (l : list json) : nat :=
            match l with
            | [] => O
            | x :: r => S (size x + sizes r)
            end) items)
  | JObj members =>
      S ((fix sizes (l : list (string * json)) : nat :=
            match l with
            | [] => O
            | (_, x) :: r => S (size x + sizes r)
            end) members)
  | _ => 1%nat
  end.

Fixpoint sizeItems (l : list json) : nat :=
  match l with
  | [] => O
  | x :: r => S (size x + sizeItems r)
  end.

Fixpoint sizeMembers (l : list (string * json)) : nat :=
  match l with
  | [] => O
  | (_, x) :: r => S (size x + sizeMembers r)
  end.

Fixpoint nodup (keys : list string) : bool :=
  match keys with
  | [] => true
  | k :: r => negb (existsb (String.eqb k) r) && nodup r
  end.

(** A double: the mantissa below [2 ^ 53], and at least [2 ^ 52] unless
    the exponent is the least one. *)
Definition isNumber (x : Number.number) : bool :=
  match x with
  | Number.Finite _ m e =>
      (0 <=? m) && (m <? 2 ^ 53) && (-1074 <=? e) && (e <=? 971)
      && ((2 ^ 52 <=? m) || (e =? -1074))
  | Number.Infinite _ => true
  end.

(** A string whose surrogate pairs are each one character. *)
Definition isString (s : string) : bool := (pairUp s =? s)%string.

Definition isName (k : string) : bool :=
  match arrayIndex k with
  | Some _ => false
  | None => true
  end.

(** Keys in the order an object holds them: the array indices from
    [next] on, ascending, then the other keys, each once. *)
Fixpoint ordered (next : Z) (keys : list string) : bool :=
  match keys with
  | [] => true
  | k :: r =>
      match arrayIndex k with
      | Some i => (next <=? i) && ordered (i + 1) r
      | None => forallb isName r && nodup keys
      end
  end.

(** The values of the language: what [parse] can give and, with NaN left
    out, what a program can build of the same types. *)
Fixpoint isValue (v : json) : bool :=
  match v with
  | JNum x => isNumber x
  | JStr s => isString s
  | JArr items => forallb isValue items
  | JObj members =>
      ordered 0 (map fst members)
      && forallb (fun kv => isString (fst kv) && isValue (snd kv)) members
  | _ => true
  end.

(** [value[key]] on an object, for a key that [Object.prototype] does
    not have. *)
Fixpoint getMember (key : string) (l : list (string * json)) : option json :=
  match l with
  | [] => None
  | (k, v) :: r => if (k =? key)%string then Some v else getMember key r
  end.

(** Truthiness of a value. *)
Definition truthy (v : json) : bool :=
  match v with
  | JNull => false
  | JBool b => b
  | JNum (Number.Finite _ m _) => negb (m <=? 0)
  | JNum (Number.Infinite _) => true
  | JStr s => JsString.truthy s
  | JArr _ | JObj _ => true
  end.

End JSON.

(* ================================================================== *)
(** ** FileUtils: staging and the multi-file batcher                   *)
(* ================================================================== *)

Module FileUtils.

Import JSON.

(** *** Lines *)

Definition asciiSpace (c : ascii) : bool :=
  let n := N_of_ascii c in (((9 <=? n) && (n <=? 13)) || (n =? 32))%N.

(** U+00A0, in UTF-8. *)
Definition twoByteSpace (a b : ascii) : bool :=
  ((N_of_ascii a =? 194) && (N_of_ascii b =? 160))%N.

(** U+1680, U+2000..U+200A, U+2028, U+2029, U+202F, U+205F, U+3000 and
    U+FEFF, in UTF-8. *)
Definition threeByteSpace (a b c : ascii) : bool :=
  let x := N_of_ascii a in
  let y := N_of_ascii b in
  let z := N_of_ascii c in
  (((x =? 225) && (y =? 154) && (z =? 128))
   || ((x =? 226) && (y =? 128)
       && (((128 <=? z) && (z <=? 138)) || (z =? 168) || (z =? 169) || (z =? 175)))
   || ((x =? 226) && (y =? 129) && (z =? 159))
   || ((x =? 227) && (y =? 128) && (z =? 128))
   || ((x =? 239) && (y =? 187) && (z =? 191)))%N.

(** [!line.trim()]: the line is made of white space and line
    terminators only. *)
Fixpoint isBlank (s : string) : bool :=
  match s with
  | EmptyString => true
  | String c r =>
      if asciiSpace c then isBlank r
      else match r with
           | EmptyString => false
           | String d r1 =>
               if twoByteSpace c d then isBlank r1
               else match r1 with
                    | EmptyString => false
                    | String e r2 =>
                        if threeByteSpace c d e then isBlank r2 else false
                    end
           end
  end.

(** [content.split('\n').filter(line => line.trim())] *)
Definition nonBlankLines (content : string) : list string :=
  filter (fun line => negb (isBlank line)) (JsString.split JsString.LF content).

(** *** Errors *)

(** [ErrorHandler.handleFileError(error, filePath, options)]: prints and
    ends the process with [process.exit(1)]. *)
Definition handleFileError {A} (msg filePath : string)
  : list log * outcome A :=
  ((Err, "File Error: " ++ msg)
     :: (if JsString.truthy filePath then [(Err, "File: " ++ filePath)] else []),
   Exited 1).

(** Messages of errors the engine raises; their wording is the engine's
    and is not modelled. *)
Definition syntaxError : string := "SyntaxError".
Definition typeError : string := "TypeError".
Definition noSuchFile : string := "ENOENT".

(** *** Reading an import file *)

Fixpoint parseAll (ls : list string) : option (list json) :=
  match ls with
  | [] => Some []
  | l :: r =>
      match JSON.parse l with
      | Some v =>
          match parseAll r with
          | Some vs => Some (v :: vs)
          | None => None
          end
      | None => None
      end
  end.

(** The [jsonl] case of [parseImportFile]. *)
Definition parseJSONL (fileContent : string) : option (list json) :=
  parseAll (nonBlankLines fileContent).

Section Staging.

(** [FileUtils.parseCSV], not needed by the properties below; [inr] is
    the message of the error it throws. *)
Variable parseCSV : string -> json + string.

(** The file system before the call: the content of each readable file. *)
Variable fs : string -> option string.

(** The [switch] of [parseImportFile]. *)
Definition parseByFormat (fileContent format : string) : json + string :=
  let f := JsString.toLowerCase format in
  if (f =? "json")%string then
    match JSON.parse fileContent with
    | Some v => inl v
    | None => inr syntaxError
    end
  else if (f =? "jsonl")%string then
    match parseJSONL fileContent with
    | Some vs => inl (JArr vs)
    | None => inr syntaxError
    end
  else if (f =? "csv")%string then parseCSV fileContent
  else inr ("Unsupported format: " ++ format).

(** [parseImportFile(filePath, options)] *)
Definition parseImportFile (filePath format : string)
  : list log * outcome json :=
  match fs filePath with
  | None => handleFileError noSuchFile filePath
  | Some fileContent =>
      match parseByFormat fileContent format with
      | inl data => ([], Returned data)
      | inr msg => handleFileError msg filePath
      end
  end.

Definition q : string := String dquote "".

(** [`{"meta": {"objectname": "${name}"}}`] *)
Definition metaLine (name : string) : string :=
  "{" ++ q ++ "meta" ++ q ++ ": {" ++ q ++ "objectname" ++ q ++ ": "
      ++ q ++ name ++ q ++ "}}".

(** [filePath.replace(/\.[^.]+$/, '.jsonl')] *)
Definition replaceExtension (filePath : string) : string :=
  match rev (JsString.split "." filePath) with
  | ext :: (_ :: _) as before =>
      if JsString.truthy ext
      then JsString.join "." (rev before) ++ ".jsonl"
      else filePath
  | _ => filePath
  end.

(** [convertToJSONL(filePath, objectType, options)].  [Returned (f, c)]:
    the content [c] was written to [f] and [f] was returned. *)
Definition convertToJSONL (filePath objectType format : string)
  : list log * outcome (string * string) :=
  match parseImportFile filePath format with
  | (out, Returned data) =>
      match data with
      | JArr items =>
          let jsonlContent :=
            JsString.join JsString.nl
              (metaLine (JsString.toLowerCase objectType)
                 :: map stringify items) in
          (out, Returned (replaceExtension filePath, jsonlContent))
      | _ =>
          let '(out', r) := handleFileError typeError filePath in
          ((out ++ out')%list, r)
      end
  | (out, Threw e) => (out, Threw e)
  | (out, Exited code) => (out, Exited code)
  end.

(** The value of [objectName] after the inner [try]; [None] when the
    inner [catch] is entered. *)
Definition objectNameOf (firstLine objectType : string) : option json :=
  match JSON.parse firstLine with
  | None | Some JNull => None
  | Some v =>
      let fallback := JStr (JsString.toLowerCase objectType) in
      match v with
      | JObj members =>
          match getMember "meta_objectName" members with
          | Some x => Some (if truthy x then x else fallback)
          | None => Some fallback
          end
      | _ => Some fallback
      end
  end.

(** [s.replace(pattern, replacement)] for a string pattern. *)
Fixpoint replaceFirst (pattern replacement s : string) : string :=
  if String.prefix pattern s
  then replacement
         ++ String.substring (String.length pattern)
              (String.length s - String.length pattern) s
  else match s with
       | EmptyString => EmptyString
       | String c r => String c (replaceFirst pattern replacement r)
       end.

(** [convertExportedFileToImportFormat(filePath, objectType)] *)
Definition convertExportedFileToImportFormat (filePath objectType : string)
  : list log * outcome (string * string) :=
  match fs filePath with
  | None => handleFileError noSuchFile filePath
  | Some content =>
      match nonBlankLines content with
      | [] => handleFileError "File is empty" filePath
      | firstLine :: rest =>
          match objectNameOf firstLine objectType with
          | None =>
              handleFileError "Invalid JSONL format in first line" filePath
          | Some (JStr objectName) =>
              let importLines :=
                metaLine (JsString.toLowerCase objectName) :: rest in
              let importContent := JsString.join JsString.nl importLines in
              ([], Returned (replaceFirst ".jsonl" "-import.jsonl" filePath,
                             importContent))
          | Some _ => handleFileError typeError filePath
          end
      end
  end.

End Staging.

(** *** Reading a CSV file *)

(** [s.trimStart()]: white space and line terminators at the front go,
    a character at a time. *)
Fixpoint trimStart (s : string) : string :=
  match s with
  | EmptyString => EmptyString
  | String c r =>
      if asciiSpace c then trimStart r
      else match r with
           | EmptyString => s
           | String d r1 =>
               if twoByteSpace c d then trimStart r1
               else match r1 with
                    | EmptyString => s
                    | String e r2 =>
                        if threeByteSpace c d e then trimStart r2 else s
                    end
           end
  end.

Fixpoint revOnto (s acc : string) : string :=
  match s with
  | EmptyString => acc
  | String c r => revOnto r (String c acc)
  end.

(** The bytes of a string, last first. *)
Definition reverse (s : string) : string := revOnto s EmptyString.

(** [trimStart] on the reversed string: the bytes of a character come in
    last first. *)
Fixpoint trimStartReversed (s : string) : string :=
  match s with
  | EmptyString => EmptyString
  | String c r =>
      if asciiSpace c then trimStartReversed r
      else match r with
           | EmptyString => s
           | String d r1 =>
               if twoByteSpace d c then trimStartReversed r1
               else match r1 with
                    | EmptyString => s
                    | String e r2 =>
                        if threeByteSpace e d c then trimStartReversed r2
                        else s
                    end
           end
  end.

(** [s.trimEnd()] *)
Definition trimEnd (s : string) : string :=
  reverse (trimStartReversed (reverse s)).

(** [s.trim()] *)
Definition trim (s : string) : string := trimEnd (trimStart s).

(** [s.replace(pattern, '')] where the pattern, with the flag [g], is one
    double quote: every double quote goes. *)
Fixpoint removeQuotes (s : string) : string :=
  match s with
  | EmptyString => EmptyString
  | String c r =>
      if Ascii.eqb c dquote then removeQuotes r else String c (removeQuotes r)
  end.

(** [line.split(',')] with each piece trimmed, then rid of its double
    quotes. *)
Definition cells (line : string) : list string :=
  map (fun v => removeQuotes (trim v)) (JsString.split "," line).

(** [row[header] = text] on an object made by [{}].  [__proto__] is the
    accessor that the object inherits from [Object.prototype]: its setter
    does nothing with a string, and no property is made.  Any other key
    is made, or takes the new value where it is. *)
Definition assign (header text : string) (row : list (string * json))
  : list (string * json) :=
  if (header =? "__proto__")%string then row
  else setMember header (JStr text) row.

(** [headers.forEach((header, index) => { row[header] = values[index] || ''; })],
    from column [index] on. *)
Fixpoint fillRow (headers : list string) (index : nat) (values : list string)
         (row : list (string * json)) : list (string * json) :=
  match headers with
  | [] => row
  | header :: rest =>
      fillRow rest (S index) values (assign header (nth index values "") row)
  end.

Definition tooFewLines : string :=
  "CSV file must have at least a header row and one data row".

(** [parseCSV(content)]; [inr] is the message of the error it throws. *)
Definition parseCSV (content : string) : json + string :=
  match nonBlankLines content with
  | headerLine :: ((_ :: _) as dataLines) =>
      let headers := cells headerLine in
      inl (JArr (map (fun line => JObj (fillRow headers 0 (cells line) []))
                     dataLines))
  | _ => inr tooFewLines
  end.

(** *** The multi-file batcher *)

(** One part of the multipart request: [formData.append(fieldName,
    fs.createReadStream(filePath), fileName)]. *)
Record part : Type := mkPart {
  fieldName : string;
  filePath : string;
  fileName : string
}.

(** The body of [files.forEach] in [createMultiFileFormData]. *)
Definition addFile (getFieldName : string -> string) (path : string)
  : list part * list log :=
  let fileName := Path.basename path in
  let objectType := Path.prefixBeforeDash fileName in
  let fieldName := getFieldName objectType in
  if JsString.truthy fieldName
  then ([mkPart fieldName path fileName],
        [(Info, "Adding " ++ objectType ++ " data from " ++ fileName)])
  else ([],
        [(Warning, "Skipping " ++ fileName ++ " - unknown object type: "
                     ++ objectType)]).

(** [createMultiFileFormData(files, getFieldName)]: the form data as the
    list of its parts, and what was logged. *)
Fixpoint createMultiFileFormData (files : list string)
         (getFieldName : string -> string) : list part * list log :=
  match files with
  | [] => ([], [])
  | f :: rest =>
      let '(p, l) := addFile getFieldName f in
      let '(ps, ls) := createMultiFileFormData rest getFieldName in
      ((p ++ ps)%list, (l ++ ls)%list)
  end.

(** *** Finding the files of an export job *)

Section Finding.

(** [new RegExp(source)]: the test [file => file.match(regExp)] of the
    regular expression compiled from [source], or [None] when the
    constructor throws because [source] is no regular expression. *)
Variable regExp : string -> option (string -> bool).

(** [path.join], [process.cwd()], what [fs.readdirSync(currentDir)] gives
    ([inr]: the message of the error it throws) and [fs.existsSync]. *)
Variable P : Path.api.
Variable currentDir : string.
Variable readdirSync : list string + string.
Variable existsSync : string -> bool.

(** [findDownloadedFiles(exportJobId, objectType, options)], with
    [options.allObjects] as a truth value.  The regular expression is
    compiled anew for each file of the directory, inside the [try].  The
    names compared in lower case are taken to be ASCII, where
    [toLowerCase] is the operation of the program. *)
Definition findDownloadedFiles (exportJobId objectType : string)
           (allObjects : bool) : list string * list log :=
  match readdirSync with
  | inl dirContents =>
      let existing (matches : string -> bool) : list string * list log :=
        (filter existsSync
                (map (Path.join P currentDir) (filter matches dirContents)),
         []) in
      if allObjects
      then match regExp ("^.*-" ++ exportJobId ++ "\.jsonl$"), dirContents with
           | Some test, _ => existing test
           | None, [] => ([], [])
           | None, _ :: _ =>
               ([], [(Err, "Error searching for downloaded files: "
                             ++ syntaxError)])
           end
      else existing
             (fun file =>
                (JsString.toLowerCase file
                 =? JsString.toLowerCase objectType ++ "-" ++ exportJobId
                    ++ ".jsonl")%string)
  | inr msg =>
      ([], [(Err, "Error searching for downloaded files: " ++ msg)])
  end.

End Finding.

End FileUtils.

(* ================================================================== *)
(** ** ExportStrategy: the downloader                                  *)
(* ================================================================== *)

Module ExportStrategy.

(** The options the downloader reads: [objectType], [output], [jobId]. *)
Record options : Type := mkOptions {
  objectType : option string;
  output : option string;
  jobId : option string
}.

(** What the downloader does to the outside world, in order. *)
Inductive event : Type :=
| Logged (lv : level) (msg : string)
| Fetch (url : string)
| Written (path : string) (data : string)
| Printed (data : string).

Definition firstUrl (obj : JobObject) : option string :=
  match fileUrls obj with
  | Some (u :: _) => Some u
  | _ => None
  end.

(** [obj.status === 'Completed' && obj.fileUrls && obj.fileUrls.length > 0] *)
Definition completedWithFile (obj : JobObject) : bool :=
  (status obj =? "Completed")%string
  && match firstUrl obj with Some _ => true | None => false end.

Definition notUsage (obj : JobObject) : bool :=
  negb (name obj =? "Usage")%string.

(** [this.options.objectType?.toLowerCase()] *)
Definition requestedObjectType (o : options) : option string :=
  option_map JsString.toLowerCase (objectType o).

(** The negation of the loop's [continue] test
    [requestedObjectType && objName !== requestedObjectType]. *)
Definition wanted (o : options) (obj : JobObject) : bool :=
  match requestedObjectType o with
  | Some r =>
      if JsString.truthy r
      then (JsString.toLowerCase (name obj) =? r)%string
      else true
  | None => true
  end.

Definition orElse (v : option string) (d : string) : string :=
  match v with
  | Some x => if JsString.truthy x then x else d
  | None => d
  end.

(** [`${obj.name.toLowerCase()}-${jobId}${baseExtension}`] *)
Definition individualName (P : Path.api) (o : options) (obj : JobObject)
  : string :=
  let jobId := orElse (jobId o) "unknown" in
  let extension :=
    match output o with
    | Some out => if JsString.truthy out then Path.extname P out else ".jsonl"
    | None => ".jsonl"
    end in
  let baseExtension := if JsString.truthy extension then extension else ".jsonl" in
  JsString.toLowerCase (name obj) ++ "-" ++ jobId ++ baseExtension.

(** The [outputPath] handed to [FileUtils.writeOutput]. *)
Definition outputPath (P : Path.api) (o : options)
           (needsIndividualFiles : bool) (obj : JobObject) : option string :=
  if needsIndividualFiles
  then match output o with
       | Some out =>
           if JsString.truthy out
           then Some (Path.join P (Path.dirname P out) (individualName P o obj))
           else Some (individualName P o obj)
       | None => Some (individualName P o obj)
       end
  else output o.

(** [FileUtils.writeOutput(data, outputPath, options)] *)
Definition writeOutput (data : string) (outputPath : option string)
  : list event :=
  match outputPath with
  | Some p =>
      if JsString.truthy p
      then [Written p data; Logged Success ("Data written to: " ++ p)]
      else [Printed data]
  | None => [Printed data]
  end.

(** The body of [for (const obj of validObjects)]; the second component
    is the exit code when the download ended the process. *)
Definition visit (P : Path.api) (downloadFile : string -> outcome string)
           (o : options) (needsIndividualFiles : bool) (obj : JobObject)
  : list event * option Z :=
  if negb (wanted o obj) then ([], None)
  else if completedWithFile obj then
    match firstUrl obj with
    | Some url =>
        match downloadFile url with
        | Returned data =>
            ((Logged Info ("Downloading " ++ name obj ++ " data...")
              :: Fetch url
              :: writeOutput data (outputPath P o needsIndividualFiles obj))
             ++ [ Logged Success ("Downloaded " ++ name obj ++ " data ("
                                    ++ showSize obj ++ " records)");
                  Logged Info
                    "Format: JSONL with metadata header for import compatibility" ],
             None)%list
        | Threw e =>
            ([ Logged Info ("Downloading " ++ name obj ++ " data...");
               Fetch url;
               Logged Err ("Error downloading " ++ name obj ++ " data: "
                             ++ message e) ],
             None)
        | Exited code =>
            ([ Logged Info ("Downloading " ++ name obj ++ " data...");
               Fetch url ],
             Some code)
        end
    | None => ([], None)
    end
  else if (status obj =? "Failed")%string then
    if JobManager.noRecordsPattern obj
    then ([Logged Warning ("  • " ++ name obj ++ ": No records available")], None)
    else ([Logged Err ("  • " ++ name obj ++ ": " ++ showErrors obj)], None)
  else if (status obj =? "Completed")%string then
    ([Logged Info ("  • " ++ name obj ++ ": " ++ showSize obj
                     ++ " records (no file to download)")], None)
  else ([Logged Warning ("  • " ++ name obj ++ ": " ++ status obj)], None).

Fixpoint visitAll (P : Path.api) (downloadFile : string -> outcome string)
         (o : options) (needsIndividualFiles : bool) (objs : list JobObject)
  : list event * option Z :=
  match objs with
  | [] => ([], None)
  | obj :: rest =>
      match visit P downloadFile o needsIndividualFiles obj with
      | (ev, Some code) => (ev, Some code)
      | (ev, None) =>
          let '(ev', r) := visitAll P downloadFile o needsIndividualFiles rest in
          ((ev ++ ev')%list, r)
      end
  end.

(** [async downloadResults(status)] *)
Definition downloadResults (P : Path.api)
           (downloadFile : string -> outcome string) (o : options)
           (st : JobStatus) : list event * option Z :=
  match objects st with
  | None | Some [] => ([Logged Warning "No export results available"], None)
  | Some objs =>
      let validObjects := filter notUsage objs in
      let completedObjects := filter completedWithFile validObjects in
      let needsIndividualFiles := (1 <? length completedObjects)%nat in
      visitAll P downloadFile o needsIndividualFiles validObjects
  end.

(** The files an event list leaves on disk, in the order written. *)
Fixpoint writes (evs : list event) : list (string * string) :=
  match evs with
  | [] => []
  | Written p d :: rest => (p, d) :: writes rest
  | _ :: rest => writes rest
  end.

Fixpoint fetches (evs : list event) : list string :=
  match evs with
  | [] => []
  | Fetch u :: rest => u :: fetches rest
  | _ :: rest => fetches rest
  end.

End ExportStrategy.

Module DownloadStrategy.

Import ExportStrategy.

(** [!status.objects ||
     status.objects.filter(obj => obj.status === 'Completed').length === 0] *)
Definition nothingCompleted (st : JobStatus) : bool :=
  match objects st with
  | Some objs => (length (filter JobManager.isCompleted objs) =? 0)%nat
  | None => true
  end.

(** The options after
    [if (this.options.objectType)
       this.options.objectType = this.options.objectType.toLowerCase()]. *)
Definition lowered (o : options) : options :=
  if JsString.truthyOpt (objectType o)
  then mkOptions (option_map JsString.toLowerCase (objectType o))
                 (output o) (jobId o)
  else o.

(** [execute(jobId)]; [status] is what [apiClient.getExportJobStatus(jobId)]
    gave.  The status is compared as it comes. *)
Definition execute (P : Path.api) (status : outcome JobStatus)
           (downloadFile : string -> outcome string) (o : options)
           (jobId : string) : list event * outcome unit :=
  let checking :=
    Logged Info ("Checking status of export job " ++ jobId ++ "...") in
  match status with
  | Returned st =>
      if (js_status st =? "Processing")%string
      then ([checking;
             Logged Warning "Job is still processing. Please wait and try again."],
            Exited 1)
      else if (js_status st =? "Failed")%string && nothingCompleted st
      then ([checking;
             Logged Err "Job failed completely. No results available."],
            Exited 1)
      else
        let '(evs, code) := downloadResults P downloadFile (lowered o) st in
        (checking :: evs,
         match code with Some c => Exited c | None => Returned tt end)
  | Threw e => ([checking], Threw e)
  | Exited code => ([checking], Exited code)
  end.

End DownloadStrategy.

Module ExportStrategyFactory.

Inductive strategy : Type := Download | GraphQLExport.

(** [createStrategy(options, apiClient)]: a [DownloadStrategy] when the
    options carry a job id, a [GraphQLExportStrategy] otherwise. *)
Definition createStrategy (o : ExportStrategy.options) : strategy :=
  if JsString.truthyOpt (ExportStrategy.jobId o) then Download
  else GraphQLExport.

End ExportStrategyFactory.

(* ================================================================== *)
(** ** Observations and sample inputs used to state the properties     *)
(* ================================================================== *)

(** What a poller makes of a status: it stops and hands the status back,
    it stops with an error, or it goes on polling. *)
Inductive verdict : Type := Resolves | Throws | KeepsPolling | Exits.

Definition verdictOf (r : list log * JobManager.step) : verdict :=
  match snd r with
  | JobManager.Return _ => Resolves
  | JobManager.Throw _ => Throws
  | JobManager.Sleep _ => KeepsPolling
  | JobManager.Exit _ => Exits
  end.

(** The same status under another spelling of its [status] field. *)
Definition withStatus (st : JobStatus) (s : string) : JobStatus :=
  mkStatus s (objects st) (importJobs st) (js_error st) (errorMessage st)
           (errorCode st).

(** [status.objects || []] *)
Definition objectsOf (st : JobStatus) : list JobObject :=
  match objects st with Some l => l | None => [] end.

(** [status.importJobs || []] *)
Definition importJobsOf (st : JobStatus) : list ImportJob :=
  match importJobs st with Some l => l | None => [] end.

Module Sample.

(** A job that stays in progress: every request takes 100 ms and is
    answered [Processing]. *)
Definition processingStatus : JobStatus :=
  mkStatus "Processing" None None None None None.

(** A job that has ended well. *)
Definition completedStatus : JobStatus :=
  mkStatus "Completed" None None None None None.

Definition stillProcessing (jobId : string) (n : nat) : JobManager.tick :=
  JobManager.mkTick 100 ([], Returned processingStatus) 0.

Definition product : JobObject :=
  mkObject "Product" "Completed" (Some 3)
           (Some ["https://files.example/product"]) None.

Definition bundle : JobObject :=
  mkObject "Bundle" "Completed" (Some 2)
           (Some ["https://files.example/bundle"]) None.

Definition usage : JobObject :=
  mkObject "Usage" "Completed" (Some 7)
           (Some ["https://files.example/usage"]) None.

(** No records: failed, zero records, the server's "No ... fetched". *)
Definition emptyUom : JobObject :=
  mkObject "UOM" "Failed" (Some 0) None (Some ["No UOM records fetched"]).

(** A real failure. *)
Definition brokenPriceBook : JobObject :=
  mkObject "PriceBook" "Failed" (Some 0) None (Some ["Internal error"]).

Definition failedWith (objs : list JobObject) : JobStatus :=
  mkStatus "FAILED" (Some objs) None (Some "export failed") None None.

(** A client whose every answer is the given status, after 100 ms. *)
Definition answering (st : JobStatus) (jobId : string) (n : nat)
  : JobManager.tick :=
  JobManager.mkTick 100 ([], Returned st) 0.

(** axios rejecting every status request with a 404 response. *)
Definition notFoundYet (n : nat) : Z * ApiClient.AxiosResult JobStatus * Z :=
  (100, inr (mkError "Request failed with status code 404"
                     (Some (mkResponse 404))), 0).

(** A client that throws the same 404 error to its caller. *)
Definition throwing404 (jobId : string) (n : nat) : JobManager.tick :=
  JobManager.mkTick 100
    ([], Threw (mkError "Request failed with status code 404"
                        (Some (mkResponse 404)))) 0.

(** An import whose [Product] file was rejected and whose [UOM] file went
    through. *)
Definition importedUom : ImportJob := mkImportJob "UOM" "Completed".

Definition rejectedProduct : ImportJob := mkImportJob "Product" "Failed".

Definition failedImport (jobs : list ImportJob) : JobStatus :=
  mkStatus "Failed" None (Some jobs) (Some "import failed") None None.

End Sample.

(** The same status with another list of objects. *)
Definition withObjects (st : JobStatus) (objs : list JobObject) : JobStatus :=
  mkStatus (js_status st) (Some objs) (importJobs st) (js_error st)
           (errorMessage st) (errorCode st).

(** A download that always succeeds: [content url] is what the URL serves. *)
Definition serving (content : string -> string) (url : string)
  : outcome string :=
  Returned (content url).

(** [obj.fileUrls[0]] of an object that has a file. *)
Definition urlOf (obj : JobObject) : string :=
  match ExportStrategy.firstUrl obj with Some url => url | None => "" end.

(** The objects a download of a status works on: not named [Usage],
    matching the requested type, [Completed] with a file. *)
Definition selectedFor (o : ExportStrategy.options) (objs : list JobObject)
  : list JobObject :=
  filter (fun obj => ExportStrategy.wanted o obj
                     && ExportStrategy.completedWithFile obj)
         (filter ExportStrategy.notUsage objs).

(** The objects that decide on individual file names: not named [Usage],
    [Completed] with a file, requested or not. *)
Definition completedFor (objs : list JobObject) : list JobObject :=
  filter ExportStrategy.completedWithFile (filter ExportStrategy.notUsage objs).

(** A file name placed in the directory of the requested output path. *)
Definition besideOutput (P : Path.api) (o : ExportStrategy.options)
           (file : string) : string :=
  match ExportStrategy.output o with
  | Some out =>
      if JsString.truthy out then Path.join P (Path.dirname P out) file
      else file
  | None => file
  end.

(** [baseExtension] of the downloader. *)
Definition baseExtension (P : Path.api) (o : ExportStrategy.options) : string :=
  let extension :=
    match ExportStrategy.output o with
    | Some out => if JsString.truthy out then Path.extname P out else ".jsonl"
    | None => ".jsonl"
    end in
  if JsString.truthy extension then extension else ".jsonl".

(** A download that never ends the process. *)
Definition neverExits (downloadFile : string -> outcome string) : Prop :=
  forall url code, downloadFile url <> Exited code.

(** What a download leaves of an object: its file, when the download
    returned. *)
Definition writtenFor (P : Path.api) (downloadFile : string -> outcome string)
           (o : ExportStrategy.options) (needsIndividualFiles : bool)
           (obj : JobObject) : list (string * string) :=
  match downloadFile (urlOf obj) with
  | Returned data =>
      ExportStrategy.writes
        (ExportStrategy.writeOutput data
           (ExportStrategy.outputPath P o needsIndividualFiles obj))
  | _ => []
  end.

(** The row of a data line under headers that are all different: each
    header with the cell of its column, or the empty string where the line
    has no such cell. *)
Definition rowOf (headers values : list string)
  : list (string * JSON.json) :=
  combine headers
          (map (fun i => JSON.JStr (nth i values ""))
               (seq 0 (length headers))).

(** A member whose value is a string. *)
Definition isStr (kv : string * JSON.json) : bool :=
  match snd kv with
  | JSON.JStr _ => true
  | _ => false
  end.

(** A display that prints nothing, and a server that goes on answering
    with an error the client throws to its caller. *)
Definition silent (st : JobStatus) : list log := [].

Definition unreachable (jobId : string) (n : nat) : JobManager.tick :=
  JobManager.mkTick 100 ([], Threw (mkError "connect ECONNREFUSED" None)) 0.

Module SampleFiles.

Import JSON.

(** The text [s] with a double quote for each ['] in it. *)
Fixpoint quoted (s : string) : string :=
  match s with
  | EmptyString => EmptyString
  | String c r => String (if Ascii.eqb c "'" then dquote else c) (quoted r)
  end.

(** The number written [digits * 10 ^ exp10]. *)
Definition num (digits exp10 : Z) : json :=
  JNum (Number.ofDecimal false digits exp10).

(** Three product records, as the text of a JSON array and as values. *)
Definition productsJson : string :=
  quoted ("[{'id':1,'name':'Basic','price':19.99,'active':true},"
          ++ " {'id': 2, 'name': 'Plus', 'price': 25e-1, 'active': false},"
          ++ " {'id':3,'name':'Pro','tags':['a',null]}]").

Definition records : list json :=
  [ JObj [("id", num 1 0); ("name", JStr "Basic"); ("price", num 1999 (-2));
          ("active", JBool true)];
    JObj [("id", num 2 0); ("name", JStr "Plus"); ("price", num 25 (-1));
          ("active", JBool false)];
    JObj [("id", num 3 0); ("name", JStr "Pro");
          ("tags", JArr [JStr "a"; JNull])] ].

Definition importFs (path : string) : option string :=
  if (path =? "data/products.json")%string then Some productsJson else None.

(** One record with a number beyond the doubles. *)
Definition overflowJson : string := quoted "[{'id':7,'price':1e999}]".

Definition overflowFs (path : string) : option string :=
  if (path =? "data/overflow.json")%string then Some overflowJson else None.

(** A file as an export leaves it: its own metadata line, two records, a
    final line break. *)
Definition exportedLines : list string :=
  [ quoted "{'meta_objectName':'Product','count':2}";
    quoted "{'id':1,'name':'Basic'}";
    quoted "{'id':2, 'name':'Plus', 'price':1e999}";
    "" ].

Definition exportedFile : string := JsString.join JsString.nl exportedLines.

Definition exportFs (path : string) : option string :=
  if (path =? "product-job-9.jsonl")%string then Some exportedFile else None.

(** No CSV reader is needed for these. *)
Definition noCsv (content : string) : json + string := inr "not used".

End SampleFiles.

(* ================================================================== *)
(** ** Notions the proofs about JSON text use                          *)
(* ================================================================== *)

Section JsonInduction.

Import JSON.

Variable Q : json -> Prop.
Hypothesis Q_null : Q JNull.
Hypothesis Q_bool : forall b, Q (JBool b).
Hypothesis Q_num : forall n, Q (JNum n).
Hypothesis Q_str : forall s, Q (JStr s).
Hypothesis Q_arr : forall items, Forall Q items -> Q (JArr items).
Hypothesis Q_obj :
  forall members, Forall (fun kv => Q (snd kv)) members -> Q (JObj members).

(** Induction over a value and, inside it, over its items and members. *)
Fixpoint json_induction (v : json) : Q v :=
  match v with
  | JNull => Q_null
  | JBool b => Q_bool b
  | JNum n => Q_num n
  | JStr s => Q_str s
  | JArr items =>
      Q_arr items
        ((fix each (l : list json) : Forall Q l :=
            match l with
            | [] => Forall_nil Q
            | x :: r => Forall_cons x (json_induction x) (each r)
            end) items)
  | JObj members =>
      Q_obj members
        ((fix each (l : list (string * json))
            : Forall (fun kv => Q (snd kv)) l :=
            match l with
            | [] => Forall_nil _
            | kv :: r =>
                Forall_cons (P := fun kv => Q (snd kv)) kv
                            (json_induction (snd kv)) (each r)
            end) members)
  end.

End JsonInduction.

Module JsonFacts.

Import JSON.

(** A string of decimal digits. *)
Fixpoint allDigits (s : string) : bool :=
  match s with
  | EmptyString => true
  | String c r => isDigit c && allDigits r
  end.

(** The characters of a number. *)
Fixpoint numberText (s : string) : bool :=
  match s with
  | EmptyString => true
  | String c r =>
      (isDigit c || Ascii.eqb c "." || Ascii.eqb c "e" || Ascii.eqb c "+"
       || Ascii.eqb c "-") && numberText r
  end.

(** What can follow a number: no digit, point or exponent. *)
Definition endsNumber (rest : string) : bool :=
  match rest with
  | EmptyString => true
  | String c _ =>
      negb (isDigit c || Ascii.eqb c "." || Ascii.eqb c "e" || Ascii.eqb c "E")
  end.

(** A double as [ofDecimal] gives it. *)
Definition canonical (x : Number.number) : Prop :=
  match x with
  | Number.Finite _ m e =>
      0 <= m < 2 ^ 53 /\ -1074 <= e <= 971 /\ (2 ^ 52 <= m \/ e = -1074)
  | Number.Infinite _ => True
  end.

(** A number that [JSON.stringify] writes as a number that is read as
    the same: finite, and not the negative zero. *)
Definition plain (x : Number.number) : bool :=
  match x with
  | Number.Finite negative m _ => negb (negative && (m <=? 0))
  | Number.Infinite _ => false
  end.

(** A value all of whose numbers are such. *)
Fixpoint plainNumbers (v : json) : bool :=
  match v with
  | JNum x => plain x
  | JArr items => forallb plainNumbers items
  | JObj members => forallb (fun kv => plainNumbers (snd kv)) members
  | _ => true
  end.

(** The characters a printed value can start with. *)
Definition startsValue (c : ascii) : bool :=
  isDigit c || Ascii.eqb c "-" || Ascii.eqb c "{" || Ascii.eqb c "["
  || Ascii.eqb c dquote || Ascii.eqb c "t" || Ascii.eqb c "f" || Ascii.eqb c "n".

(** What a value is read back as, given fuel for its depth. *)
Definition readBack (v : json) : Prop :=
  isValue v = true -> plainNumbers v = true ->
  forall fuel rest,
    (size v <= fuel)%nat -> endsNumber rest = true ->
    parseValue fuel (stringify v ++ rest) = Some (v, rest).

(** Members as [parse] keeps them: the keys in their order, each a
    string, each with a value. *)
Definition goodMembers (l : list (string * json)) : Prop :=
  ordered 0 (map fst l) = true
  /\ forallb (fun kv => isString (fst kv) && isValue (snd kv)) l = true.

(** A text without a line break in it. *)
Definition oneLine (s : string) : Prop :=
  JsString.includes s JsString.nl = false.

End JsonFacts.

(* ================================================================== *)
(** * Properties                                                       *)
(* ================================================================== *)

(** ** The job poller *)

Section Poller.

Import JobManager.

Variable kind : string.
Variable onStatus : JobStatus -> list log * step.
Variable options : Options.
Variable client : nat -> tick.
Variable startTime : Z.

Let timeoutMs : Z := timeout options * 1000.
Let run_from := loop kind onStatus options client startTime.

Lemma filter_nonempty_existsb {A} (p : A -> bool) (l : list A) :
  (0 <? length (filter p l))%nat = existsb p l.
Proof.
  induction l as [|x l IH]; simpl; [reflexivity|].
  destruct (p x); simpl; [reflexivity | exact IH].
Qed.

Lemma loop_timed_out fuel n now :
  timedOut startTime timeoutMs now = true ->
  run_from (S fuel) n now
  = mkRun [] (TimedOut (timeoutError kind options)) now 0.
Proof.
  intros H. unfold run_from, timeoutMs in *. simpl. rewrite H. reflexivity.
Qed.

Lemma loop_in_time fuel n now :
  timedOut startTime timeoutMs now = false ->
  run_from (S fuel) n now
  = let t := client n in
    let did := react kind onStatus (snd (reply t)) in
    addRequest (addLog (fst (reply t) ++ fst did)%list
      match snd did with
      | Return st => mkRun [] (Resolved st) (now + latency t) 0
      | Throw e => mkRun [] (Failed e) (now + latency t) 0
      | Exit code => mkRun [] (ProcessExit code) (now + latency t) 0
      | Sleep ms => run_from fuel (S n) (now + latency t + ms + jitter t)
      end).
Proof.
  intros H. unfold run_from, timeoutMs in *. simpl. rewrite H. reflexivity.
Qed.

Lemma ended_addRequest r : ended (addRequest r) = ended r.
Proof. reflexivity. Qed.

Lemma ended_addLog l r : ended (addLog l r) = ended r.
Proof. reflexivity. Qed.

Lemma clock_addRequest r : clock (addRequest r) = clock r.
Proof. reflexivity. Qed.

Lemma clock_addLog l r : clock (addLog l r) = clock r.
Proof. reflexivity. Qed.

(** A timeout is only ever raised at a loop head that reads a clock past
    the limit. *)
Lemma timed_out_only_when_exceeded fuel :
  forall n now e,
    ended (run_from fuel n now) = TimedOut e ->
    timeoutMs < clock (run_from fuel n now) - startTime.
Proof.
  induction fuel as [|fuel IH]; intros n now e H.
  - discriminate H.
  - destruct (timedOut startTime timeoutMs now) eqn:T.
    + rewrite loop_timed_out by exact T. simpl.
      unfold timedOut in T. apply Z.ltb_lt in T. exact T.
    + rewrite loop_in_time in * by exact T. cbv zeta in *.
      rewrite ended_addRequest, ended_addLog in H.
      rewrite clock_addRequest, clock_addLog.
      destruct (snd (react kind onStatus (snd (reply (client n)))));
        try discriminate H.
      eapply IH. exact H.
Qed.

Hypothesis sleeps_long :
  forall r out ms, react kind onStatus r = (out, Sleep ms) -> 2000 <= ms.
Hypothesis time_passes :
  forall n, 0 <= latency (client n) /\ 0 <= jitter (client n).

Lemma loop_ends fuel :
  forall n now,
    (1 <= fuel)%nat ->
    timeoutMs - (now - startTime) < 2000 * (Z.of_nat fuel - 1) ->
    ended (run_from fuel n now) <> OutOfFuel.
Proof.
  induction fuel as [|fuel IH]; intros n now Hf Hb; [lia|].
  destruct (timedOut startTime timeoutMs now) eqn:T.
  - rewrite loop_timed_out by exact T. discriminate.
  - rewrite loop_in_time by exact T. cbv zeta.
    rewrite ended_addRequest, ended_addLog.
    destruct (react kind onStatus (snd (reply (client n)))) as [out s] eqn:R.
    simpl. destruct s; try discriminate.
    apply sleeps_long in R.
    destruct (time_passes n) as [Hl Hj].
    unfold timedOut in T. apply Z.ltb_ge in T.
    apply IH; lia.
Qed.

Lemma requests_bounded fuel :
  forall n now,
    2000 * Z.of_nat (requests (run_from fuel n now))
    <= Z.max 0 (timeoutMs - (now - startTime) + 2000).
Proof.
  induction fuel as [|fuel IH]; intros n now; [simpl; lia|].
  destruct (timedOut startTime timeoutMs now) eqn:T.
  - rewrite loop_timed_out by exact T. simpl. lia.
  - rewrite loop_in_time by exact T. cbv zeta.
    unfold timedOut in T. apply Z.ltb_ge in T.
    destruct (react kind onStatus (snd (reply (client n)))) as [out s] eqn:R.
    simpl snd. destruct s; simpl; try lia.
    apply sleeps_long in R.
    destruct (time_passes n) as [Hl Hj].
    specialize (IH (S n) (now + latency (client n) + ms + jitter (client n))).
    lia.
Qed.

End Poller.

(** *** What an iteration of either poller can do *)

Section Iterations.

Import JobManager.

Variable jobId : string.
Variable options : Options.

Lemma onError_sleep kind e out ms :
  onError kind e = (out, Sleep ms) -> ms = 2000.
Proof.
  unfold onError. destruct (response e) as [r|]; [|discriminate].
  destruct (http_status r =? 404); intros H; inversion H; reflexivity.
Qed.

Lemma handleJobFailure_error st :
  snd (ErrorHandler.handleJobFailure st options) = mkError "Job failed" None.
Proof. reflexivity. Qed.

Lemma tryCatch_job_failure kind st :
  tryCatch kind (let '(out, e) := ErrorHandler.handleJobFailure st options in
                 (out, Throw e))
  = (fst (ErrorHandler.handleJobFailure st options) ++ [],
     Throw (mkError "Job failed" None))%list.
Proof. reflexivity. Qed.

Lemma export_sleeps r out ms :
  react "Export" (exportOnStatus jobId options) r = (out, Sleep ms) ->
  2000 <= ms.
Proof.
  destruct r as [st|e|code]; simpl.
  - unfold exportOnStatus.
    destruct (_ || _)%bool; [discriminate|].
    destruct (_ =? "failed")%string.
    + destruct (_ || _)%bool; [discriminate|].
      rewrite tryCatch_job_failure. discriminate.
    + simpl. intros H; inversion H; lia.
  - intros H. apply onError_sleep in H. lia.
  - discriminate.
Qed.

Lemma import_sleeps r out ms :
  react "Import" (importOnStatus jobId options) r = (out, Sleep ms) ->
  2000 <= ms.
Proof.
  destruct r as [st|e|code]; simpl.
  - unfold importOnStatus.
    destruct (_ || _)%bool; [discriminate|].
    destruct (_ =? "failed")%string.
    + destruct (JsString.some _ _); [discriminate|].
      rewrite tryCatch_job_failure. discriminate.
    + destruct (_ =? "partialcompleted")%string; [discriminate|].
      simpl. intros H; inversion H; lia.
  - intros H. apply onError_sleep in H. lia.
  - discriminate.
Qed.

End Iterations.

(** *** C9: when the timeout is raised *)

Section Timeout.

Import JobManager.

Variable jobId : string.
Variable apiClient : string -> nat -> tick.
Variable options : Options.
Variable startTime : Z.
Variable fuel : nat.

Hypothesis timeout_set : 0 <= timeout options.
Hypothesis time_passes :
  forall n, 0 <= latency (apiClient jobId n) /\ 0 <= jitter (apiClient jobId n).
Hypothesis enough_fuel : timeout options * 1000 < 2000 * (Z.of_nat fuel - 1).

(** C9, as the code has it.  The two pollers raise the timeout error at a
    loop head exactly when the clock read there has passed the configured
    timeout ([Date.now() - startTime > timeoutMs], a strict comparison).
    A head that reads more raises at once and sends no further status
    request.  A run that ends in the timeout error ends at a clock strictly
    past the timeout, so never before that many seconds.  Every wait, the
    two seconds after a 404 included, leads back to that test: a run given
    [fuel] iterations with [timeout * 1000 < 2000 * (fuel - 1)] ends by
    itself, after at most [timeout * 1000 / 2000 + 1] status requests. *)
Theorem timeout_raised_once_exceeded :
  let exportLoop :=
    loop "Export" (exportOnStatus jobId options) options (apiClient jobId)
         startTime in
  let importLoop :=
    loop "Import" (importOnStatus jobId options) options (apiClient jobId)
         startTime in
  let exportRun := waitForExportCompletion jobId apiClient options startTime fuel in
  let importRun := waitForImportCompletion jobId apiClient options startTime fuel in
  (forall k n now,
      timeout options * 1000 < now - startTime ->
      exportLoop (S k) n now
      = mkRun [] (TimedOut (timeoutError "Export" options)) now 0
      /\ importLoop (S k) n now
         = mkRun [] (TimedOut (timeoutError "Import" options)) now 0)
  /\ (forall e, ended exportRun = TimedOut e ->
                timeout options * 1000 < clock exportRun - startTime)
  /\ (forall e, ended importRun = TimedOut e ->
                timeout options * 1000 < clock importRun - startTime)
  /\ ended exportRun <> OutOfFuel
  /\ ended importRun <> OutOfFuel
  /\ 2000 * Z.of_nat (requests exportRun) <= timeout options * 1000 + 2000
  /\ 2000 * Z.of_nat (requests importRun) <= timeout options * 1000 + 2000.
Proof.
  cbv zeta.
  assert (Hfuel : (1 <= fuel)%nat) by lia.
  assert (Hstart : timeout options * 1000 - (startTime - startTime)
                   < 2000 * (Z.of_nat fuel - 1)) by lia.
  split; [|split; [|split; [|split; [|split; [|split]]]]].
  - intros k n now Hlate.
    split; apply loop_timed_out; unfold timedOut; apply Z.ltb_lt. all: exact Hlate.
  - intros e He. unfold waitForExportCompletion in *.
    rewrite ended_addLog in He. rewrite clock_addLog.
    eapply timed_out_only_when_exceeded. exact He.
  - intros e He. unfold waitForImportCompletion in *.
    rewrite ended_addLog in He. rewrite clock_addLog.
    eapply timed_out_only_when_exceeded. exact He.
  - unfold waitForExportCompletion. rewrite ended_addLog.
    apply loop_ends; [exact (export_sleeps jobId options) | exact time_passes
                     | exact Hfuel | exact Hstart].
  - unfold waitForImportCompletion. rewrite ended_addLog.
    apply loop_ends; [exact (import_sleeps jobId options) | exact time_passes
                     | exact Hfuel | exact Hstart].
  - unfold waitForExportCompletion. simpl requests.
    pose proof (requests_bounded "Export" (exportOnStatus jobId options)
                  options (apiClient jobId) startTime
                  (export_sleeps jobId options) time_passes fuel 0%nat startTime).
    lia.
  - unfold waitForImportCompletion. simpl requests.
    pose proof (requests_bounded "Import" (importOnStatus jobId options)
                  options (apiClient jobId) startTime
                  (import_sleeps jobId options) time_passes fuel 0%nat startTime).
    lia.
Qed.

End Timeout.

Lemma timeout_raised_once_exceeded_witness :
  (0 <= timeout (mkOptions 1 false))
  /\ (forall n, 0 <= JobManager.latency (Sample.stillProcessing "job-1" n)
                /\ 0 <= JobManager.jitter (Sample.stillProcessing "job-1" n))
  /\ timeout (mkOptions 1 false) * 1000 < 2000 * (Z.of_nat 2 - 1)
  /\ JobManager.ended
       (JobManager.waitForExportCompletion "job-1" Sample.stillProcessing
          (mkOptions 1 false) 0 2)
     <> JobManager.OutOfFuel.
Proof.
  assert (H1 : 0 <= timeout (mkOptions 1 false)) by (simpl; lia).
  assert (H2 : forall n, 0 <= JobManager.latency (Sample.stillProcessing "job-1" n)
                         /\ 0 <= JobManager.jitter (Sample.stillProcessing "job-1" n))
    by (intros n; simpl; lia).
  assert (H3 : timeout (mkOptions 1 false) * 1000 < 2000 * (Z.of_nat 2 - 1))
    by (simpl; lia).
  split; [exact H1|]. split; [exact H2|]. split; [exact H3|].
  exact (proj1 (proj2 (proj2 (proj2
           (timeout_raised_once_exceeded "job-1" Sample.stillProcessing
              (mkOptions 1 false) 0 2 H1 H2 H3))))).
Defined.

(** C9 as stated fails at the boundary: with a timeout of one second, a
    loop head that reads exactly 1000 ms of elapsed time raises nothing; it
    sends one more status request and, the job still being in progress,
    waits five seconds.  The error comes at the next head, 5100 ms later. *)
Lemma timeout_not_raised_when_just_reached :
  let r := JobManager.loop "Export"
             (JobManager.exportOnStatus "job-1" (mkOptions 1 false))
             (mkOptions 1 false) (Sample.stillProcessing "job-1") 0 2 0 1000 in
  1000 - 0 >= timeout (mkOptions 1 false) * 1000
  /\ JobManager.requests r = 1%nat
  /\ JobManager.clock r = 6100
  /\ JobManager.ended r
     = JobManager.TimedOut (mkError "Export job timed out after 1 seconds" None).
Proof.
  cbv zeta. split; [simpl; lia|]. split; [reflexivity|]. split; reflexivity.
Qed.

(** *** C1, C4: a top-level [failed] status *)

Section FailedStatus.

Import JobManager.

Variable jobId : string.
Variable options : Options.
Variable client : nat -> tick.
Variable startTime : Z.
Variables (fuel n : nat) (now : Z).
Variable st : JobStatus.

(** The head of the loop lets the request through, the request is answered
    with [st], and [st] says [failed] in some casing. *)
Hypothesis in_time : now - startTime <= timeout options * 1000.
Hypothesis answered : snd (reply (client n)) = Returned st.
Hypothesis failed : JsString.toLowerCase (js_status st) = "failed".

Let r : run :=
  loop "Export" (exportOnStatus jobId options) options client startTime
       (S fuel) n now.

Lemma usable_objects :
  ((0 <? length (completedObjects st)) || (0 <? length (noRecordsObjects st)))%nat
  = existsb (fun o => isCompleted o || isNoRecords o) (objectsOf st).
Proof.
  unfold completedObjects, noRecordsObjects, filterObjects, objectsOf.
  destruct (objects st) as [objs|]; [|reflexivity].
  rewrite !filter_nonempty_existsb.
  induction objs as [|o objs IH]; simpl; [reflexivity|].
  rewrite <- IH.
  destruct (isCompleted o), (isNoRecords o), (existsb isCompleted objs),
    (existsb isNoRecords objs); reflexivity.
Qed.

Lemma failed_status_react :
  react "Export" (exportOnStatus jobId options) (Returned st)
  = if existsb (fun o => isCompleted o || isNoRecords o) (objectsOf st)
    then ([(Success, "Export job completed with partial success")], Return st)
    else ((fst (ErrorHandler.handleJobFailure st options) ++ [])%list,
          Throw (mkError "Job failed" None)).
Proof.
  simpl. unfold exportOnStatus. rewrite failed. simpl.
  rewrite usable_objects.
  destruct (existsb _ _); reflexivity.
Qed.

Lemma failed_status_run :
  ended r
  = if existsb (fun o => isCompleted o || isNoRecords o) (objectsOf st)
    then Resolved st
    else Failed (mkError "Job failed" None).
Proof.
  unfold r. rewrite loop_in_time.
  2:{ unfold timedOut. apply Z.ltb_ge. exact in_time. }
  cbv zeta. rewrite answered, failed_status_react.
  destruct (existsb _ _); reflexivity.
Qed.

Lemma failed_status_printed :
  existsb (fun o => isCompleted o || isNoRecords o) (objectsOf st) = true ->
  In (Success, "Export job completed with partial success") (printed r).
Proof.
  intros H. unfold r. rewrite loop_in_time.
  2:{ unfold timedOut. apply Z.ltb_ge. exact in_time. }
  cbv zeta. rewrite answered, failed_status_react, H. simpl.
  apply in_or_app. left. apply in_or_app. right. left. reflexivity.
Qed.

Lemma summaryBlock_lists lv title line objs obj :
  In obj objs -> In (lv, line obj) (summaryBlock lv title line objs).
Proof.
  intros H. unfold summaryBlock. destruct objs as [|x l]; [contradiction|].
  simpl Nat.ltb. cbv iota. right.
  apply (in_map (fun obj => (lv, line obj))). exact H.
Qed.

Lemma filterObjects_keeps p obj :
  In obj (objectsOf st) -> p obj = true -> In obj (filterObjects p st).
Proof.
  unfold objectsOf, filterObjects. destruct (objects st) as [objs|];
    [|contradiction].
  intros Hin Hp. apply filter_In. split; assumption.
Qed.


(** C4, as the code has it.  On a status that says [failed] in which no
    object is [Completed] and none matches the no-records pattern, the
    export poller ends with a thrown error; its message is the fixed text
    [Job failed], whatever the job id. *)
Theorem all_objects_failed_throws_job_failed :
  (forall o, In o (objectsOf st) ->
             isCompleted o = false /\ isNoRecords o = false) ->
  exists e, ended r = Failed e /\ message e = "Job failed".
Proof.
  intros Hall. exists (mkError "Job failed" None). split; [|reflexivity].
  rewrite failed_status_run.
  destruct (existsb _ _) eqn:E; [|reflexivity].
  apply existsb_exists in E. destruct E as [o [Hin Ho]].
  destruct (Hall o Hin) as [Hc Hn]. rewrite Hc, Hn in Ho. discriminate Ho.
Qed.

End FailedStatus.



Lemma all_objects_failed_throws_job_failed_witness :
  let options := mkOptions 300 false in
  let st := Sample.failedWith [Sample.brokenPriceBook] in
  let client := Sample.answering st "job-7" in
  0 - 0 <= timeout options * 1000
  /\ snd (JobManager.reply (client 0%nat)) = Returned st
  /\ JsString.toLowerCase (js_status st) = "failed"
  /\ (forall o, In o (objectsOf st) ->
        JobManager.isCompleted o = false /\ JobManager.isNoRecords o = false)
  /\ exists e,
       JobManager.ended
         (JobManager.loop "Export" (JobManager.exportOnStatus "job-7" options)
            options client 0 1 0 0)
       = JobManager.Failed e
       /\ message e = "Job failed".
Proof.
  cbv zeta.
  assert (H1 : 0 - 0 <= timeout (mkOptions 300 false) * 1000) by (simpl; lia).
  assert (H4 : forall o,
             In o (objectsOf (Sample.failedWith [Sample.brokenPriceBook])) ->
             JobManager.isCompleted o = false /\ JobManager.isNoRecords o = false).
  { intros o [<- | []]. split; reflexivity. }
  split; [exact H1|]. split; [reflexivity|]. split; [reflexivity|].
  split; [exact H4|].
  exact (all_objects_failed_throws_job_failed
           "job-7" (mkOptions 300 false)
           (Sample.answering (Sample.failedWith [Sample.brokenPriceBook]) "job-7")
           0 0 0 0 (Sample.failedWith [Sample.brokenPriceBook])
           H1 eq_refl eq_refl H4).
Defined.

(** C4 as stated fails: for the job [job-7], whose only object is a real
    failure, the poller throws, and the message thrown does not contain the
    job id. *)
Lemma job_failed_message_lacks_job_id :
  let options := mkOptions 300 false in
  let st := Sample.failedWith [Sample.brokenPriceBook] in
  let r := JobManager.waitForExportCompletion "job-7" (Sample.answering st)
             options 0 1 in
  JsString.toLowerCase (js_status st) = "failed"
  /\ (forall o, In o (objectsOf st) ->
        JobManager.isCompleted o = false /\ JobManager.isNoRecords o = false)
  /\ JobManager.ended r = JobManager.Failed (mkError "Job failed" None)
  /\ JsString.includes "Job failed" "job-7" = false.
Proof.
  cbv zeta. split; [reflexivity|]. split.
  - intros o [<- | []]. split; reflexivity.
  - split; reflexivity.
Qed.

(** *** C6: casing of the status *)

Section Casing.

Import JobManager.

Variable jobId : string.
Variable options : Options.
Variable st : JobStatus.

Lemma export_verdict_by_lowercase s s' :
  JsString.toLowerCase s' = JsString.toLowerCase s ->
  verdictOf (exportOnStatus jobId options (withStatus st s'))
  = verdictOf (exportOnStatus jobId options (withStatus st s)).
Proof.
  intros E. unfold exportOnStatus, verdictOf. simpl js_status. rewrite E.
  destruct (_ || _)%bool; [reflexivity|].
  destruct (_ =? "failed")%string; [|reflexivity].
  unfold completedObjects, noRecordsObjects, filterObjects. simpl objects.
  destruct (_ || _)%bool; reflexivity.
Qed.

Lemma import_verdict_by_lowercase s s' :
  JsString.toLowerCase s' = JsString.toLowerCase s ->
  verdictOf (importOnStatus jobId options (withStatus st s'))
  = verdictOf (importOnStatus jobId options (withStatus st s)).
Proof.
  intros E. unfold importOnStatus, verdictOf. simpl js_status. rewrite E.
  destruct (_ || _)%bool; [reflexivity|].
  destruct (_ =? "failed")%string.
  - simpl importJobs. destruct (JsString.some _ _); reflexivity.
  - destruct (_ =? "partialcompleted")%string; reflexivity.
Qed.

(** C6, as the code has it.  Both pollers look at the status in lower
    case only: two spellings that agree in lower case get the same
    verdict.  Any casing of [completed] or [succeeded] ends either poller
    with the status handed back; any casing of [failed] ends either poller
    (the status handed back or an error thrown); any casing of
    [partialcompleted] ends the import poller with the status handed back,
    while the export poller, which has no such terminal state, goes on
    polling after five seconds. *)
Theorem terminal_status_ignores_case :
  forall s : string,
    let low := JsString.toLowerCase s in
    let exported := exportOnStatus jobId options (withStatus st s) in
    let imported := importOnStatus jobId options (withStatus st s) in
    (forall s', JsString.toLowerCase s' = low ->
        verdictOf (exportOnStatus jobId options (withStatus st s'))
        = verdictOf exported
        /\ verdictOf (importOnStatus jobId options (withStatus st s'))
           = verdictOf imported)
    /\ (low = "completed" \/ low = "succeeded" ->
        snd exported = Return (withStatus st s)
        /\ snd imported = Return (withStatus st s))
    /\ (low = "failed" ->
        (verdictOf exported = Resolves \/ verdictOf exported = Throws)
        /\ (verdictOf imported = Resolves \/ verdictOf imported = Throws))
    /\ (low = "partialcompleted" ->
        snd imported = Return (withStatus st s)
        /\ snd exported = Sleep 5000).
Proof.
  intros s. cbv zeta.
  split; [|split; [|split]].
  - intros s' E. split.
    + apply export_verdict_by_lowercase. exact E.
    + apply import_verdict_by_lowercase. exact E.
  - intros H. unfold exportOnStatus, importOnStatus. simpl js_status.
    destruct H as [-> | ->]; split; reflexivity.
  - intros H. unfold exportOnStatus, importOnStatus, verdictOf.
    simpl js_status. rewrite H. simpl.
    split.
    + destruct (_ || _)%bool; [left | right]; reflexivity.
    + destruct (JsString.some _ _); [left | right]; reflexivity.
  - intros H. unfold exportOnStatus, importOnStatus. simpl js_status.
    rewrite H. split; reflexivity.
Qed.

End Casing.

(** C6 as stated fails for the export poller: [PartialCompleted] ends the
    import poller, and in the export poller it is no terminal state at
    all, the loop waits and asks again. *)
Lemma export_poller_does_not_stop_on_partialcompleted :
  let st := withStatus Sample.processingStatus "PartialCompleted" in
  verdictOf (JobManager.importOnStatus "job-1" (mkOptions 300 false) st)
  = Resolves
  /\ verdictOf (JobManager.exportOnStatus "job-1" (mkOptions 300 false) st)
     = KeepsPolling
  /\ JobManager.ended
       (JobManager.waitForExportCompletion "job-1" (Sample.answering st)
          (mkOptions 10 false) 0 5)
     = JobManager.TimedOut (mkError "Export job timed out after 10 seconds" None).
Proof.
  cbv zeta. split; [reflexivity|]. split; [reflexivity|]. vm_compute. reflexivity.
Qed.

(** *** C7: a 404 answer to the status request *)

(** [ApiClient.get] never throws: it returns the data or ends the process. *)
Lemma ApiClient_get_returns_or_exits {A} (endpoint : string)
      (r : ApiClient.AxiosResult A) :
  (exists data, r = inl data /\ ApiClient.get endpoint r = ([], Returned data))
  \/ (exists e, r = inr e /\ snd (ApiClient.get endpoint r) = Exited 1).
Proof.
  destruct r as [data|e]; [left; exists data | right; exists e]; split; reflexivity.
Qed.

(** The [catch] of the poller does retry a 404 that reaches it. *)
Lemma poller_retries_a_thrown_404 kind onStatus e r :
  response e = Some r -> http_status r = 404 ->
  JobManager.react kind onStatus (Threw e)
  = ([(Warning, kind ++ " job not found yet, waiting...")], JobManager.Sleep 2000).
Proof.
  intros Hr Hs. simpl. unfold JobManager.onError. rewrite Hr, Hs. reflexivity.
Qed.

(** Whatever the rejection, a status request sent through [ApiClient]
    ends the process, and the poller with it. *)
Lemma rejected_status_request_ends_process jobId axios options startTime fuel :
  0 <= timeout options ->
  (exists e, snd (fst (axios 0%nat)) = inr e) ->
  JobManager.ended
    (JobManager.waitForExportCompletion jobId (JobManager.viaApiClient axios)
       options startTime (S fuel))
  = JobManager.ProcessExit 1.
Proof.
  intros Ht [e He].
  unfold JobManager.waitForExportCompletion. rewrite ended_addLog.
  rewrite loop_in_time.
  2:{ unfold JobManager.timedOut. apply Z.ltb_ge. lia. }
  cbv zeta. rewrite ended_addRequest, ended_addLog.
  unfold JobManager.viaApiClient.
  destruct (axios 0%nat) as [[lat r] jit]. simpl in He. subst r. reflexivity.
Qed.

(** C7 at the failing input.  The job is not queryable yet and axios
    rejects the status request with a 404 response.  Sent through
    [ApiClient.get], as the program sends it, the first such answer ends
    the process with exit code 1 after a single request; the two-second
    retry of the poller is reached only by a client that throws the 404 to
    its caller, and then it does run until the timeout. *)
Theorem status_404_through_ApiClient_ends_process :
  let options := mkOptions 10 false in
  let viaClient :=
    JobManager.waitForExportCompletion "job-1"
      (JobManager.viaApiClient Sample.notFoundYet) options 0 20 in
  let thrown :=
    JobManager.waitForExportCompletion "job-1" Sample.throwing404 options 0 20 in
  JobManager.ended viaClient = JobManager.ProcessExit 1
  /\ JobManager.requests viaClient = 1%nat
  /\ JobManager.ended thrown
     = JobManager.TimedOut (mkError "Export job timed out after 10 seconds" None)
  /\ JobManager.requests thrown = 5%nat.
Proof.
  cbv zeta. split; [|split; [|split]]; vm_compute; reflexivity.
Qed.

(** *** C8: the multi-file batcher *)

Lemma toLowerCase_truthy s :
  JsString.truthy (JsString.toLowerCase s) = JsString.truthy s.
Proof. destruct s; reflexivity. Qed.

Lemma lookup_in k table v :
  ObjectTypes.lookup k table = Some v -> In v (map snd table).
Proof.
  induction table as [|[k' v'] table IH]; simpl; [discriminate|].
  destruct (k =? k')%string; [intros [= ->]; left; reflexivity | auto].
Qed.

(** Neither [getFormFieldName] ever gives a falsy name for a prefix that is
    not empty: the prefix itself, in lower case, is the fallback. *)
Lemma import_getFormFieldName_truthy objectType :
  JsString.truthy (ImportMetadataCommand.getFormFieldName objectType)
  = JsString.truthy objectType.
Proof.
  unfold ImportMetadataCommand.getFormFieldName.
  destruct (ObjectTypes.lookup _ _) as [v|] eqn:L.
  - assert (T : JsString.truthy (JsString.toLowerCase objectType) = true).
    { destruct objectType; [|reflexivity]. discriminate L. }
    rewrite toLowerCase_truthy in T. rewrite T.
    apply lookup_in in L. simpl in L.
    repeat (destruct L as [<- | L]; [reflexivity|]). destruct L.
  - apply toLowerCase_truthy.
Qed.

Lemma registry_getFormFieldName_truthy objectType :
  JsString.truthy (ObjectTypes.getFormFieldName objectType)
  = JsString.truthy objectType.
Proof.
  unfold ObjectTypes.getFormFieldName, ObjectTypes.getObjectType.
  destruct (ObjectTypes.lookup _ _) as [v|] eqn:L.
  - assert (T : JsString.truthy (JsString.toLowerCase objectType) = true).
    { destruct objectType; [|reflexivity]. discriminate L. }
    rewrite toLowerCase_truthy in T. rewrite T.
    apply lookup_in in L. vm_compute in L.
    repeat (destruct L as [<- | L]; [reflexivity|]). destruct L.
  - apply toLowerCase_truthy.
Qed.

(** So the batcher, given either of them, skips a file exactly when the
    prefix of its name is empty. *)
Lemma batcher_skips_empty_prefix_only getFieldName path :
  (forall t, JsString.truthy (getFieldName t) = JsString.truthy t) ->
  fst (FileUtils.addFile getFieldName path) = []
  <-> Path.prefixBeforeDash (Path.basename path) = "".
Proof.
  intros H. unfold FileUtils.addFile. rewrite H.
  destruct (Path.prefixBeforeDash (Path.basename path)); simpl;
    split; intros E; try reflexivity; discriminate E.
Qed.

(** C8 at the failing input.  The file [foo-123-import.jsonl] carries the
    prefix [foo], which is in neither table.  With either
    [getFormFieldName] the batcher does not skip it: it adds it to the
    request under the field name [foo] and logs no warning.  The warning
    branch is taken for an empty prefix only. *)
Theorem unknown_prefix_is_uploaded_not_skipped :
  let files := ["product-123-import.jsonl"; "foo-123-import.jsonl";
                "-123-import.jsonl"] in
  let expected fieldNames :=
    (map (fun '(field, file) => FileUtils.mkPart field file file) fieldNames,
     [(Info, "Adding product data from product-123-import.jsonl");
      (Info, "Adding foo data from foo-123-import.jsonl");
      (Warning, "Skipping -123-import.jsonl - unknown object type: ")]) in
  ObjectTypes.lookup "foo" ImportMetadataCommand.fieldMap = None
  /\ ObjectTypes.isValidObjectType "foo" = false
  /\ FileUtils.createMultiFileFormData files ImportMetadataCommand.getFormFieldName
     = expected [("product", "product-123-import.jsonl");
                 ("foo", "foo-123-import.jsonl")]
  /\ FileUtils.createMultiFileFormData files ObjectTypes.getFormFieldName
     = expected [("product", "product-123-import.jsonl");
                 ("foo", "foo-123-import.jsonl")].
Proof.
  cbv zeta. split; [|split; [|split]]; vm_compute; reflexivity.
Qed.

(** ** The downloader *)

(** *** Strings: appending, plain names *)

Lemma string_length_append (a b : string) :
  String.length (a ++ b) = (String.length a + String.length b)%nat.
Proof. induction a as [|c a IH]; simpl; [reflexivity | rewrite IH; reflexivity]. Qed.

Lemma string_app_inv_tail (a b s : string) : a ++ s = b ++ s -> a = b.
Proof.
  revert b. induction a as [|c a IH]; intros [|d b] H; simpl in H.
  - reflexivity.
  - apply (f_equal String.length) in H. simpl in H.
    rewrite string_length_append in H. lia.
  - apply (f_equal String.length) in H. simpl in H.
    rewrite string_length_append in H. lia.
  - inversion H. f_equal. apply IH. assumption.
Qed.

Lemma string_app_inv_head (s a b : string) : s ++ a = s ++ b -> a = b.
Proof.
  induction s as [|c s IH]; simpl; intros H; [exact H|].
  inversion H. apply IH. assumption.
Qed.

Lemma string_app_assoc (a b c : string) : (a ++ b) ++ c = a ++ (b ++ c).
Proof. induction a as [|x a IH]; simpl; [reflexivity | rewrite IH; reflexivity]. Qed.

Lemma split_nonempty c s : exists p ps, JsString.split c s = p :: ps.
Proof.
  induction s as [|x s [p [ps IH]]]; simpl.
  - eexists; eexists; reflexivity.
  - destruct (Ascii.eqb x c); [eexists; eexists; reflexivity|].
    rewrite IH. eexists; eexists; reflexivity.
Qed.

Lemma split_at_separator c a b :
  JsString.split c (a ++ String c b)
  = (JsString.split c a ++ JsString.split c b)%list.
Proof.
  induction a as [|x a IH]; simpl.
  - rewrite Ascii.eqb_refl. reflexivity.
  - destruct (Ascii.eqb x c); [rewrite IH; reflexivity|].
    rewrite IH. destruct (split_nonempty c a) as [p [ps ->]]. reflexivity.
Qed.

Lemma string_app_nil_r (s : string) : s ++ "" = s.
Proof. induction s as [|c s IH]; simpl; [reflexivity | rewrite IH; reflexivity]. Qed.

Lemma truthy_append_r (a b : string) :
  JsString.truthy b = true -> JsString.truthy (a ++ b) = true.
Proof. destruct a; simpl; [intros H; exact H | reflexivity]. Qed.

Lemma prefix_empty (s : string) : String.prefix "" s = true.
Proof. destruct s; reflexivity. Qed.

Lemma includes_char_append (a b : string) (c : ascii) :
  JsString.includes (a ++ b) (String c "")
  = JsString.includes a (String c "") || JsString.includes b (String c "").
Proof.
  induction a as [|x a IH]; simpl.
  - destruct b; reflexivity.
  - rewrite IH, !prefix_empty. destruct (ascii_dec c x); reflexivity.
Qed.

Lemma plainName_append (a b : string) :
  Path.plainName (a ++ b) = Path.plainName a && Path.plainName b.
Proof.
  unfold Path.plainName. rewrite includes_char_append. apply negb_orb.
Qed.

Lemma lowerChar_slash (x : ascii) (r r' : string) :
  String.prefix "/" (String (JsString.lowerChar x) r)
  = String.prefix "/" (String x r').
Proof.
  destruct x as [[] [] [] [] [] [] [] []]; simpl;
    rewrite ?prefix_empty; reflexivity.
Qed.

Lemma plainName_toLowerCase (s : string) :
  Path.plainName (JsString.toLowerCase s) = Path.plainName s.
Proof.
  unfold Path.plainName. f_equal.
  induction s as [|x s IH]; [reflexivity|].
  cbn [JsString.includes JsString.toLowerCase].
  rewrite IH, (lowerChar_slash x (JsString.toLowerCase s) s). reflexivity.
Qed.

Lemma NoDup_map_by {A B C} (f : A -> B) (g : A -> C) (l : list A) :
  (forall a b, In a l -> In b l -> f a = f b -> g a = g b) ->
  NoDup (map g l) -> NoDup (map f l).
Proof.
  induction l as [|x l IH]; intros Hinj Hnd; simpl; [constructor|].
  inversion Hnd as [|? ? Hx Hl]; subst.
  constructor.
  - intros Hin. apply in_map_iff in Hin. destruct Hin as [y [Hy Hyl]].
    apply Hx. apply in_map_iff. exists y. split; [|exact Hyl].
    apply Hinj; [right; exact Hyl | left; reflexivity | exact Hy].
  - apply IH; [|exact Hl]. intros a b Ha Hb. apply Hinj; right; assumption.
Qed.

(** *** What a visit leaves behind *)

Section Downloader.

Import ExportStrategy.

Variable P : Path.api.
Variable downloadFile : string -> outcome string.
Variable o : options.

Lemma writes_app (a b : list event) : writes (a ++ b) = (writes a ++ writes b)%list.
Proof.
  induction a as [|e a IH]; simpl; [reflexivity|].
  destruct e; simpl; rewrite IH; reflexivity.
Qed.

Lemma fetches_app (a b : list event) :
  fetches (a ++ b) = (fetches a ++ fetches b)%list.
Proof.
  induction a as [|e a IH]; simpl; [reflexivity|].
  destruct e; simpl; rewrite IH; reflexivity.
Qed.

Lemma writes_writeOutput data path :
  writes (writeOutput data path)
  = match path with
    | Some p => if JsString.truthy p then [(p, data)] else []
    | None => []
    end.
Proof.
  unfold writeOutput. destruct path as [p|]; [|reflexivity].
  destruct (JsString.truthy p); reflexivity.
Qed.

Lemma fetches_writeOutput data path : fetches (writeOutput data path) = [].
Proof.
  unfold writeOutput. destruct path as [p|]; [|reflexivity].
  destruct (JsString.truthy p); reflexivity.
Qed.

(** Only a wanted object that is [Completed] with a file is fetched, and
    only what was fetched is written. *)
Lemma visit_writes b obj :
  writes (fst (visit P downloadFile o b obj))
  = if wanted o obj && completedWithFile obj
    then match firstUrl obj with
         | Some url =>
             match downloadFile url with
             | Returned data => writes (writeOutput data (outputPath P o b obj))
             | _ => []
             end
         | None => []
         end
    else [].
Proof.
  unfold visit.
  destruct (wanted o obj); simpl; [|reflexivity].
  destruct (completedWithFile obj); simpl.
  - destruct (firstUrl obj) as [url|]; [|reflexivity].
    destruct (downloadFile url) as [data|e|code]; simpl; try reflexivity.
    rewrite writes_app. simpl. apply app_nil_r.
  - destruct (status obj =? "Failed")%string.
    + destruct (JobManager.noRecordsPattern obj); reflexivity.
    + destruct (status obj =? "Completed")%string; reflexivity.
Qed.

Lemma visit_fetches b obj :
  fetches (fst (visit P downloadFile o b obj))
  = if wanted o obj && completedWithFile obj
    then match firstUrl obj with Some url => [url] | None => [] end
    else [].
Proof.
  unfold visit.
  destruct (wanted o obj); simpl; [|reflexivity].
  destruct (completedWithFile obj); simpl.
  - destruct (firstUrl obj) as [url|]; [|reflexivity].
    destruct (downloadFile url) as [data|e|code]; simpl; try reflexivity.
    rewrite fetches_app, fetches_writeOutput. reflexivity.
  - destruct (status obj =? "Failed")%string.
    + destruct (JobManager.noRecordsPattern obj); reflexivity.
    + destruct (status obj =? "Completed")%string; reflexivity.
Qed.

Lemma visitAll_cons b obj rest :
  fst (visitAll P downloadFile o b (obj :: rest))
  = (fst (visit P downloadFile o b obj)
     ++ match snd (visit P downloadFile o b obj) with
        | Some _ => []
        | None => fst (visitAll P downloadFile o b rest)
        end)%list.
Proof.
  simpl. destruct (visit P downloadFile o b obj) as [ev [code|]]; simpl.
  - symmetry. apply app_nil_r.
  - destruct (visitAll P downloadFile o b rest). reflexivity.
Qed.

Lemma visitAll_fetched b objs url :
  In url (fetches (fst (visitAll P downloadFile o b objs))) ->
  exists obj, In obj objs /\ wanted o obj = true
              /\ completedWithFile obj = true /\ firstUrl obj = Some url.
Proof.
  induction objs as [|obj rest IH]; [intros []|].
  rewrite visitAll_cons, fetches_app. intros H.
  apply in_app_or in H. destruct H as [H|H].
  - rewrite visit_fetches in H.
    destruct (wanted o obj) eqn:W, (completedWithFile obj) eqn:C;
      simpl in H; try contradiction.
    destruct (firstUrl obj) as [u|] eqn:U; [|contradiction].
    destruct H as [<- | []].
    exists obj. repeat split; auto. left; reflexivity.
  - destruct (snd (visit P downloadFile o b obj)); [contradiction|].
    destruct (IH H) as [x [Hin Hx]]. exists x. split; [right; exact Hin | exact Hx].
Qed.

Lemma visitAll_written b objs path data :
  In (path, data) (writes (fst (visitAll P downloadFile o b objs))) ->
  exists obj url,
    In obj objs /\ wanted o obj = true /\ completedWithFile obj = true
    /\ firstUrl obj = Some url /\ downloadFile url = Returned data
    /\ outputPath P o b obj = Some path.
Proof.
  induction objs as [|obj rest IH]; [intros []|].
  rewrite visitAll_cons, writes_app. intros H.
  apply in_app_or in H. destruct H as [H|H].
  - rewrite visit_writes in H.
    destruct (wanted o obj) eqn:W, (completedWithFile obj) eqn:C;
      simpl in H; try contradiction.
    destruct (firstUrl obj) as [u|] eqn:U; [|contradiction].
    destruct (downloadFile u) as [d|e|code] eqn:D; try contradiction.
    rewrite writes_writeOutput in H.
    destruct (outputPath P o b obj) as [p|] eqn:O; [|contradiction].
    destruct (JsString.truthy p); [|contradiction].
    destruct H as [[= <- <-] | []].
    exists obj, u. repeat split; auto. left; reflexivity.
  - destruct (snd (visit P downloadFile o b obj)); [contradiction|].
    destruct (IH H) as [x [u [Hin Hx]]]. exists x, u.
    split; [right; exact Hin | exact Hx].
Qed.

(** *** C10: objects named [Usage] *)

Lemma filter_notUsage_drop pre u post :
  name u = "Usage" ->
  filter notUsage (pre ++ u :: post)%list = filter notUsage (pre ++ post)%list.
Proof.
  intros Hu. rewrite !filter_app. simpl.
  unfold notUsage at 2. rewrite Hu. reflexivity.
Qed.

(** C10.  An object whose name is exactly [Usage] is taken out before the
    downloader decides anything: with it or without it in the status the
    downloader does, logs, fetches and writes the same (nothing at all
    when no other object is there), whatever its status, its file URLs and
    the requested type; and every URL fetched and every file written
    belongs to an object of the status that is not named [Usage]. *)
Theorem usage_objects_are_never_downloaded :
  forall (st : JobStatus) (pre post : list JobObject) (u : JobObject),
    name u = "Usage" ->
    downloadResults P downloadFile o (withObjects st (pre ++ u :: post)%list)
    = match (pre ++ post)%list with
      | [] => ([], None)
      | _ => downloadResults P downloadFile o (withObjects st (pre ++ post)%list)
      end
    /\ (forall url,
          In url (fetches (fst (downloadResults P downloadFile o
                                  (withObjects st (pre ++ u :: post)%list)))) ->
          exists obj, In obj (pre ++ post)%list /\ name obj <> "Usage"
                      /\ firstUrl obj = Some url)
    /\ (forall path data,
          In (path, data)
             (writes (fst (downloadResults P downloadFile o
                             (withObjects st (pre ++ u :: post)%list)))) ->
          exists obj url, In obj (pre ++ post)%list /\ name obj <> "Usage"
                          /\ firstUrl obj = Some url
                          /\ downloadFile url = Returned data).
Proof.
  intros st pre post u Hu.
  assert (E : downloadResults P downloadFile o (withObjects st (pre ++ u :: post)%list)
              = visitAll P downloadFile o
                  (1 <? length (filter completedWithFile
                                  (filter notUsage (pre ++ post)%list)))%nat
                  (filter notUsage (pre ++ post)%list)).
  { unfold downloadResults. simpl objects.
    destruct (pre ++ u :: post)%list eqn:L.
    - destruct pre; discriminate L.
    - rewrite <- L, filter_notUsage_drop by exact Hu. reflexivity. }
  assert (K : forall obj, In obj (filter notUsage (pre ++ post)%list) ->
                          In obj (pre ++ post)%list /\ name obj <> "Usage").
  { intros obj Hin. apply filter_In in Hin. destruct Hin as [Hin Hn].
    split; [exact Hin|]. intros Hname. unfold notUsage in Hn.
    rewrite Hname in Hn. discriminate Hn. }
  split; [|split].
  - rewrite E. unfold downloadResults. simpl objects.
    destruct (pre ++ post)%list; reflexivity.
  - intros url Hin. rewrite E in Hin.
    apply visitAll_fetched in Hin. destruct Hin as [obj [Hin [_ [_ Hurl]]]].
    destruct (K obj Hin) as [H1 H2]. exists obj. auto.
  - intros path data Hin. rewrite E in Hin.
    apply visitAll_written in Hin.
    destruct Hin as [obj [url [Hin [_ [_ [Hurl [Hd _]]]]]]].
    destruct (K obj Hin) as [H1 H2]. exists obj, url. auto.
Qed.

End Downloader.

Lemma usage_objects_are_never_downloaded_witness :
  let o := ExportStrategy.mkOptions (Some "usage") None (Some "job-9") in
  name Sample.usage = "Usage"
  /\ ExportStrategy.downloadResults Path.posix (serving (fun url => url)) o
       (withObjects Sample.processingStatus [Sample.product; Sample.usage])
     = ExportStrategy.downloadResults Path.posix (serving (fun url => url)) o
         (withObjects Sample.processingStatus [Sample.product]).
Proof.
  cbv zeta. split; [reflexivity|].
  exact (proj1 (usage_objects_are_never_downloaded Path.posix
                  (serving (fun url => url))
                  (ExportStrategy.mkOptions (Some "usage") None (Some "job-9"))
                  Sample.processingStatus [Sample.product] [] Sample.usage
                  eq_refl)).
Defined.

(** *** C3: one file per object *)

Lemma filter_and_length {A} (p q : A -> bool) (l : list A) :
  (length (filter (fun x => p x && q x) l) <= length (filter q l))%nat.
Proof.
  induction l as [|x l IH]; simpl; [lia|].
  destruct (p x), (q x); simpl; lia.
Qed.

Section IndividualFiles.

Import ExportStrategy.

Variable P : Path.api.
Variable content : string -> string.
Variables (requestedType outputFile : option string) (id : string).
Variable st : JobStatus.
Variable objs : list JobObject.

(** The options carry the job id. *)
Hypothesis job_known : JsString.truthy id = true.

Let o : options := mkOptions requestedType outputFile (Some id).

(** The objects the claim speaks of, [Usage] apart: wanted, [Completed],
    with a file. *)
Let selected : list JobObject :=
  filter (fun obj => wanted o obj && completedWithFile obj)
         (filter notUsage objs).

(** The directory part: that of the requested output path, if any. *)
Let inDir (file : string) : string :=
  match outputFile with
  | Some out =>
      if JsString.truthy out then Path.join P (Path.dirname P out) file else file
  | None => file
  end.

Let urlOf (obj : JobObject) : string :=
  match firstUrl obj with Some url => url | None => "" end.

Hypothesis join_keeps_names : Path.joinKeepsNames P.
Hypothesis join_names :
  forall dir f, JsString.truthy f = true ->
                JsString.truthy (Path.join P dir f) = true.
Hypothesis plain_names :
  forall obj, In obj selected -> Path.plainName (individualName P o obj) = true.
Hypothesis names_differ :
  NoDup (map (fun obj => JsString.toLowerCase (name obj)) selected).
Hypothesis several : (2 <= length selected)%nat.

Lemma individualName_truthy obj : JsString.truthy (individualName P o obj) = true.
Proof.
  unfold individualName. apply truthy_append_r. reflexivity.
Qed.

Lemma outputPath_individual obj :
  outputPath P o true obj = Some (inDir (individualName P o obj))
  /\ JsString.truthy (inDir (individualName P o obj)) = true.
Proof.
  pose proof (individualName_truthy obj) as T.
  unfold outputPath, inDir. simpl output.
  generalize dependent (individualName P o obj). intros file T.
  destruct outputFile as [out|]; [|split; [reflexivity | exact T]].
  destruct (JsString.truthy out).
  - split; [reflexivity | apply join_names; exact T].
  - split; [reflexivity | exact T].
Qed.

Lemma serving_never_exits b obj :
  snd (visit P (serving content) o b obj) = None.
Proof.
  unfold visit, serving.
  destruct (wanted o obj); simpl; [|reflexivity].
  destruct (completedWithFile obj).
  - destruct (firstUrl obj); reflexivity.
  - destruct (status obj =? "Failed")%string.
    + destruct (JobManager.noRecordsPattern obj); reflexivity.
    + destruct (status obj =? "Completed")%string; reflexivity.
Qed.

Lemma visitAll_serving_no_exit b l :
  snd (visitAll P (serving content) o b l) = None.
Proof.
  induction l as [|obj rest IH]; [reflexivity|]. simpl.
  pose proof (serving_never_exits b obj) as E.
  destruct (visit P (serving content) o b obj) as [ev [code|]];
    [discriminate E|].
  destruct (visitAll P (serving content) o b rest). exact IH.
Qed.

Lemma visitAll_individual_writes l :
  writes (fst (visitAll P (serving content) o true l))
  = map (fun obj => (inDir (individualName P o obj), content (urlOf obj)))
        (filter (fun obj => wanted o obj && completedWithFile obj) l).
Proof.
  induction l as [|obj rest IH]; [reflexivity|].
  rewrite visitAll_cons, writes_app, serving_never_exits, IH, visit_writes.
  simpl filter.
  destruct (wanted o obj && completedWithFile obj) eqn:S; [|reflexivity].
  apply andb_prop in S. destruct S as [_ C].
  unfold completedWithFile in C. apply andb_prop in C. destruct C as [_ C].
  cbn [map].
  destruct (firstUrl obj) as [url|] eqn:U; [|discriminate C].
  unfold serving at 1. rewrite writes_writeOutput.
  destruct (outputPath_individual obj) as [-> ->].
  unfold urlOf. rewrite U. reflexivity.
Qed.

(** The name of an individual file holds a dash: it is not empty and is
    neither [.] nor [..]. *)
Lemma individualName_proper obj :
  Path.plainName (individualName P o obj) = true ->
  Path.properName (individualName P o obj) = true.
Proof.
  intros Pl. unfold Path.properName.
  rewrite Pl, individualName_truthy. cbn [andb].
  assert (D : JsString.includes (individualName P o obj) "-" = true).
  { unfold individualName. rewrite includes_char_append.
    change ("-" ++ orElse (jobId o) "unknown"
              ++ (if JsString.truthy
                       match output o with
                       | Some out =>
                           if JsString.truthy out then Path.extname P out
                           else ".jsonl"
                       | None => ".jsonl"
                       end
                  then match output o with
                       | Some out =>
                           if JsString.truthy out then Path.extname P out
                           else ".jsonl"
                       | None => ".jsonl"
                       end
                  else ".jsonl"))
      with (String "-" (orElse (jobId o) "unknown"
              ++ (if JsString.truthy
                       match output o with
                       | Some out =>
                           if JsString.truthy out then Path.extname P out
                           else ".jsonl"
                       | None => ".jsonl"
                       end
                  then match output o with
                       | Some out =>
                           if JsString.truthy out then Path.extname P out
                           else ".jsonl"
                       | None => ".jsonl"
                       end
                  else ".jsonl"))).
    cbn [JsString.includes String.prefix].
    destruct (ascii_dec "-" "-") as [_|N]; [|contradiction].
    rewrite prefix_empty. apply orb_true_r. }
  destruct (String.eqb_spec (individualName P o obj) ".") as [E|_];
    [rewrite E in D; discriminate D|].
  destruct (String.eqb_spec (individualName P o obj) "..") as [E|_];
    [rewrite E in D; discriminate D|].
  reflexivity.
Qed.

Lemma individual_paths_differ a b :
  In a selected -> In b selected ->
  inDir (individualName P o a) = inDir (individualName P o b) ->
  JsString.toLowerCase (name a) = JsString.toLowerCase (name b).
Proof.
  intros Ha Hb H.
  assert (E : individualName P o a = individualName P o b).
  { pose proof (individualName_proper a (plain_names a Ha)) as Pa.
    pose proof (individualName_proper b (plain_names b Hb)) as Pb.
    unfold inDir in H.
    generalize dependent (individualName P o a).
    generalize dependent (individualName P o b). intros fb Pb fa H Pa.
    destruct outputFile as [out|]; [|exact H].
    destruct (JsString.truthy out); [|exact H].
    apply (join_keeps_names (Path.dirname P out)); assumption. }
  unfold individualName in E. apply string_app_inv_tail in E. exact E.
Qed.


End IndividualFiles.

(** *** [path.join] and the names of files *)


Lemma split_plain f : Path.plainName f = true -> Path.segments f = [f].
Proof.
  unfold Path.plainName, Path.segments. intros H. apply negb_true_iff in H.
  induction f as [|x f IH]; [reflexivity|].
  cbn [JsString.includes String.prefix JsString.split] in *.
  apply orb_false_elim in H. destruct H as [H1 H2].
  destruct (Ascii.eqb_spec x "/") as [E|E].
  - subst x. simpl in H1. rewrite prefix_empty in H1. discriminate H1.
  - rewrite (IH H2). reflexivity.
Qed.

Lemma properName_inv f :
  Path.properName f = true ->
  Path.plainName f = true /\ JsString.truthy f = true
  /\ (f =? "")%string = false /\ (f =? ".")%string = false
  /\ (f =? "..")%string = false.
Proof.
  unfold Path.properName. intros H.
  apply andb_prop in H. destruct H as [H D2].
  apply andb_prop in H. destruct H as [H D1].
  apply andb_prop in H. destruct H as [P T].
  apply negb_true_iff in D1, D2.
  repeat split; try assumption. destruct f; [discriminate T | reflexivity].
Qed.

Lemma keep_proper allow kept f :
  Path.properName f = true -> Path.keep allow kept f = f :: kept.
Proof.
  intros H. destruct (properName_inv f H) as [_ [_ [E [D1 D2]]]].
  unfold Path.keep. rewrite E, D1, D2. reflexivity.
Qed.

Lemma concat_snoc sep (l : list string) x :
  String.concat sep (l ++ [x])
  = match l with
    | [] => x
    | _ => String.concat sep l ++ sep ++ x
    end.
Proof.
  induction l as [|a l IH]; [reflexivity|].
  destruct l as [|b l]; [reflexivity|].
  change ((a :: b :: l) ++ [x])%list with (a :: ((b :: l) ++ [x]))%list.
  cbn [String.concat app] in *. rewrite IH.
  rewrite !string_app_assoc. reflexivity.
Qed.

Lemma plain_not_slash c f :
  Path.plainName (String c f) = true -> Path.isSlash c = false.
Proof.
  unfold Path.plainName, Path.isSlash. intros H. apply negb_true_iff in H.
  cbn [JsString.includes String.prefix] in H.
  apply orb_false_elim in H. destruct H as [H _].
  destruct (Ascii.eqb_spec c "/") as [E|E]; [|reflexivity].
  subst c. simpl in H. rewrite prefix_empty in H. discriminate H.
Qed.

(** Joining a name proper to a directory puts the name, as it is, after
    what the directory alone decides. *)
Lemma posixJoin_proper dir :
  exists base, forall f,
    Path.properName f = true -> Path.posixJoin dir f = base ++ f.
Proof.
  destruct dir as [|d dr].
  - exists "". intros f H.
    destruct (properName_inv f H) as [P [T _]].
    unfold Path.posixJoin. cbn [JsString.truthy].
    destruct f as [|c f]; [discriminate T|].
    unfold Path.posixNormalize, Path.normalizeString.
    rewrite (split_plain _ P). cbn [fold_left last].
    rewrite (keep_proper _ _ _ H). cbn [rev app JsString.join String.concat].
    rewrite (plain_not_slash c f P). cbn [JsString.truthy negb].
    cbn [append]. rewrite string_app_nil_r. reflexivity.
  - exists ((if Path.isSlash d then "/" else "")
            ++ match rev (fold_left (Path.keep (negb (Path.isSlash d)))
                            (Path.segments (String d dr)) []) with
               | [] => ""
               | _ => String.concat "/"
                        (rev (fold_left (Path.keep (negb (Path.isSlash d)))
                                (Path.segments (String d dr)) [])) ++ "/"
               end).
    intros f H. destruct (properName_inv f H) as [P [T _]].
    unfold Path.posixJoin. cbn [JsString.truthy]. rewrite T.
    change (String d dr ++ "/" ++ f) with (String d (dr ++ String "/" f)).
    unfold Path.posixNormalize, Path.normalizeString.
    assert (S : Path.segments (String d (dr ++ String "/" f))
                = (Path.segments (String d dr) ++ [f])%list).
    { change (String d (dr ++ String "/" f)) with (String d dr ++ String "/" f).
      unfold Path.segments. rewrite split_at_separator.
      change (JsString.split "/" f) with (Path.segments f).
      rewrite (split_plain f P). reflexivity. }
    rewrite S, fold_left_app. cbn [fold_left].
    generalize (fold_left (Path.keep (negb (Path.isSlash d)))
                  (Path.segments (String d dr)) []). intros K.
    rewrite (keep_proper _ _ _ H). cbn [rev].
    rewrite last_last, T. cbn [negb].
    unfold JsString.join. rewrite concat_snoc.
    assert (E : match rev K with
                | [] => f
                | _ :: _ => String.concat "/" (rev K) ++ "/" ++ f
                end
                = match rev K with
                  | [] => ""
                  | _ :: _ => String.concat "/" (rev K) ++ "/"
                  end ++ f).
    { destruct (rev K); [reflexivity|]. rewrite string_app_assoc. reflexivity. }
    rewrite E.
    rewrite (truthy_append_r _ f T).
    rewrite string_app_nil_r, string_app_assoc. reflexivity.
Qed.

Lemma posix_join_keeps_names : Path.joinKeepsNames Path.posix.
Proof.
  intros dir f g Hf Hg. simpl.
  destruct (posixJoin_proper dir) as [base B].
  rewrite (B f Hf), (B g Hg). apply string_app_inv_head.
Qed.

Lemma posixNormalize_truthy p : JsString.truthy (Path.posixNormalize p) = true.
Proof.
  unfold Path.posixNormalize. destruct p as [|c r]; [reflexivity|].
  destruct (Path.normalizeString (String c r) (negb (Path.isSlash c)))
    as [|x n]; cbn [JsString.truthy].
  - destruct (Path.isSlash c); [reflexivity|].
    destruct (negb _); reflexivity.
  - destruct (Path.isSlash c); reflexivity.
Qed.

Lemma posix_join_names dir f :
  JsString.truthy f = true -> JsString.truthy (Path.join Path.posix dir f) = true.
Proof. intros _. apply posixNormalize_truthy. Qed.



(** ** Numbers: what is printed is read back *)

Section Rounding.

Import Number JsonFacts.

Lemma nearest_bounds N D :
  0 < D -> N / D <= nearest N D <= N / D + 1.
Proof.
  intros HD. unfold nearest.
  destruct (2 * (N mod D) <? D); [lia|].
  destruct (D <? 2 * (N mod D)); [lia|].
  destruct (Z.even (N / D)); lia.
Qed.

Lemma nearest_exact m D : 0 < D -> nearest (m * D) D = m.
Proof.
  intros HD. unfold nearest.
  rewrite Z.div_mul by lia. rewrite Z.mod_mul by lia.
  destruct (2 * 0 <? D) eqn:E; [reflexivity|].
  apply Z.ltb_ge in E. lia.
Qed.

Lemma pow2_pos k : 0 < 2 ^ k \/ k < 0.
Proof. destruct (Z_lt_le_dec k 0); [right; lia | left; apply Z.pow_pos_nonneg; lia]. Qed.

Lemma roundFraction_canonical neg num den :
  0 < num -> 0 < den -> canonical (roundFraction neg num den).
Proof.
  intros Hn Hd. unfold roundFraction.
  set (N0 := num * 2 ^ 1074).
  assert (HN : 0 < N0) by (unfold N0; apply Z.mul_pos_pos; [lia | reflexivity || (apply Z.pow_pos_nonneg; lia)]).
  set (q := N0 / den).
  assert (Hq : 0 <= q) by (unfold q; apply Z.div_pos; lia).
  destruct (q <? 2 ^ 52) eqn:B.
  - apply Z.ltb_lt in B. simpl.
    pose proof (nearest_bounds N0 den Hd) as [L U]. fold q in L, U.
    assert (P53 : 2 ^ 53 = 2 * 2 ^ 52) by reflexivity.
    split; [lia|]. split; [lia|]. right. reflexivity.
  - apply Z.ltb_ge in B.
    assert (T52 : 0 < 2 ^ 52) by reflexivity.
    assert (Hq0 : 0 < q) by lia.
    pose proof (Z.log2_spec q Hq0) as [L2 U2].
    assert (L52 : 52 <= Z.log2 q).
    { apply Z.log2_le_pow2; lia. }
    set (shift := Z.log2 q - 52) in *.
    assert (Hs : 0 <= shift) by (unfold shift; lia).
    assert (P : 0 < 2 ^ shift) by (apply Z.pow_pos_nonneg; lia).
    assert (Q : N0 / (den * 2 ^ shift) = q / 2 ^ shift).
    { unfold q. rewrite Z.div_div by lia. reflexivity. }
    assert (E1 : 2 ^ Z.log2 q = 2 ^ shift * 2 ^ 52).
    { rewrite <- Z.pow_add_r by lia. f_equal. unfold shift. lia. }
    assert (E2 : 2 ^ Z.succ (Z.log2 q) = 2 ^ shift * 2 ^ 53).
    { rewrite <- Z.pow_add_r by lia. f_equal. unfold shift. lia. }
    assert (Lo : 2 ^ 52 <= q / 2 ^ shift).
    { apply Z.div_le_lower_bound; lia. }
    assert (Hi : q / 2 ^ shift < 2 ^ 53).
    { apply Z.div_lt_upper_bound; lia. }
    pose proof (nearest_bounds N0 (den * 2 ^ shift)
                  ltac:(apply Z.mul_pos_pos; lia)) as [L U].
    rewrite Q in L, U.
    set (m := nearest N0 (den * 2 ^ shift)) in *.
    destruct (m =? 2 ^ 53) eqn:M.
    + destruct (971 <? shift - 1073) eqn:O; [exact I|].
      apply Z.ltb_ge in O. simpl.
      split; [split; [lia | reflexivity]|]. split; [lia|]. left. lia.
    + apply Z.eqb_neq in M.
      destruct (971 <? shift - 1074) eqn:O; [exact I|].
      apply Z.ltb_ge in O. simpl.
      split; [lia|]. split; [lia|]. left. lia.
Qed.

Lemma ofDecimal_canonical neg d p : canonical (ofDecimal neg d p).
Proof.
  unfold ofDecimal.
  destruct (d <=? 0) eqn:D.
  { simpl. split; [split; [lia | reflexivity]|]. split; [lia | right; reflexivity]. }
  apply Z.leb_gt in D.
  destruct (400 <? p); [exact I|].
  destruct (p + Z.log2 d + 1 <? -400).
  { simpl. split; [split; [lia | reflexivity]|]. split; [lia | right; reflexivity]. }
  destruct (0 <=? p) eqn:P.
  - apply Z.leb_le in P. apply roundFraction_canonical; [|lia].
    apply Z.mul_pos_pos; [lia | apply Z.pow_pos_nonneg; lia].
  - apply Z.leb_gt in P. apply roundFraction_canonical; [lia|].
    apply Z.pow_pos_nonneg; lia.
Qed.

Lemma ofDecimal_sign neg d p :
  match ofDecimal neg d p with
  | Finite b _ _ => b = neg
  | Infinite b => b = neg
  end.
Proof.
  unfold ofDecimal, roundFraction, zero.
  repeat match goal with
         | |- context [if ?c then _ else _] => destruct c
         end; reflexivity.
Qed.

(** The sign is carried along and plays no part in the rounding. *)
Lemma ofDecimal_negative neg d p :
  ofDecimal neg d p
  = match ofDecimal false d p with
    | Finite _ m e => Finite neg m e
    | Infinite _ => Infinite neg
    end.
Proof.
  unfold ofDecimal, roundFraction, zero.
  repeat match goal with
         | |- context [if ?c then _ else _] => destruct c
         end; reflexivity.
Qed.

(** A fraction that is a double is rounded to itself. *)
Lemma roundFraction_exact neg num den m e :
  0 < den -> 0 < m -> canonical (Finite neg m e) ->
  num * 2 ^ 1074 = m * 2 ^ (e + 1074) * den ->
  roundFraction neg num den = Finite neg m e.
Proof.
  intros Hd Hm [[_ M53] [[E1 E2] N]] V. unfold roundFraction. rewrite V.
  set (s := e + 1074) in *.
  assert (Hs : 0 <= s) by (unfold s; lia).
  assert (P : 0 < 2 ^ s) by (apply Z.pow_pos_nonneg; lia).
  rewrite Z.div_mul by lia.
  assert (T52 : 0 < 2 ^ 52) by reflexivity.
  destruct (m * 2 ^ s <? 2 ^ 52) eqn:B.
  - apply Z.ltb_lt in B.
    assert (S0 : s = 0).
    { destruct N as [N|N]; [|unfold s; lia].
      assert (m <= m * 2 ^ s) by nia. lia. }
    rewrite S0 in *. change (2 ^ 0) with 1 in *. rewrite Z.mul_1_r.
    rewrite nearest_exact by lia. f_equal. unfold s in S0. lia.
  - apply Z.ltb_ge in B.
    assert (M52 : 2 ^ 52 <= m).
    { destruct N as [N|N]; [exact N|].
      assert (S0 : s = 0) by (unfold s; lia).
      rewrite S0 in B. change (2 ^ 0) with 1 in B. lia. }
    assert (L : Z.log2 (m * 2 ^ s) = s + 52).
    { rewrite Z.log2_mul_pow2 by lia. f_equal.
      apply Z.log2_unique; [lia|]. split; [exact M52|].
      change (2 ^ Z.succ 52) with (2 ^ 53). lia. }
    rewrite L. replace (s + 52 - 52) with s by lia.
    replace (m * 2 ^ s * den) with (m * (den * 2 ^ s)) by ring.
    rewrite nearest_exact by (apply Z.mul_pos_pos; lia).
    assert (M : (m =? 2 ^ 53) = false) by (apply Z.eqb_neq; lia).
    rewrite M.
    assert (O : (971 <? s - 1074) = false) by (apply Z.ltb_ge; unfold s; lia).
    rewrite O. f_equal. unfold s. lia.
Qed.

Lemma log2_exact_digits m k : 0 < m -> 0 <= k -> 2 * k <= Z.log2 (m * 5 ^ k).
Proof.
  intros Hm Hk.
  assert (P : 2 ^ (2 * k) <= m * 5 ^ k).
  { rewrite Z.pow_mul_r by lia. change (2 ^ 2) with 4.
    assert (A : 4 ^ k <= 5 ^ k) by (apply Z.pow_le_mono_l; lia).
    assert (B : 0 < 5 ^ k) by (apply Z.pow_pos_nonneg; lia).
    nia. }
  apply Z.log2_le_pow2; [|exact P].
  apply Z.mul_pos_pos; [lia | apply Z.pow_pos_nonneg; lia].
Qed.

(** The exact decimal of a double is read as that double. *)
Lemma exact_reads m e :
  0 < m -> canonical (Finite false m e) ->
  ofDecimal false (fst (exact m e)) (snd (exact m e)) = Finite false m e.
Proof.
  intros Hm C. pose proof C as [[_ M53] [[E1 E2] N]].
  unfold exact. destruct (0 <=? e) eqn:E.
  - apply Z.leb_le in E. cbn [fst snd]. unfold ofDecimal.
    assert (P : 0 < 2 ^ e) by (apply Z.pow_pos_nonneg; lia).
    assert (D : (m * 2 ^ e <=? 0) = false) by (apply Z.leb_gt; nia).
    rewrite D. change (400 <? 0) with false. cbv iota.
    assert (L : (0 + Z.log2 (m * 2 ^ e) + 1 <? -400) = false).
    { apply Z.ltb_ge. pose proof (Z.log2_nonneg (m * 2 ^ e)). lia. }
    rewrite L. change (0 <=? 0) with true. cbv iota.
    change (10 ^ 0) with 1. rewrite Z.mul_1_r.
    apply roundFraction_exact; [lia | exact Hm | exact C|].
    rewrite Z.pow_add_r by lia. ring.
  - apply Z.leb_gt in E. cbn [fst snd]. unfold ofDecimal.
    set (k := - e). assert (Hk : 0 < k) by (unfold k; lia).
    assert (P5 : 0 < 5 ^ k) by (apply Z.pow_pos_nonneg; lia).
    assert (D : (m * 5 ^ k <=? 0) = false) by (apply Z.leb_gt; nia).
    rewrite D.
    assert (U : (400 <? e) = false) by (apply Z.ltb_ge; lia).
    rewrite U.
    assert (L : (e + Z.log2 (m * 5 ^ k) + 1 <? -400) = false).
    { apply Z.ltb_ge. pose proof (log2_exact_digits m k Hm ltac:(lia)).
      unfold k in *. lia. }
    rewrite L.
    assert (G : (0 <=? e) = false) by (apply Z.leb_gt; lia).
    rewrite G.
    apply roundFraction_exact;
      [apply Z.pow_pos_nonneg; lia | exact Hm | exact C|].
    replace 10 with (2 * 5) by reflexivity.
    rewrite Z.pow_mul_l.
    replace 1074 with ((e + 1074) + k) at 1 by (unfold k; lia).
    rewrite Z.pow_add_r by lia. ring.
Qed.

Lemma reads_spec m e s p :
  reads m e s p = true -> ofDecimal false s p = Finite false m e.
Proof.
  unfold reads. pose proof (ofDecimal_sign false s p) as S.
  destruct (ofDecimal false s p) as [b m' e'|b]; [|discriminate].
  intros H. apply andb_prop in H. destruct H as [A B].
  apply Z.eqb_eq in A, B. subst. reflexivity.
Qed.

(** What [shortest] gives is read as the double. *)
Lemma shortest_reads fuel m e :
  0 < m -> canonical (Finite false m e) ->
  forall k,
    let D0 := fst (exact m e) in
    let P0 := snd (exact m e) in
    forall L,
    ofDecimal false (fst (shortest fuel m e D0 P0 L k))
                    (snd (shortest fuel m e D0 P0 L k))
    = Finite false m e.
Proof.
  intros Hm C. cbv zeta.
  induction fuel as [|f IH]; intros k L; cbn [shortest].
  - apply exact_reads; assumption.
  - destruct (L <=? k); [apply exact_reads; assumption|].
    cbv zeta.
    set (lo := (fst (exact m e) / 10 ^ (L - k), snd (exact m e) + (L - k))).
    set (hi := carried (fst (exact m e) / 10 ^ (L - k) + 1)
                       (snd (exact m e) + (L - k)) k).
    destruct (reads m e (fst lo) (snd lo)) eqn:A;
      destruct (reads m e (fst hi) (snd hi)) eqn:B; cbn [andb].
    + destruct (2 * (fst (exact m e) mod 10 ^ (L - k)) <? 10 ^ (L - k));
        [apply reads_spec; exact A|].
      destruct (10 ^ (L - k) <? 2 * (fst (exact m e) mod 10 ^ (L - k)));
        [apply reads_spec; exact B|].
      destruct (Z.even _); apply reads_spec; assumption.
    + apply reads_spec; exact A.
    + apply reads_spec; exact B.
    + apply IH.
Qed.

End Rounding.

Section Digits.

Import Number JSON JsonFacts.


Lemma valueFrom_app acc a b :
  valueFrom acc (a ++ b) = valueFrom (valueFrom acc a) b.
Proof. revert acc. induction a as [|c a IH]; intros acc; simpl; [reflexivity | apply IH]. Qed.

Lemma valueFrom_shift s : forall acc,
  valueFrom acc s = acc * 10 ^ Z.of_nat (String.length s) + value s.
Proof.
  unfold value. induction s as [|c s IH]; intros acc.
  - simpl. lia.
  - cbn [valueFrom String.length]. rewrite IH, (IH (0 * 10 + digitValue c)).
    rewrite Nat2Z.inj_succ, Z.pow_succ_r by lia. ring.
Qed.

Lemma value_app a b :
  value (a ++ b) = value a * 10 ^ Z.of_nat (String.length b) + value b.
Proof. unfold value at 1. rewrite valueFrom_app. apply valueFrom_shift. Qed.

Lemma digitChar_spec d :
  0 <= d < 10 ->
  digitValue (digitChar d) = d /\ isDigit (digitChar d) = true
  /\ (0 < d -> Ascii.eqb (digitChar d) "0" = false).
Proof.
  intros H.
  assert (C : d = 0 \/ d = 1 \/ d = 2 \/ d = 3 \/ d = 4 \/ d = 5 \/ d = 6
              \/ d = 7 \/ d = 8 \/ d = 9) by lia.
  repeat (destruct C as [-> | C]; [repeat split; try reflexivity; lia|]).
  subst d. repeat split; reflexivity.
Qed.

Lemma allDigits_app a b : allDigits (a ++ b) = allDigits a && allDigits b.
Proof.
  induction a as [|c a IH]; simpl; [reflexivity|].
  rewrite IH. apply andb_assoc.
Qed.

(** What [digitsFrom] puts before the digits it was given. *)
Lemma digitsFrom_spec fuel : forall z acc,
  0 <= z < 10 ^ Z.of_nat (S fuel) ->
  exists c ds,
    digitsFrom (S fuel) z acc = String c ds ++ acc
    /\ value (String c ds) = z
    /\ allDigits (String c ds) = true
    /\ (0 < z -> Ascii.eqb c "0" = false).
Proof.
  induction fuel as [|f IH]; intros z acc H.
  - change (10 ^ Z.of_nat 1) with 10 in H.
    assert (S : (z <? 10) = true) by (apply Z.ltb_lt; lia).
    cbn [digitsFrom]. rewrite S.
    destruct (digitChar_spec z H) as [V [D NZ]].
    rewrite Z.mod_small by lia.
    exists (digitChar z), "".
    split; [reflexivity|].
    split; [unfold value; cbn [valueFrom]; rewrite V; lia|].
    split; [simpl; rewrite D; reflexivity | exact NZ].
  - remember (S f) as g eqn:G. cbn [digitsFrom].
    assert (M : 0 <= z mod 10 < 10) by (apply Z.mod_pos_bound; lia).
    destruct (digitChar_spec _ M) as [V [D NZ]].
    destruct (z <? 10) eqn:S.
    + apply Z.ltb_lt in S.
      exists (digitChar (z mod 10)), "". rewrite Z.mod_small in * by lia.
      split; [reflexivity|].
      split; [unfold value; cbn [valueFrom]; rewrite V; lia|].
      split; [simpl; rewrite D; reflexivity | exact NZ].
    + apply Z.ltb_ge in S.
      assert (B : 0 <= z / 10 < 10 ^ Z.of_nat g).
      { split; [apply Z.div_pos; lia|].
        apply Z.div_lt_upper_bound; [lia|].
        rewrite Nat2Z.inj_succ, Z.pow_succ_r in H by lia. lia. }
      subst g.
      destruct (IH (z / 10) (String (digitChar (z mod 10)) acc) B)
        as [c [ds [E [Vd [A Nd]]]]].
      exists c, (ds ++ String (digitChar (z mod 10)) "").
      split.
      { rewrite E. cbn [append]. f_equal.
        rewrite string_app_assoc. reflexivity. }
      split.
      { change (String c (ds ++ String (digitChar (z mod 10)) ""))
          with (String c ds ++ String (digitChar (z mod 10)) "").
        rewrite value_app, Vd. unfold value at 1. simpl String.length.
        cbn [valueFrom]. rewrite V. change (10 ^ Z.of_nat 1) with 10.
        pose proof (Z.div_mod z 10 ltac:(lia)). lia. }
      split.
      { change (String c (ds ++ String (digitChar (z mod 10)) ""))
          with (String c ds ++ String (digitChar (z mod 10)) "").
        rewrite allDigits_app, A. simpl. rewrite D. reflexivity. }
      intros _. apply Nd. apply Z.div_str_pos. lia.
Qed.

Lemma below_pow10 z : 0 <= z -> z < 10 ^ Z.of_nat (S (Z.to_nat (Z.log2 z))).
Proof.
  intros H. destruct (Z.eq_dec z 0) as [->|N]; [reflexivity|].
  pose proof (Z.log2_spec z ltac:(lia)) as [_ U].
  pose proof (Z.log2_nonneg z) as L.
  rewrite Nat2Z.inj_succ, Z2Nat.id by lia.
  eapply Z.lt_le_trans; [exact U|].
  apply Z.pow_le_mono_l. lia.
Qed.

(** The digits of a natural number: they stand for it, and the first is
    not [0] unless the number is. *)
Lemma digitsOf_spec z :
  0 <= z ->
  exists c ds,
    digitsOf z = String c ds
    /\ value (String c ds) = z
    /\ allDigits (String c ds) = true
    /\ (0 < z -> Ascii.eqb c "0" = false).
Proof.
  intros H. unfold digitsOf.
  destruct (digitsFrom_spec _ z "" (conj H (below_pow10 z H)))
    as [c [ds [E R]]].
  exists c, ds. rewrite E. cbn [append]. rewrite string_app_nil_r.
  split; [reflexivity | exact R].
Qed.

Lemma spanDigits_all ds rest :
  allDigits ds = true ->
  match rest with
  | EmptyString => true
  | String c _ => negb (isDigit c)
  end = true ->
  spanDigits (ds ++ rest) = (ds, rest).
Proof.
  intros A R. induction ds as [|c ds IH].
  - destruct rest as [|c r]; [reflexivity|]. simpl.
    apply negb_true_iff in R. rewrite R. reflexivity.
  - simpl in A. apply andb_prop in A. destruct A as [C A].
    simpl. rewrite C, (IH A). reflexivity.
Qed.

Lemma allDigits_zeros n : allDigits (zeros n) = true.
Proof. induction n as [|n IH]; [reflexivity | exact IH]. Qed.

Lemma length_zeros n : String.length (zeros n) = n.
Proof. induction n as [|n IH]; simpl; [reflexivity | rewrite IH; reflexivity]. Qed.

Lemma valueFrom_zeros n s acc :
  valueFrom acc (zeros n ++ s) = valueFrom (acc * 10 ^ Z.of_nat n) s.
Proof.
  revert acc. induction n as [|n IH]; intros acc.
  - simpl. f_equal. lia.
  - cbn [zeros append valueFrom]. rewrite IH. f_equal.
    change (digitValue "0") with 0.
    rewrite Nat2Z.inj_succ, Z.pow_succ_r by lia. ring.
Qed.

Lemma value_zeros n s : value (zeros n ++ s) = value s.
Proof. unfold value. rewrite valueFrom_zeros. reflexivity. Qed.

Lemma value_then_zeros s n : value (s ++ zeros n) = value s * 10 ^ Z.of_nat n.
Proof.
  rewrite value_app, length_zeros.
  rewrite <- (string_app_nil_r (zeros n)), value_zeros. unfold value at 2.
  simpl. lia.
Qed.

(** A string cut in two at a place within it. *)
Lemma substring_cut s : forall n,
  (n <= String.length s)%nat ->
  exists a b,
    s = a ++ b /\ String.length a = n
    /\ String.substring 0 n s = a
    /\ String.substring n (String.length s - n) s = b.
Proof.
  induction s as [|c s IH]; intros n H.
  - simpl in H. assert (n = 0)%nat by lia. subst n.
    exists "", "". repeat split.
  - destruct n as [|n].
    + exists "", (String c s). split; [reflexivity|]. split; [reflexivity|].
      split; [reflexivity|]. simpl. f_equal.
      clear. induction s as [|x s IH]; simpl; [reflexivity | rewrite IH; reflexivity].
    + simpl in H. destruct (IH n ltac:(lia)) as [a [b [E [L [A B]]]]].
      exists (String c a), b. split; [simpl; rewrite <- E; reflexivity|].
      split; [simpl; rewrite L; reflexivity|].
      split; [simpl; rewrite A; reflexivity|].
      simpl. exact B.
Qed.

End Digits.

Section NumberText.

Import Number JSON JsonFacts.

Lemma endsNumber_no_digit rest :
  endsNumber rest = true ->
  match rest with
  | EmptyString => true
  | String c _ => negb (isDigit c)
  end = true.
Proof.
  destruct rest as [|c r]; [reflexivity|]. simpl. intros H.
  apply negb_true_iff in H. apply negb_true_iff.
  destruct (isDigit c); [discriminate H | reflexivity].
Qed.

Lemma lexFrac_none rest :
  endsNumber rest = true -> lexFrac rest = Some (EmptyString, rest).
Proof.
  destruct rest as [|c r]; [reflexivity|]. simpl. intros H.
  apply negb_true_iff in H.
  destruct (Ascii.eqb c "."); [|reflexivity].
  rewrite !orb_true_r in H. destruct (isDigit c); discriminate H.
Qed.

Lemma lexExp_none rest :
  endsNumber rest = true -> lexExp rest = Some (0, rest).
Proof.
  destruct rest as [|c r]; [reflexivity|]. simpl. intros H.
  apply negb_true_iff in H.
  destruct (Ascii.eqb c "e"), (Ascii.eqb c "E"); try reflexivity;
    rewrite ?orb_true_r in H; destruct (isDigit c); discriminate H.
Qed.

Lemma lexInt_digits c ds tail :
  isDigit c = true -> Ascii.eqb c "0" = false ->
  allDigits ds = true ->
  match tail with
  | EmptyString => true
  | String x _ => negb (isDigit x)
  end = true ->
  lexInt (String c ds ++ tail) = Some (String c ds, tail).
Proof.
  intros D Z A T. cbn [append lexInt]. rewrite Z, D.
  change (String c (ds ++ tail)) with (String c ds ++ tail).
  rewrite spanDigits_all; [reflexivity | simpl; rewrite D; exact A | exact T].
Qed.

Lemma lexFrac_digits ds tail :
  allDigits ds = true -> JsString.truthy ds = true ->
  match tail with
  | EmptyString => true
  | String x _ => negb (isDigit x)
  end = true ->
  lexFrac (String "." (ds ++ tail)) = Some (ds, tail).
Proof.
  intros A T N. cbn [lexFrac]. change (Ascii.eqb "." ".") with true. cbv iota.
  rewrite (spanDigits_all ds tail A N), T. reflexivity.
Qed.

(** The exponent as [format] writes it is read as it was. *)
Lemma lexExp_exponent e rest :
  endsNumber rest = true ->
  lexExp (("e" ++ (if e <? 0 then "-" else "+") ++ digitsOf (Z.abs e)) ++ rest)
  = Some (e, rest).
Proof.
  intros R.
  destruct (digitsOf_spec (Z.abs e) (Z.abs_nonneg e)) as [c [ds [E [V [A _]]]]].
  rewrite E.
  assert (S : spanDigits (String c ds ++ rest) = (String c ds, rest))
    by (apply spanDigits_all; [exact A | apply endsNumber_no_digit; exact R]).
  destruct (e <? 0) eqn:N.
  - apply Z.ltb_lt in N. cbn [append lexExp].
    change (Ascii.eqb "e" "e" || Ascii.eqb "e" "E") with true. cbv iota.
    change (Ascii.eqb "-" "-") with true. cbv iota.
    change (String c (ds ++ rest)) with (String c ds ++ rest).
    rewrite S. cbn [JsString.truthy]. rewrite V. f_equal. f_equal. lia.
  - apply Z.ltb_ge in N. cbn [append lexExp].
    change (Ascii.eqb "e" "e" || Ascii.eqb "e" "E") with true. cbv iota.
    change (Ascii.eqb "+" "-") with false. cbv iota.
    change (Ascii.eqb "+" "+") with true. cbv iota.
    change (String c (ds ++ rest)) with (String c ds ++ rest).
    rewrite S. cbn [JsString.truthy]. rewrite V. f_equal. f_equal. lia.
Qed.

Lemma ofDecimal_integer neg s p :
  0 < s -> 0 <= p <= 400 ->
  ofDecimal neg (s * 10 ^ p) 0 = ofDecimal neg s p.
Proof.
  intros Hs Hp. unfold ofDecimal.
  assert (P : 0 < 10 ^ p) by (apply Z.pow_pos_nonneg; lia).
  assert (A : (s * 10 ^ p <=? 0) = false) by (apply Z.leb_gt; nia).
  assert (B : (s <=? 0) = false) by (apply Z.leb_gt; lia).
  rewrite A, B. change (400 <? 0) with false.
  assert (C : (400 <? p) = false) by (apply Z.ltb_ge; lia).
  rewrite C. cbv iota.
  assert (D : (0 + Z.log2 (s * 10 ^ p) + 1 <? -400) = false).
  { apply Z.ltb_ge. pose proof (Z.log2_nonneg (s * 10 ^ p)). lia. }
  assert (E : (p + Z.log2 s + 1 <? -400) = false).
  { apply Z.ltb_ge. pose proof (Z.log2_nonneg s). lia. }
  rewrite D, E. change (0 <=? 0) with true.
  assert (F : (0 <=? p) = true) by (apply Z.leb_le; lia).
  rewrite F. cbv iota. change (10 ^ 0) with 1. rewrite Z.mul_1_r. reflexivity.
Qed.

Lemma numberText_app a b : numberText (a ++ b) = numberText a && numberText b.
Proof.
  induction a as [|c a IH]; simpl; [reflexivity|].
  rewrite IH. apply andb_assoc.
Qed.

Lemma allDigits_numberText s : allDigits s = true -> numberText s = true.
Proof.
  induction s as [|c s IH]; [reflexivity|]. simpl. intros H.
  apply andb_prop in H. destruct H as [D A]. rewrite D, (IH A). reflexivity.
Qed.

(** The text of a positive number is read as the digits and the exponent
    it was made from, or as the same number with its zeros written out. *)
Lemma lexDecimal_format neg s p rest :
  0 < s -> endsNumber rest = true ->
  (exists d x,
     lexDecimal (format s p ++ rest) = Some (d, x, rest)
     /\ ofDecimal neg d x = ofDecimal neg s p)
  /\ (exists c t, format s p = String c t /\ isDigit c = true)
  /\ numberText (format s p) = true.
Proof.
  intros Hs R. unfold format.
  destruct (digitsOf_spec s ltac:(lia)) as [d0 [more [E [V [A NZ]]]]].
  specialize (NZ Hs). rewrite E.
  pose proof A as A'. simpl in A'. apply andb_prop in A'.
  destruct A' as [D0 Amore].
  pose proof (endsNumber_no_digit rest R) as R'.
  set (k := Z.of_nat (String.length (String d0 more))).
  assert (Hk : 1 <= k) by (unfold k; simpl String.length; lia).
  set (n := p + k).
  destruct ((k <=? n) && (n <=? 21)) eqn:CA.
  { (* digits, then zeros *)
    apply andb_prop in CA. destruct CA as [C1 C2].
    apply Z.leb_le in C1, C2.
    split; [|split].
    - exists (s * 10 ^ p), 0. split; [|apply ofDecimal_integer; lia].
      unfold lexDecimal.
      change ((String d0 more ++ zeros (Z.to_nat (n - k))) ++ rest)
        with (String d0 (more ++ zeros (Z.to_nat (n - k))) ++ rest).
      rewrite (lexInt_digits d0 (more ++ zeros (Z.to_nat (n - k))) rest D0 NZ).
      2:{ rewrite allDigits_app, Amore, allDigits_zeros. reflexivity. }
      2:{ exact R'. }
      rewrite (lexFrac_none rest R), (lexExp_none rest R).
      rewrite string_app_nil_r.
      change (String d0 (more ++ zeros (Z.to_nat (n - k))))
        with (String d0 more ++ zeros (Z.to_nat (n - k))).
      rewrite value_then_zeros, V. simpl String.length.
      rewrite Z2Nat.id by lia. repeat f_equal; unfold n; lia.
    - eexists; eexists. split; [reflexivity | exact D0].
    - rewrite numberText_app, (allDigits_numberText _ A).
      apply allDigits_numberText, allDigits_zeros. }
  destruct ((0 <? n) && (n <=? 21)) eqn:CB.
  { (* digits, point, digits *)
    apply andb_prop in CB. destruct CB as [C1 C2].
    apply Z.ltb_lt in C1. apply Z.leb_le in C2.
    assert (Hn : n < k).
    { destruct (Z_lt_le_dec n k); [assumption|].
      assert (X : ((k <=? n) && (n <=? 21)) = true)
        by (apply andb_true_intro; split; apply Z.leb_le; lia).
      rewrite X in CA. discriminate CA. }
    destruct (substring_cut (String d0 more) (Z.to_nat n)
                ltac:(unfold k in Hn; lia)) as [a [b [Eab [La [Sa Sb]]]]].
    replace (Z.to_nat (k - n))
      with (String.length (String d0 more) - Z.to_nat n)%nat
      by (unfold k; lia).
    rewrite Sa, Sb.
    assert (Aab : allDigits a = true /\ allDigits b = true).
    { rewrite Eab, allDigits_app in A. apply andb_prop in A. exact A. }
    destruct Aab as [Aa Ab].
    destruct a as [|a0 a'].
    { simpl in La. lia. }
    assert (H0 : a0 = d0) by (simpl in Eab; congruence). subst a0.
    assert (Lb : (0 < String.length b)%nat).
    { apply (f_equal String.length) in Eab.
      rewrite string_length_append in Eab. unfold k in Hn. lia. }
    assert (Tb : JsString.truthy b = true)
      by (destruct b; [simpl in Lb; lia | reflexivity]).
    split; [|split].
    - exists s, p. split; [|reflexivity].
      unfold lexDecimal. rewrite !string_app_assoc.
      simpl in Aa. apply andb_prop in Aa. destruct Aa as [_ Aa].
      rewrite (lexInt_digits d0 a' ("." ++ b ++ rest) D0 NZ Aa eq_refl).
      change ("." ++ b ++ rest) with (String "." (b ++ rest)).
      rewrite (lexFrac_digits b rest Ab Tb R'), (lexExp_none rest R).
      rewrite <- Eab, V. repeat f_equal.
      apply (f_equal String.length) in Eab.
      rewrite string_length_append in Eab. unfold n, k in *. lia.
    - eexists; eexists. split; [reflexivity | exact D0].
    - rewrite !numberText_app, (allDigits_numberText _ Aa),
        (allDigits_numberText _ Ab). reflexivity. }
  destruct ((-6 <? n) && (n <=? 0)) eqn:CC.
  { (* zero, point, zeros, digits *)
    apply andb_prop in CC. destruct CC as [C1 C2].
    apply Z.ltb_lt in C1. apply Z.leb_le in C2.
    split; [|split].
    - exists s, p. split; [|reflexivity].
      unfold lexDecimal.
      change (("0." ++ zeros (Z.to_nat (- n)) ++ String d0 more) ++ rest)
        with (String "0" (String "."
                ((zeros (Z.to_nat (- n)) ++ String d0 more) ++ rest))).
      cbn [lexInt]. change (Ascii.eqb "0" "0") with true. cbv iota.
      rewrite (lexFrac_digits (zeros (Z.to_nat (- n)) ++ String d0 more) rest).
      2:{ rewrite allDigits_app, allDigits_zeros, A. reflexivity. }
      2:{ destruct (zeros (Z.to_nat (- n))); reflexivity. }
      2:{ exact R'. }
      rewrite (lexExp_none rest R).
      change ("0" ++ zeros (Z.to_nat (- n)) ++ String d0 more)
        with (zeros 1 ++ zeros (Z.to_nat (- n)) ++ String d0 more).
      rewrite !value_zeros, V. repeat f_equal.
      rewrite string_length_append, length_zeros. unfold n, k in *. lia.
    - eexists; eexists. split; [reflexivity | reflexivity].
    - cbn [append numberText]. simpl.
      rewrite numberText_app, (allDigits_numberText _ (allDigits_zeros _)).
      exact (allDigits_numberText _ A). }
  (* digit, digits after the point, exponent *)
  set (exponent := "e" ++ (if n - 1 <? 0 then "-" else "+")
                       ++ digitsOf (Z.abs (n - 1))).
  assert (X : lexExp (exponent ++ rest) = Some (n - 1, rest))
    by (apply lexExp_exponent; exact R).
  assert (NX : numberText exponent = true).
  { unfold exponent.
    destruct (digitsOf_spec (Z.abs (n - 1)) (Z.abs_nonneg _))
      as [c [ds [Ee [_ [Ae _]]]]].
    rewrite Ee, !numberText_app, (allDigits_numberText _ Ae).
    destruct (n - 1 <? 0); reflexivity. }
  assert (HX : exists r', exponent ++ rest = String "e" r')
    by (eexists; reflexivity).
  destruct HX as [r' HX].
  destruct more as [|d1 more'].
  - split; [|split].
    + exists s, p. split; [|reflexivity].
      unfold lexDecimal.
      change (String d0 exponent ++ rest) with (String d0 "" ++ (exponent ++ rest)).
      rewrite (lexInt_digits d0 "" (exponent ++ rest) D0 NZ eq_refl)
        by (rewrite HX; reflexivity).
      rewrite HX at 1. cbn [lexFrac]. change (Ascii.eqb "e" ".") with false.
      cbv iota. rewrite <- HX, X. rewrite string_app_nil_r, V.
      repeat f_equal. unfold n, k. simpl. lia.
    + eexists; eexists. split; [reflexivity | exact D0].
    + cbn [numberText]. rewrite D0, NX. reflexivity.
  - split; [|split].
    + exists s, p. split; [|reflexivity].
      unfold lexDecimal.
      replace ((String d0 ("." ++ String d1 more') ++ exponent) ++ rest)
        with (String d0 "" ++ String "." (String d1 more' ++ (exponent ++ rest)))
        by (cbn [append]; rewrite string_app_assoc; reflexivity).
      rewrite (lexInt_digits d0 ""
                 (String "." (String d1 more' ++ exponent ++ rest))
                 D0 NZ eq_refl eq_refl).
      rewrite (lexFrac_digits (String d1 more') (exponent ++ rest) Amore eq_refl)
        by (rewrite HX; reflexivity).
      rewrite X. change (String d0 "" ++ String d1 more') with (String d0 (String d1 more')).
      rewrite V. repeat f_equal. unfold n, k. simpl String.length. lia.
    + eexists; eexists. split; [reflexivity | exact D0].
    + change (String d0 ("." ++ String d1 more') ++ exponent)
        with (String d0 "" ++ "." ++ String d1 more' ++ exponent).
      rewrite !numberText_app, NX, (allDigits_numberText _ Amore).
      cbn [numberText]. rewrite D0. reflexivity.
Qed.

Lemma shortest_positive fuel m e L k :
  0 < m -> canonical (Finite false m e) ->
  0 < fst (shortest fuel m e (fst (exact m e)) (snd (exact m e)) L k).
Proof.
  intros Hm C. pose proof (shortest_reads fuel m e Hm C k L) as H.
  cbv zeta in H.
  destruct (Z_lt_le_dec 0
    (fst (shortest fuel m e (fst (exact m e)) (snd (exact m e)) L k)))
    as [P|P]; [exact P|].
  unfold ofDecimal in H. apply Z.leb_le in P. rewrite P in H.
  unfold zero in H. inversion H. lia.
Qed.

Lemma digit_not_minus c : isDigit c = true -> Ascii.eqb c "-" = false.
Proof.
  intros D. destruct (Ascii.eqb c "-") eqn:E; [|reflexivity].
  apply Ascii.eqb_eq in E. subst c. discriminate D.
Qed.

(** The digits [toString] chooses for a number that is not zero. *)
Lemma toString_digits negative m e :
  0 < m -> canonical (Finite negative m e) ->
  exists s p,
    toString (Finite negative m e)
    = (if negative then "-" else "") ++ format s p
    /\ 0 < s /\ ofDecimal false s p = Finite false m e.
Proof.
  intros Z C. assert (C' : canonical (Finite false m e)) by exact C.
  pose proof (shortest_reads
                (Z.to_nat (Z.of_nat (String.length (digitsOf (fst (exact m e))))))
                m e Z C' 1
                (Z.of_nat (String.length (digitsOf (fst (exact m e)))))) as S.
  pose proof (shortest_positive
                (Z.to_nat (Z.of_nat (String.length (digitsOf (fst (exact m e))))))
                m e
                (Z.of_nat (String.length (digitsOf (fst (exact m e))))) 1
                Z C') as Pos.
  cbv zeta in S. unfold toString.
  assert (M : (m <=? 0) = false) by (apply Z.leb_gt; exact Z).
  rewrite M.
  destruct (exact m e) as [D0 P0]. cbn [fst snd] in S, Pos.
  destruct (shortest _ m e D0 P0 _ 1) as [s p]. cbn [fst snd] in S, Pos.
  exists s, p. split; [reflexivity|]. split; assumption.
Qed.

(** The text of a finite number starts with a digit or the sign, and has
    the characters of a number only. *)
Lemma toString_text negative m e :
  canonical (Finite negative m e) ->
  (exists c t, toString (Finite negative m e) = String c t
               /\ (isDigit c || Ascii.eqb c "-") = true)
  /\ numberText (toString (Finite negative m e)) = true.
Proof.
  intros C. pose proof C as [[M0 _] _].
  destruct (Z_lt_le_dec 0 m) as [Z|Z].
  - destruct (toString_digits negative m e Z C) as [s [p [T [Pos _]]]].
    rewrite T.
    destruct (lexDecimal_format false s p "" Pos eq_refl)
      as [_ [[c [t [F D]]] N]].
    destruct negative.
    + split; [eexists; eexists; split; reflexivity|].
      cbn [append numberText]. rewrite N. reflexivity.
    + split; [|exact N]. exists c, t. split; [exact F|].
      rewrite D. reflexivity.
  - unfold toString. assert (M : (m <=? 0) = true) by (apply Z.leb_le; exact Z).
    rewrite M. split; [eexists; eexists; split; reflexivity | reflexivity].
Qed.

(** The text of a number is read as the number: every finite double
    other than the negative zero. *)
Lemma parseNumber_toString x rest :
  canonical x -> plain x = true -> endsNumber rest = true ->
  parseNumber (toString x ++ rest) = Some (JNum x, rest).
Proof.
  intros C P R. destruct x as [negative m e|negative]; [|discriminate P].
  pose proof C as [[M0 M53] [[E1 E2] N]].
  destruct (Z_lt_le_dec 0 m) as [Z|Z].
  - destruct (toString_digits negative m e Z C) as [s [p [T [Pos S]]]].
    rewrite T.
    destruct (lexDecimal_format negative s p rest Pos R)
      as [[d [x [L V]]] [[c [t [F D]]] _]].
    assert (V' : ofDecimal negative d x = Finite negative m e).
    { rewrite V, ofDecimal_negative, S. reflexivity. }
    destruct negative.
    + unfold parseNumber. rewrite string_app_assoc. cbn [append].
      change (Ascii.eqb "-" "-") with true. cbv iota.
      rewrite L, V'. reflexivity.
    + unfold parseNumber. cbn [append]. rewrite F. cbn [append].
      rewrite (digit_not_minus c D).
      change (String c (t ++ rest)) with (String c t ++ rest).
      rewrite <- F, L, V'. reflexivity.
  - assert (m = 0) by lia. subst m.
    assert (e = -1074) by (destruct N as [N|N]; [lia | exact N]). subst e.
    simpl in P. destruct negative; [discriminate P|].
    change (toString (Finite false 0 (-1074))) with "0".
    unfold parseNumber, lexDecimal. cbn [append].
    change (Ascii.eqb "0" "-") with false. cbv iota. cbn [lexInt].
    change (Ascii.eqb "0" "0") with true. cbv iota.
    rewrite (lexFrac_none rest R), (lexExp_none rest R). reflexivity.
Qed.

End NumberText.

(** ** JSON: what is printed is read back *)

Section JsonStrings.

Import JSON JsonFacts.

Lemma parseChars_escapeChar c tail :
  parseChars (escapeChar c ++ tail) = consString (String c "") (parseChars tail).
Proof.
  destruct c as [[] [] [] [] [] [] [] []]; reflexivity.
Qed.

(** The escape of a surrogate is read as its three bytes. *)
Lemma parseChars_surrogate a b c tail :
  isSurrogate a b c = true ->
  parseChars (unicodeEscapeOf (surrogateUnit b c) ++ tail)
  = consString (String a (String b (String c ""))) (parseChars tail).
Proof.
  intros H.
  assert (A : a = "237"%char).
  { unfold isSurrogate in H. rewrite !andb_true_iff in H.
    destruct H as [[[[H _] _] _] _]. apply N.eqb_eq in H.
    rewrite <- (ascii_N_embedding a), H. reflexivity. }
  subst a.
  destruct b as [[] [] [] [] [] [] [] []]; try discriminate H;
    destruct c as [[] [] [] [] [] [] [] []]; try discriminate H; reflexivity.
Qed.

Lemma parseChars_escape_length n :
  forall s rest,
    (String.length s <= n)%nat ->
    parseChars (escape s ++ String dquote rest) = Some (s, rest).
Proof.
  induction n as [|n IH]; intros s rest L.
  - destruct s; [reflexivity | simpl in L; lia].
  - destruct s as [|a r]; [reflexivity|].
    simpl in L.
    assert (Plain : parseChars ((escapeChar a ++ escape r) ++ String dquote rest)
                    = Some (String a r, rest)).
    { rewrite string_app_assoc, parseChars_escapeChar, IH by lia. reflexivity. }
    destruct r as [|b [|c r']]; try exact Plain.
    cbn [escape]. destruct (isSurrogate a b c) eqn:S; [|exact Plain].
    rewrite string_app_assoc, (parseChars_surrogate a b c _ S).
    rewrite IH by (simpl in L; lia). reflexivity.
Qed.

(** A string between quotes is read as it was. *)
Lemma parseChars_escape s rest :
  parseChars (escape s ++ String dquote rest) = Some (s, rest).
Proof. apply (parseChars_escape_length (String.length s)). lia. Qed.

Lemma quote_append s rest :
  quote s ++ rest = String dquote (escape s ++ String dquote rest).
Proof.
  unfold quote. simpl. rewrite string_app_assoc. reflexivity.
Qed.

(** *** Surrogate pairs *)

Lemma pairUp_copy x u :
  (N_of_ascii x =? 237)%N = false -> pairUp (String x u) = String x (pairUp u).
Proof.
  intros H.
  assert (F : forall b c, isHigh x b c = false).
  { intros b c. unfold isHigh, isSurrogate. rewrite H. reflexivity. }
  destruct u as [|b [|c [|d [|e [|f r']]]]]; try reflexivity.
  cbn [pairUp]. rewrite F. reflexivity.
Qed.

Lemma pairUp_cases a r :
  (exists b c d e f r',
      r = String b (String c (String d (String e (String f r'))))
      /\ isHigh a b c && isLow d e f = true
      /\ pairUp (String a r) = pairBytes b c e f ++ pairUp r')
  \/ ((forall b c d e f r',
          r = String b (String c (String d (String e (String f r')))) ->
          isHigh a b c && isLow d e f = false)
      /\ pairUp (String a r) = String a (pairUp r)).
Proof.
  destruct r as [|b [|c [|d [|e [|f r']]]]];
    try (right; split; [intros; discriminate | reflexivity]).
  destruct (isHigh a b c && isLow d e f) eqn:M.
  - left. exists b, c, d, e, f, r'. split; [reflexivity|]. split; [exact M|].
    cbn [pairUp]. rewrite M. reflexivity.
  - right. split.
    + intros b0 c0 d0 e0 f0 r0 E. inversion E; subst. exact M.
    + cbn [pairUp]. rewrite M. reflexivity.
Qed.

Lemma pairBytes_bytes b c e f :
  isHigh "237" b c = true -> isLow "237" e f = true ->
  exists p0 p1 p2 p3,
    pairBytes b c e f = String p0 (String p1 (String p2 (String p3 "")))
    /\ (240 <=? N_of_ascii p0)%N = true
    /\ (N_of_ascii p1 =? 237)%N = false
    /\ (N_of_ascii p2 =? 237)%N = false
    /\ (N_of_ascii p3 =? 237)%N = false.
Proof.
  intros H L. unfold pairBytes.
  set (cp := (65536 + ((N_of_ascii b - 160) * 64 + (N_of_ascii c - 128)) * 1024
              + ((N_of_ascii e - 176) * 64 + (N_of_ascii f - 128)))%N).
  assert (B : (cp < 1114112)%N).
  { unfold isHigh, isLow, isSurrogate in H, L.
    rewrite !andb_true_iff in H, L.
    destruct H as [[[[[_ H1] H2] H3] H4] H5].
    destruct L as [[[[[_ L1] L2] L3] L4] L5].
    apply N.leb_le in H1, H2, H3, H4, H5, L1, L2, L3, L4, L5.
    unfold cp. lia. }
  assert (Q : (cp / 262144 < 5)%N).
  { apply N.Div0.div_lt_upper_bound. lia. }
  assert (M1 : ((cp / 4096) mod 64 < 64)%N) by (apply N.mod_lt; lia).
  assert (M2 : ((cp / 64) mod 64 < 64)%N) by (apply N.mod_lt; lia).
  assert (M3 : (cp mod 64 < 64)%N) by (apply N.mod_lt; lia).
  eexists; eexists; eexists; eexists. split; [reflexivity|].
  rewrite !N_ascii_embedding by lia.
  repeat split; first [apply N.leb_le, N.le_add_r | apply N.eqb_neq; lia].
Qed.

Lemma high_is_surrogate a b c : isHigh a b c = true -> a = "237"%char.
Proof.
  unfold isHigh, isSurrogate. rewrite !andb_true_iff.
  intros [[[[[H _] _] _] _] _]. apply N.eqb_eq in H.
  rewrite <- (ascii_N_embedding a), H. reflexivity.
Qed.

Lemma low_is_surrogate a b c : isLow a b c = true -> a = "237"%char.
Proof.
  unfold isLow, isSurrogate. rewrite !andb_true_iff.
  intros [[[[[H _] _] _] _] _]. apply N.eqb_eq in H.
  rewrite <- (ascii_N_embedding a), H. reflexivity.
Qed.

(** A byte below 240 at the head of a paired string was there before. *)
Lemma pairUp_head r x u :
  pairUp r = String x u -> (N_of_ascii x <? 240)%N = true ->
  exists r1, r = String x r1 /\ u = pairUp r1.
Proof.
  intros E X. destruct r as [|a r]; [discriminate E|].
  destruct (pairUp_cases a r) as [[b [c [d [e [f [r' [R [M P]]]]]]]] | [_ P]].
  - exfalso. rewrite P in E. apply andb_prop in M. destruct M as [H L].
    pose proof (high_is_surrogate _ _ _ H). subst a.
    pose proof (low_is_surrogate _ _ _ L). subst d.
    destruct (pairBytes_bytes b c e f H L) as [p0 [p1 [p2 [p3 [B [B0 _]]]]]].
    rewrite B in E. cbn [append] in E. inversion E; subst.
    apply N.leb_le in B0. apply N.ltb_lt in X. lia.
  - rewrite P in E. inversion E; subst. exists r. split; reflexivity.
Qed.

Lemma surrogate_bytes a b c :
  isSurrogate a b c = true ->
  (N_of_ascii a <? 240)%N = true /\ (N_of_ascii b <? 240)%N = true
  /\ (N_of_ascii c <? 240)%N = true.
Proof.
  unfold isSurrogate. rewrite !andb_true_iff.
  intros [[[[A B1] B2] C1] C2].
  apply N.eqb_eq in A. apply N.leb_le in B1, B2, C1, C2.
  repeat split; apply N.ltb_lt; lia.
Qed.

Lemma pairUp_idem_length n :
  forall s, (String.length s <= n)%nat -> pairUp (pairUp s) = pairUp s.
Proof.
  induction n as [|n IH]; intros s L.
  - destruct s; [reflexivity | simpl in L; lia].
  - destruct s as [|a r]; [reflexivity|]. simpl in L.
    destruct (pairUp_cases a r) as [[b [c [d [e [f [r' [R [M P]]]]]]]] | [N P]].
    + rewrite P. apply andb_prop in M. destruct M as [H Lo].
      pose proof (high_is_surrogate _ _ _ H). subst a.
      pose proof (low_is_surrogate _ _ _ Lo). subst d.
      destruct (pairBytes_bytes b c e f H Lo)
        as [p0 [p1 [p2 [p3 [B [B0 [B1 [B2 B3]]]]]]]].
      rewrite B. cbn [append].
      assert (B0' : (N_of_ascii p0 =? 237)%N = false).
      { apply N.eqb_neq. apply N.leb_le in B0. lia. }
      rewrite (pairUp_copy p0 _ B0'), (pairUp_copy p1 _ B1),
        (pairUp_copy p2 _ B2), (pairUp_copy p3 _ B3).
      rewrite IH; [reflexivity|]. subst r. simpl in L. lia.
    + rewrite P.
      destruct (pairUp_cases a (pairUp r))
        as [[b [c [d [e [f [r' [R [M P']]]]]]]] | [_ P']].
      * exfalso. pose proof M as M'. apply andb_prop in M'.
        destruct M' as [H Lo].
        unfold isHigh in H. apply andb_prop in H. destruct H as [H _].
        unfold isLow in Lo. apply andb_prop in Lo. destruct Lo as [Lo _].
        destruct (surrogate_bytes _ _ _ H) as [_ [Xb Xc]].
        destruct (surrogate_bytes _ _ _ Lo) as [Xd [Xe Xf]].
        destruct (pairUp_head _ _ _ R Xb) as [r1 [E1 R1]]. symmetry in R1.
        destruct (pairUp_head _ _ _ R1 Xc) as [r2 [E2 R2]]. symmetry in R2.
        destruct (pairUp_head _ _ _ R2 Xd) as [r3 [E3 R3]]. symmetry in R3.
        destruct (pairUp_head _ _ _ R3 Xe) as [r4 [E4 R4]]. symmetry in R4.
        destruct (pairUp_head _ _ _ R4 Xf) as [r5 [E5 R5]].
        subst r r1 r2 r3 r4.
        rewrite (N b c d e f r5 eq_refl) in M. discriminate M.
      * rewrite P', IH by lia. reflexivity.
Qed.

(** Pairing the surrogates of a string that has them paired changes
    nothing. *)
Lemma pairUp_idem s : pairUp (pairUp s) = pairUp s.
Proof. apply (pairUp_idem_length (String.length s)). lia. Qed.

End JsonStrings.

(** *** The keys of an object *)

Section JsonObjects.

Import JSON JsonFacts.

Lemma arrayIndex_digits k i : arrayIndex k = Some i -> k = Number.digitsOf i.
Proof.
  unfold arrayIndex.
  destruct ((0 <=? Number.value k) && (Number.value k <=? 4294967294)
            && (k =? Number.digitsOf (Number.value k))%string) eqn:E;
    [|discriminate].
  intros [= <-]. apply andb_prop in E. destruct E as [_ E].
  apply String.eqb_eq in E. exact E.
Qed.

Lemma arrayIndex_inj k k' i :
  arrayIndex k = Some i -> arrayIndex k' = Some i -> k = k'.
Proof.
  intros A B. rewrite (arrayIndex_digits _ _ A), (arrayIndex_digits _ _ B).
  reflexivity.
Qed.

Lemma hasKey_in k l : hasKey k l = true <-> In k (map fst l).
Proof.
  induction l as [|[k' v'] l IH]; simpl.
  - split; [discriminate | contradiction].
  - rewrite orb_true_iff, IH, String.eqb_eq. reflexivity.
Qed.

Lemma hasKey_out k l : hasKey k l = false <-> ~ In k (map fst l).
Proof.
  rewrite <- hasKey_in. destruct (hasKey k l); split; congruence.
Qed.

Lemma nodup_not_in k keys :
  existsb (String.eqb k) keys = false <-> ~ In k keys.
Proof.
  split.
  - intros H Hin. assert (E : existsb (String.eqb k) keys = true).
    { apply existsb_exists. exists k. split; [exact Hin | apply String.eqb_refl]. }
    rewrite E in H. discriminate H.
  - intros H. destruct (existsb (String.eqb k) keys) eqn:E; [|reflexivity].
    apply existsb_exists in E. destruct E as [x [Hin Hx]].
    apply String.eqb_eq in Hx. subst x. contradiction.
Qed.

Lemma nodup_NoDup keys : nodup keys = true <-> NoDup keys.
Proof.
  induction keys as [|k r IH]; simpl.
  - split; [constructor | reflexivity].
  - rewrite andb_true_iff, negb_true_iff, nodup_not_in, IH.
    split; [intros [A B]; constructor; assumption
           | intros H; inversion H; auto].
Qed.

(** Every key of an ordered list is a name or an index from [next] on. *)
Lemma ordered_bound keys :
  forall next k i,
    ordered next keys = true -> In k keys -> arrayIndex k = Some i ->
    next <= i.
Proof.
  induction keys as [|k' r IH]; intros next k i O Hin A; [contradiction|].
  cbn [ordered] in O. destruct (arrayIndex k') as [j|] eqn:J.
  - apply andb_prop in O. destruct O as [O1 O2]. apply Z.leb_le in O1.
    destruct Hin as [<- | Hin].
    + rewrite J in A. inversion A; subst. exact O1.
    + pose proof (IH _ _ _ O2 Hin A). lia.
  - apply andb_prop in O. destruct O as [O1 _].
    destruct Hin as [<- | Hin]; [congruence|].
    rewrite forallb_forall in O1. specialize (O1 _ Hin).
    unfold isName in O1. rewrite A in O1. discriminate O1.
Qed.

Lemma ordered_NoDup keys : forall next, ordered next keys = true -> NoDup keys.
Proof.
  induction keys as [|k r IH]; intros next O; [constructor|].
  cbn [ordered] in O. destruct (arrayIndex k) as [i|] eqn:A.
  - apply andb_prop in O. destruct O as [_ O].
    constructor; [|exact (IH _ O)].
    intros Hin. pose proof (ordered_bound r _ _ _ O Hin A). lia.
  - apply andb_prop in O. destruct O as [_ O]. apply nodup_NoDup. exact O.
Qed.

Lemma NoDup_prefix {A} (a b : list A) : NoDup (a ++ b) -> NoDup a.
Proof.
  induction a as [|x a IH]; intros H; [constructor|].
  simpl in H. inversion H; subst. constructor.
  - intros Hin. apply H2. apply in_or_app. left. exact Hin.
  - apply IH. assumption.
Qed.

Lemma ordered_prefix a :
  forall next b, ordered next (a ++ b) = true -> ordered next a = true.
Proof.
  induction a as [|k r IH]; intros next b O; [reflexivity|].
  cbn [app ordered] in *. destruct (arrayIndex k) as [i|].
  - apply andb_prop in O. destruct O as [O1 O2].
    rewrite O1, (IH _ _ O2). reflexivity.
  - apply andb_prop in O. destruct O as [O1 O2].
    rewrite forallb_app in O1. apply andb_prop in O1. destruct O1 as [O1 _].
    rewrite O1. apply nodup_NoDup.
    apply nodup_NoDup in O2.
    exact (NoDup_prefix (k :: r) b O2).
Qed.

Lemma replaceMember_keys k v l :
  map fst (replaceMember k v l) = map fst l.
Proof.
  induction l as [|[k' v'] l IH]; [reflexivity|]. simpl.
  destruct (String.eqb_spec k' k) as [E|E]; simpl.
  - subst. reflexivity.
  - rewrite IH. reflexivity.
Qed.

Lemma insertIndex_ordered i k v l :
  arrayIndex k = Some i ->
  forall next,
    next <= i -> ~ In k (map fst l) ->
    ordered next (map fst l) = true ->
    ordered next (map fst (insertIndex i k v l)) = true.
Proof.
  intros A. induction l as [|[k' v'] l IH]; intros next N Out O.
  - simpl. rewrite A. apply andb_true_intro. split; [apply Z.leb_le; lia | reflexivity].
  - cbn [insertIndex]. cbn [map fst ordered] in O.
    destruct (arrayIndex k') as [j|] eqn:J.
    + apply andb_prop in O. destruct O as [O1 O2]. apply Z.leb_le in O1.
      destruct (j <? i) eqn:C.
      * apply Z.ltb_lt in C. cbn [map fst ordered]. rewrite J.
        apply andb_true_intro. split; [apply Z.leb_le; lia|].
        apply IH; [lia | | exact O2].
        intros Hin. apply Out. right. exact Hin.
      * apply Z.ltb_ge in C.
        assert (j <> i).
        { intros ->. apply Out. left. simpl. exact (arrayIndex_inj _ _ _ J A). }
        cbn [map fst ordered]. rewrite A, J.
        apply andb_true_intro. split; [apply Z.leb_le; lia|].
        apply andb_true_intro. split; [apply Z.leb_le; lia | exact O2].
    + cbn [map fst ordered]. rewrite A, J.
      apply andb_true_intro. split; [apply Z.leb_le; lia | exact O].
Qed.

Lemma nodup_snoc keys k :
  nodup keys = true -> ~ In k keys -> nodup (keys ++ [k]) = true.
Proof.
  intros D Out. apply nodup_NoDup. apply nodup_NoDup in D.
  apply NoDup_app; [exact D | repeat constructor; intros [] |].
  intros a Ha [<- | []]. contradiction.
Qed.

Lemma append_ordered k keys :
  arrayIndex k = None ->
  forall next,
    ~ In k keys -> ordered next keys = true ->
    ordered next (keys ++ [k]) = true.
Proof.
  intros A. induction keys as [|k' r IH]; intros next Out O.
  - simpl. rewrite A. reflexivity.
  - cbn [app ordered] in *. destruct (arrayIndex k') as [j|].
    + apply andb_prop in O. destruct O as [O1 O2]. rewrite O1.
      apply IH; [|exact O2]. intros Hin. apply Out. right. exact Hin.
    + apply andb_prop in O. destruct O as [O1 O2].
      rewrite forallb_app, O1. cbn [forallb]. unfold isName at 1. rewrite A.
      change (nodup (k' :: r ++ [k])) with (nodup ((k' :: r) ++ [k])).
      rewrite (nodup_snoc (k' :: r) k O2 Out). reflexivity.
Qed.

(** Setting a member keeps the keys in their order. *)
Lemma setMember_ordered k v l :
  ordered 0 (map fst l) = true -> ordered 0 (map fst (setMember k v l)) = true.
Proof.
  intros O. unfold setMember. destruct (hasKey k l) eqn:H.
  - rewrite replaceMember_keys. exact O.
  - apply hasKey_out in H. destruct (arrayIndex k) as [i|] eqn:A.
    + apply insertIndex_ordered; [exact A | | exact H | exact O].
      unfold arrayIndex in A.
      destruct ((0 <=? Number.value k) && (Number.value k <=? 4294967294)
                && (k =? Number.digitsOf (Number.value k))%string) eqn:E;
        [|discriminate].
      inversion A; subst. rewrite !andb_true_iff in E.
      destruct E as [[E _] _]. apply Z.leb_le in E. exact E.
    + rewrite map_app. apply append_ordered; assumption.
Qed.

Section Each.

Variable P : string * json -> bool.

Lemma replaceMember_each k v l :
  P (k, v) = true -> forallb P l = true ->
  forallb P (replaceMember k v l) = true.
Proof.
  intros V. induction l as [|[k' v'] l IH]; [reflexivity|]. simpl.
  intros H. apply andb_prop in H. destruct H as [H1 H2].
  destruct (k' =? k)%string; simpl.
  - rewrite V, H2. reflexivity.
  - rewrite H1, (IH H2). reflexivity.
Qed.

Lemma insertIndex_each i k v l :
  P (k, v) = true -> forallb P l = true ->
  forallb P (insertIndex i k v l) = true.
Proof.
  intros V. induction l as [|[k' v'] l IH]; simpl.
  - rewrite V. reflexivity.
  - intros H. pose proof H as H'. apply andb_prop in H. destruct H as [H1 H2].
    destruct (arrayIndex k') as [j|].
    + destruct (j <? i); simpl.
      * rewrite H1, (IH H2). reflexivity.
      * rewrite V, H1, H2. reflexivity.
    + simpl. rewrite V, H1, H2. reflexivity.
Qed.

Lemma setMember_each k v l :
  P (k, v) = true -> forallb P l = true ->
  forallb P (setMember k v l) = true.
Proof.
  intros V H. unfold setMember. destruct (hasKey k l).
  - apply replaceMember_each; assumption.
  - destruct (arrayIndex k).
    + apply insertIndex_each; assumption.
    + rewrite forallb_app, H. simpl. rewrite V. reflexivity.
Qed.

End Each.

Lemma setMember_good k v acc :
  isString k = true -> isValue v = true ->
  goodMembers acc -> goodMembers (setMember k v acc).
Proof.
  intros K V [O F]. split.
  - apply setMember_ordered. exact O.
  - apply setMember_each; [|exact F]. simpl. rewrite K, V. reflexivity.
Qed.

Lemma insertIndex_last i k v acc :
  arrayIndex k = Some i ->
  forall next,
    ordered next (map fst acc ++ [k]) = true ->
    insertIndex i k v acc = (acc ++ [(k, v)])%list.
Proof.
  intros A. induction acc as [|[k' v'] acc IH]; intros next O; [reflexivity|].
  cbn [map fst app ordered] in O. cbn [insertIndex].
  destruct (arrayIndex k') as [j|].
  - apply andb_prop in O. destruct O as [_ O].
    assert (B : j + 1 <= i).
    { apply (ordered_bound _ _ k i O); [|exact A].
      apply in_or_app. right. left. reflexivity. }
    assert (C : (j <? i) = true) by (apply Z.ltb_lt; lia).
    rewrite C, (IH _ O). reflexivity.
  - exfalso. apply andb_prop in O. destruct O as [O _].
    rewrite forallb_app in O. apply andb_prop in O. destruct O as [_ O].
    simpl in O. unfold isName in O. rewrite A in O. discriminate O.
Qed.

(** A key that comes next in the order goes to the end. *)
Lemma setMember_fresh k v acc :
  ordered 0 (map fst acc ++ [k]) = true ->
  setMember k v acc = (acc ++ [(k, v)])%list.
Proof.
  intros O. unfold setMember.
  assert (Out : ~ In k (map fst acc)).
  { pose proof (ordered_NoDup _ _ O) as D.
    apply NoDup_remove_2 in D. rewrite app_nil_r in D. exact D. }
  apply hasKey_out in Out. rewrite Out.
  destruct (arrayIndex k) as [i|] eqn:A; [|reflexivity].
  exact (insertIndex_last i k v acc A 0 O).
Qed.

End JsonObjects.

Section JsonText.

Import JSON JsonFacts.

(** *** Unfolding [stringify] and [size] *)

Lemma stringify_arr items : stringify (JArr items) = String "[" (stringifyItems items).
Proof. reflexivity. Qed.

Lemma stringify_obj members :
  stringify (JObj members) = String "{" (stringifyMembers members).
Proof. reflexivity. Qed.

Lemma size_arr items : size (JArr items) = S (sizeItems items).
Proof. reflexivity. Qed.

Lemma size_obj members : size (JObj members) = S (sizeMembers members).
Proof. reflexivity. Qed.

(** *** The first character of a printed value *)

Lemma startsValue_not_ws c :
  startsValue c = true ->
  isWs c = false /\ Ascii.eqb c "]" = false /\ Ascii.eqb c "}" = false
  /\ Ascii.eqb c JsString.LF = false.
Proof.
  destruct c as [[] [] [] [] [] [] [] []]; intros H;
    try discriminate H; repeat split; reflexivity.
Qed.

Lemma digit_or_minus_is_no_keyword c :
  isDigit c || Ascii.eqb c "-" = true ->
  Ascii.eqb c "[" = false /\ Ascii.eqb c "{" = false
  /\ Ascii.eqb c dquote = false /\ Ascii.eqb c "t" = false
  /\ Ascii.eqb c "f" = false /\ Ascii.eqb c "n" = false.
Proof.
  destruct c as [[] [] [] [] [] [] [] []]; intros H;
    try discriminate H; repeat split; reflexivity.
Qed.

(** *** Numbers *)

Lemma isNumber_canonical x : isNumber x = true <-> canonical x.
Proof.
  destruct x as [negative m e|negative]; simpl; [|split; auto].
  rewrite !andb_true_iff, orb_true_iff, !Z.leb_le, Z.ltb_lt, Z.eqb_eq.
  tauto.
Qed.

Lemma stringifyNumber_head x :
  isNumber x = true ->
  exists c s, stringifyNumber x = String c s /\ startsValue c = true.
Proof.
  intros N. apply isNumber_canonical in N.
  destruct x as [negative m e|negative].
  - destruct (toString_text negative m e N) as [[c [t [E D]]] _].
    exists c, t. split; [exact E|]. unfold startsValue.
    apply orb_true_iff in D. destruct D as [D | D]; rewrite D.
    + reflexivity.
    + destruct (isDigit c); reflexivity.
  - eexists; eexists; split; reflexivity.
Qed.

End JsonText.

Section JsonRoundTrip.

Import JSON JsonFacts.

(** *** Values *)

Lemma stringify_head v :
  isValue v = true ->
  exists c s, stringify v = String c s /\ startsValue c = true.
Proof.
  destruct v as [|[]|x|s|items|members]; intros V.
  - eexists; eexists; split; reflexivity.
  - eexists; eexists; split; reflexivity.
  - eexists; eexists; split; reflexivity.
  - apply stringifyNumber_head. exact V.
  - eexists; eexists; split; reflexivity.
  - rewrite stringify_arr. eexists; eexists; split; reflexivity.
  - rewrite stringify_obj. eexists; eexists; split; reflexivity.
Qed.

Lemma skipWs_value v rest :
  isValue v = true -> skipWs (stringify v ++ rest) = stringify v ++ rest.
Proof.
  intros V. destruct (stringify_head v V) as [c [s [E H]]]. rewrite E. simpl.
  destruct (startsValue_not_ws c H) as [-> _]. reflexivity.
Qed.

Lemma substring_whole s : String.substring 0 (String.length s) s = s.
Proof. induction s as [|c s IH]; simpl; [reflexivity | rewrite IH; reflexivity]. Qed.

Lemma parseValue_null fuel rest :
  parseValue (S fuel) ("null" ++ rest) = Some (JNull, rest).
Proof.
  simpl. unfold stripPrefix. simpl. rewrite prefix_empty.
  rewrite Nat.sub_0_r, substring_whole. reflexivity.
Qed.

Lemma parseValue_true fuel rest :
  parseValue (S fuel) ("true" ++ rest) = Some (JBool true, rest).
Proof.
  simpl. unfold stripPrefix. simpl. rewrite prefix_empty.
  rewrite Nat.sub_0_r, substring_whole. reflexivity.
Qed.

Lemma parseValue_false fuel rest :
  parseValue (S fuel) ("false" ++ rest) = Some (JBool false, rest).
Proof.
  simpl. unfold stripPrefix. simpl. rewrite prefix_empty.
  rewrite Nat.sub_0_r, substring_whole. reflexivity.
Qed.

Lemma parseValue_number fuel x rest :
  isNumber x = true -> plain x = true -> endsNumber rest = true ->
  parseValue (S fuel) (stringifyNumber x ++ rest) = Some (JNum x, rest).
Proof.
  intros N P H. apply isNumber_canonical in N.
  pose proof (parseNumber_toString x rest N P H) as K.
  destruct x as [negative m e|negative]; [|discriminate P].
  change (stringifyNumber (Number.Finite negative m e))
    with (Number.toString (Number.Finite negative m e)).
  destruct (toString_text negative m e N) as [[c [s [E D]]] _].
  rewrite E in *.
  change (String c s ++ rest) with (String c (s ++ rest)) in *.
  assert (V : startsValue c = true).
  { unfold startsValue. apply orb_true_iff in D.
    destruct D as [D | D]; rewrite D; [reflexivity|].
    destruct (isDigit c); reflexivity. }
  destruct (startsValue_not_ws c V) as [W _].
  destruct (digit_or_minus_is_no_keyword c D) as [A [B [C [T [F Nn]]]]].
  cbn [parseValue skipWs]. rewrite W, A, B, C, T, F, Nn. exact K.
Qed.

Lemma parseValue_string fuel s rest :
  isString s = true ->
  parseValue (S fuel) (quote s ++ rest) = Some (JStr s, rest).
Proof.
  intros S. apply String.eqb_eq in S.
  rewrite quote_append. cbn [parseValue skipWs].
  change (isWs dquote) with false. cbv iota.
  change (Ascii.eqb dquote "[") with false.
  change (Ascii.eqb dquote "{") with false.
  change (Ascii.eqb dquote dquote) with true. cbv iota.
  rewrite parseChars_escape, S. reflexivity.
Qed.

End JsonRoundTrip.

Section JsonValues.

Import JSON JsonFacts.

(** One step of each of the three mutually recursive readers. *)
Lemma parseValue_array f r :
  parseValue (S f) (String "[" r)
  = match skipWs r with
    | EmptyString => None
    | String c1 r' =>
        if Ascii.eqb c1 "]" then Some (JArr [], r')
        else match parseElems f r with
             | Some (l, r'') => Some (JArr l, r'')
             | None => None
             end
    end.
Proof. reflexivity. Qed.

Lemma parseValue_object f r :
  parseValue (S f) (String "{" r)
  = match skipWs r with
    | EmptyString => None
    | String c1 r' =>
        if Ascii.eqb c1 "}" then Some (JObj [], r')
        else match parseMembers f r [] with
             | Some (l, r'') => Some (JObj l, r'')
             | None => None
             end
    end.
Proof. reflexivity. Qed.

Lemma parseElems_step f s :
  parseElems (S f) s
  = match parseValue f s with
    | Some (v, r) =>
        match skipWs r with
        | String c r' =>
            if Ascii.eqb c "," then
              match parseElems f r' with
              | Some (l, r'') => Some (v :: l, r'')
              | None => None
              end
            else if Ascii.eqb c "]" then Some ([v], r')
            else None
        | EmptyString => None
        end
    | None => None
    end.
Proof. reflexivity. Qed.

Lemma parseMembers_step f k tail acc :
  isString k = true ->
  parseMembers (S f) (quote k ++ String ":" tail) acc
  = match parseValue f tail with
    | Some (v, r3) =>
        match skipWs r3 with
        | String d r4 =>
            if Ascii.eqb d "," then parseMembers f r4 (setMember k v acc)
            else if Ascii.eqb d "}" then Some (setMember k v acc, r4)
            else None
        | EmptyString => None
        end
    | None => None
    end.
Proof.
  intros K. apply String.eqb_eq in K.
  rewrite quote_append. cbn [parseMembers skipWs].
  change (isWs dquote) with false. cbv iota.
  change (Ascii.eqb dquote dquote) with true. cbv iota.
  rewrite parseChars_escape, K. reflexivity.
Qed.

Lemma items_tail_append r rest :
  match r with
  | [] => "]"
  | _ => String "," (stringifyItems r)
  end ++ rest
  = match r with
    | [] => String "]" rest
    | _ => String "," (stringifyItems r ++ rest)
    end.
Proof. destruct r; reflexivity. Qed.

Lemma members_tail_append (r : list (string * json)) rest :
  match r with
  | [] => "}"
  | _ => String "," (stringifyMembers r)
  end ++ rest
  = match r with
    | [] => String "}" rest
    | _ => String "," (stringifyMembers r ++ rest)
    end.
Proof. destruct r; reflexivity. Qed.

Lemma readBack_items items :
  Forall readBack items ->
  forallb isValue items = true ->
  forallb plainNumbers items = true ->
  items <> [] ->
  forall fuel rest,
    (sizeItems items <= fuel)%nat ->
    parseElems fuel (stringifyItems items ++ rest) = Some (items, rest).
Proof.
  induction 1 as [|x r Hx Hr IH]; intros V P NE fuel rest F; [congruence|].
  simpl in V. apply andb_prop in V. destruct V as [Vx Vr].
  simpl in P. apply andb_prop in P. destruct P as [Px Pr].
  simpl in F. destruct fuel as [|f]; [lia|].
  rewrite parseElems_step. cbn [stringifyItems].
  rewrite string_app_assoc, items_tail_append.
  destruct r as [|y r'].
  - rewrite (Hx Vx Px f (String "]" rest)); [|lia|reflexivity]. reflexivity.
  - rewrite (Hx Vx Px f (String "," (stringifyItems (y :: r') ++ rest)));
      [|lia|reflexivity].
    cbn [skipWs]. change (isWs ",") with false. cbv iota.
    change (Ascii.eqb "," ",") with true. cbv iota.
    rewrite (IH Vr Pr); [reflexivity | discriminate | lia].
Qed.

Lemma readBack_members members :
  Forall (fun kv => readBack (snd kv)) members ->
  forallb (fun kv => isString (fst kv) && isValue (snd kv)) members = true ->
  forallb (fun kv => plainNumbers (snd kv)) members = true ->
  members <> [] ->
  forall acc fuel rest,
    (sizeMembers members <= fuel)%nat ->
    ordered 0 (map fst (acc ++ members)%list) = true ->
    parseMembers fuel (stringifyMembers members ++ rest) acc
    = Some ((acc ++ members)%list, rest).
Proof.
  induction 1 as [|[k x] r Hx Hr IH]; intros V P NE acc fuel rest F D;
    [congruence|].
  simpl in V. apply andb_prop in V. destruct V as [Vx Vr].
  apply andb_prop in Vx. destruct Vx as [Vk Vx].
  simpl in P. apply andb_prop in P. destruct P as [Px Pr].
  simpl in F. destruct fuel as [|f]; [lia|].
  cbn [stringifyMembers].
  rewrite string_app_assoc. cbn [append].
  rewrite string_app_assoc, members_tail_append.
  rewrite (parseMembers_step _ _ _ _ Vk).
  assert (Fresh : setMember k x acc = (acc ++ [(k, x)])%list).
  { apply setMember_fresh.
    apply (ordered_prefix _ 0 (map fst r)).
    rewrite <- app_assoc. rewrite map_app in D. exact D. }
  assert (D' : ordered 0 (map fst ((acc ++ [(k, x)]) ++ r)%list) = true).
  { rewrite <- app_assoc. exact D. }
  simpl in Hx.
  destruct r as [|y r'].
  - rewrite (Hx Vx Px f (String "}" rest)); [|lia|reflexivity].
    cbn [skipWs]. change (isWs "}") with false. cbv iota.
    change (Ascii.eqb "}" ",") with false.
    change (Ascii.eqb "}" "}") with true. cbv iota.
    rewrite Fresh. reflexivity.
  - rewrite (Hx Vx Px f (String "," (stringifyMembers (y :: r') ++ rest)));
      [|lia|reflexivity].
    cbn [skipWs]. change (isWs ",") with false. cbv iota.
    change (Ascii.eqb "," ",") with true. cbv iota.
    rewrite Fresh.
    rewrite (IH Vr Pr); [|discriminate|lia|exact D'].
    rewrite <- app_assoc. reflexivity.
Qed.

Lemma readBack_all v : readBack v.
Proof.
  induction v using json_induction; unfold readBack; intros V P fuel rest F E.
  - destruct fuel; [simpl in F; lia|]. apply parseValue_null.
  - destruct fuel; [simpl in F; lia|].
    destruct b; [apply parseValue_true | apply parseValue_false].
  - destruct fuel; [simpl in F; lia|]. apply parseValue_number; assumption.
  - destruct fuel; [simpl in F; lia|]. apply parseValue_string. exact V.
  - rewrite size_arr in F. destruct fuel as [|f]; [lia|].
    rewrite stringify_arr. cbn [append]. rewrite parseValue_array.
    destruct items as [|x r].
    + reflexivity.
    + assert (Vx : isValue x = true).
      { simpl in V. apply andb_prop in V. exact (proj1 V). }
      pose proof (skipWs_value x
                    (match r with
                     | [] => String "]" rest
                     | _ => String "," (stringifyItems r ++ rest)
                     end) Vx) as S.
      cbn [stringifyItems]. rewrite string_app_assoc, items_tail_append.
      rewrite S.
      destruct (stringify_head x Vx) as [c [s [Hc Hs]]].
      rewrite Hc at 1. cbn [append].
      destruct (startsValue_not_ws c Hs) as [_ [-> _]].
      pose proof (readBack_items (x :: r) H V P ltac:(discriminate) f rest
                    ltac:(lia)) as R.
      cbn [stringifyItems] in R.
      rewrite string_app_assoc, items_tail_append in R.
      rewrite R. reflexivity.
  - rewrite size_obj in F. destruct fuel as [|f]; [lia|].
    rewrite stringify_obj. cbn [append]. rewrite parseValue_object.
    simpl in V. apply andb_prop in V. destruct V as [D V].
    destruct members as [|[k x] r].
    + reflexivity.
    + pose proof (readBack_members ((k, x) :: r) H V P ltac:(discriminate)
                    [] f rest ltac:(lia)) as R.
      rewrite R by exact D.
      cbn [stringifyMembers]. rewrite string_app_assoc, quote_append.
      cbn [skipWs]. change (isWs dquote) with false. cbv iota.
      change (Ascii.eqb dquote "}") with false. reflexivity.
Qed.

(** The depth of a value is at most the length of its text. *)
Lemma size_le_length v :
  isValue v = true -> (size v <= String.length (stringify v))%nat.
Proof.
  induction v using json_induction; intros V.
  - simpl. lia.
  - destruct b; simpl; lia.
  - destruct (stringify_head (JNum n) V) as [c [s [E _]]].
    rewrite E. simpl. lia.
  - simpl. lia.
  - rewrite size_arr, stringify_arr. simpl String.length. apply le_n_S.
    simpl in V.
    induction H as [|x r Hx Hr IH]; [simpl; lia|].
    simpl in V. apply andb_prop in V. destruct V as [Vx Vr].
    cbn [sizeItems stringifyItems]. rewrite string_length_append.
    specialize (Hx Vx). specialize (IH Vr).
    destruct r; simpl in *; lia.
  - rewrite size_obj, stringify_obj. simpl String.length. apply le_n_S.
    simpl in V. apply andb_prop in V. destruct V as [_ V].
    induction H as [|[k x] r Hx Hr IH]; [simpl; lia|].
    simpl in V. apply andb_prop in V. destruct V as [Vx Vr].
    apply andb_prop in Vx. destruct Vx as [_ Vx].
    cbn [sizeMembers stringifyMembers]. simpl in Hx.
    specialize (Hx Vx). specialize (IH Vr).
    rewrite !string_length_append. simpl.
    destruct r; simpl in *; lia.
Qed.

(** [JSON.parse(JSON.stringify(v))] gives [v] back, when the numbers of
    [v] are finite and none is the negative zero. *)
Lemma parse_stringify v :
  isValue v = true -> plainNumbers v = true -> parse (stringify v) = Some v.
Proof.
  intros V P. unfold parse.
  pose proof (readBack_all v V P (S (String.length (stringify v))) ""
                ltac:(pose proof (size_le_length v V); lia) eq_refl) as R.
  rewrite string_app_nil_r in R. rewrite R. reflexivity.
Qed.

End JsonValues.

Section JsonParsed.

Import JSON JsonFacts.

(** *** What [parse] gives is a value *)

Lemma parseNumber_gives_number s v r :
  parseNumber s = Some (v, r) -> isValue v = true.
Proof.
  unfold parseNumber.
  destruct (match s with
            | "" => (false, s)
            | String c r0 => if Ascii.eqb c "-" then (true, r0) else (false, s)
            end) as [negative s1].
  destruct (lexDecimal s1) as [[[d x] rest]|]; [|discriminate].
  intros [= <- _]. apply isNumber_canonical. apply ofDecimal_canonical.
Qed.

Lemma isString_pairUp s : isString (pairUp s) = true.
Proof. apply String.eqb_eq. apply pairUp_idem. Qed.

Lemma parsed_values fuel :
  (forall s v r, parseValue fuel s = Some (v, r) -> isValue v = true)
  /\ (forall s l r, parseElems fuel s = Some (l, r) -> forallb isValue l = true)
  /\ (forall s acc l r,
         parseMembers fuel s acc = Some (l, r) ->
         goodMembers acc -> goodMembers l).
Proof.
  induction fuel as [|f [IHv [IHe IHm]]].
  - repeat split; intros; discriminate.
  - split; [|split].
    + intros s v r H. cbn [parseValue] in H.
      destruct (skipWs s) as [|c t]; [discriminate|].
      destruct (Ascii.eqb c "[").
      { destruct (skipWs t) as [|c1 t1]; [discriminate|].
        destruct (Ascii.eqb c1 "]"); [inversion H; reflexivity|].
        destruct (parseElems f t) as [[l r']|] eqn:E; [|discriminate].
        inversion H; subst. simpl. apply (IHe _ _ _ E). }
      destruct (Ascii.eqb c "{").
      { destruct (skipWs t) as [|c1 t1]; [discriminate|].
        destruct (Ascii.eqb c1 "}"); [inversion H; reflexivity|].
        destruct (parseMembers f t []) as [[l r']|] eqn:E; [|discriminate].
        inversion H; subst.
        destruct (IHm _ _ _ _ E) as [D F]; [split; reflexivity|].
        simpl. rewrite F, D. reflexivity. }
      destruct (Ascii.eqb c dquote).
      { destruct (parseChars t) as [[str r']|]; [|discriminate].
        inversion H; subst. apply isString_pairUp. }
      destruct (Ascii.eqb c "t").
      { destruct (stripPrefix "rue" t); [|discriminate]. inversion H; reflexivity. }
      destruct (Ascii.eqb c "f").
      { destruct (stripPrefix "alse" t); [|discriminate]. inversion H; reflexivity. }
      destruct (Ascii.eqb c "n").
      { destruct (stripPrefix "ull" t); [|discriminate]. inversion H; reflexivity. }
      exact (parseNumber_gives_number _ _ _ H).
    + intros s l r H. rewrite parseElems_step in H.
      destruct (parseValue f s) as [[v r1]|] eqn:E; [|discriminate].
      pose proof (IHv _ _ _ E) as V.
      destruct (skipWs r1) as [|c t]; [discriminate|].
      destruct (Ascii.eqb c ",").
      * destruct (parseElems f t) as [[l' r']|] eqn:E'; [|discriminate].
        inversion H; subst. simpl. rewrite V. apply (IHe _ _ _ E').
      * destruct (Ascii.eqb c "]"); [|discriminate].
        inversion H; subst. simpl. rewrite V. reflexivity.
    + intros s acc l r H G. cbn [parseMembers] in H.
      destruct (skipWs s) as [|q t]; [discriminate|].
      destruct (Ascii.eqb q dquote); [|discriminate].
      destruct (parseChars t) as [[k r1]|]; [|discriminate].
      destruct (skipWs r1) as [|c r2]; [discriminate|].
      destruct (Ascii.eqb c ":"); [|discriminate].
      destruct (parseValue f r2) as [[v r3]|] eqn:E; [|discriminate].
      pose proof (IHv _ _ _ E) as V.
      destruct (skipWs r3) as [|d r4]; [discriminate|].
      destruct (Ascii.eqb d ",").
      * apply (IHm _ _ _ _ H).
        apply setMember_good; [apply isString_pairUp | exact V | exact G].
      * destruct (Ascii.eqb d "}"); [|discriminate].
        inversion H; subst.
        apply setMember_good; [apply isString_pairUp | exact V | exact G].
Qed.

Lemma parse_gives_value text v : parse text = Some v -> isValue v = true.
Proof.
  unfold parse.
  destruct (parseValue (S (String.length text)) text) as [[w rest]|] eqn:E;
    [|discriminate].
  destruct (skipWs rest); [|discriminate].
  intros [= <-]. exact (proj1 (parsed_values _) _ _ _ E).
Qed.

(** *** A printed value is one line and is not blank *)

Lemma oneLine_append a b : oneLine a -> oneLine b -> oneLine (a ++ b).
Proof.
  unfold oneLine, JsString.nl. intros A B.
  rewrite includes_char_append, A, B. reflexivity.
Qed.

Lemma oneLine_cons c s :
  Ascii.eqb c JsString.LF = false -> oneLine s -> oneLine (String c s).
Proof.
  intros C S. unfold oneLine in *. cbn [JsString.includes]. rewrite S.
  unfold JsString.nl. cbn [String.prefix].
  destruct (ascii_dec JsString.LF c) as [E|E]; [|reflexivity].
  subst c. discriminate C.
Qed.

Lemma escapeChar_oneLine c : oneLine (escapeChar c).
Proof.
  destruct c as [[] [] [] [] [] [] [] []]; reflexivity.
Qed.

Lemma hexDigit_not_LF n :
  (n < 16)%N -> Ascii.eqb (hexDigit n) JsString.LF = false.
Proof.
  intros B. unfold hexDigit. apply Ascii.eqb_neq. intros E.
  apply (f_equal N_of_ascii) in E. change (N_of_ascii JsString.LF) with 10%N in E.
  destruct (n <? 10)%N; rewrite N_ascii_embedding in E by lia; lia.
Qed.

Lemma unicodeEscapeOf_oneLine n :
  (n < 65536)%N -> oneLine (unicodeEscapeOf n).
Proof.
  intros B. unfold unicodeEscapeOf.
  apply oneLine_cons; [reflexivity|]. apply oneLine_cons; [reflexivity|].
  apply oneLine_cons;
    [apply hexDigit_not_LF; apply N.Div0.div_lt_upper_bound; lia|].
  repeat (apply oneLine_cons; [apply hexDigit_not_LF; apply N.mod_lt; lia|]).
  reflexivity.
Qed.

Lemma surrogateUnit_bound b c : (surrogateUnit b c < 65536)%N.
Proof.
  unfold surrogateUnit.
  pose proof (N_ascii_bounded b). pose proof (N_ascii_bounded c). lia.
Qed.

Lemma escape_oneLine_length n :
  forall s, (String.length s <= n)%nat -> oneLine (escape s).
Proof.
  induction n as [|n IH]; intros s L.
  - destruct s; [reflexivity | simpl in L; lia].
  - destruct s as [|a r]; [reflexivity|]. simpl in L.
    assert (Plain : oneLine (escapeChar a ++ escape r)).
    { apply oneLine_append; [apply escapeChar_oneLine | apply IH; lia]. }
    destruct r as [|b [|c r']]; try exact Plain.
    cbn [escape]. destruct (isSurrogate a b c); [|exact Plain].
    apply oneLine_append;
      [apply unicodeEscapeOf_oneLine, surrogateUnit_bound|].
    apply IH. simpl in L. lia.
Qed.

Lemma escape_oneLine s : oneLine (escape s).
Proof. apply (escape_oneLine_length (String.length s)). lia. Qed.

Lemma quote_oneLine s : oneLine (quote s).
Proof.
  unfold quote. apply oneLine_cons; [reflexivity|].
  apply oneLine_append; [apply escape_oneLine | reflexivity].
Qed.

Lemma numberText_oneLine s : numberText s = true -> oneLine s.
Proof.
  induction s as [|c s IH]; [reflexivity|]. simpl. intros H.
  apply andb_prop in H. destruct H as [C S].
  apply oneLine_cons; [|exact (IH S)].
  destruct c as [[] [] [] [] [] [] [] []]; try discriminate C; reflexivity.
Qed.

Lemma stringifyNumber_oneLine x :
  isNumber x = true -> oneLine (stringifyNumber x).
Proof.
  intros N. apply isNumber_canonical in N.
  destruct x as [negative m e|negative]; [|reflexivity].
  apply numberText_oneLine. exact (proj2 (toString_text negative m e N)).
Qed.

Lemma stringify_oneLine v : isValue v = true -> oneLine (stringify v).
Proof.
  induction v using json_induction; intros V.
  - reflexivity.
  - destruct b; reflexivity.
  - apply stringifyNumber_oneLine. exact V.
  - apply quote_oneLine.
  - rewrite stringify_arr. apply oneLine_cons; [reflexivity|].
    simpl in V.
    induction H as [|x r Hx Hr IH]; [reflexivity|].
    simpl in V. apply andb_prop in V. destruct V as [Vx Vr].
    cbn [stringifyItems]. apply oneLine_append; [exact (Hx Vx)|].
    destruct r; [reflexivity|].
    apply oneLine_cons; [reflexivity | exact (IH Vr)].
  - rewrite stringify_obj. apply oneLine_cons; [reflexivity|].
    simpl in V. apply andb_prop in V. destruct V as [_ V].
    induction H as [|[k x] r Hx Hr IH]; [reflexivity|].
    simpl in V. apply andb_prop in V. destruct V as [Vx Vr].
    apply andb_prop in Vx. destruct Vx as [_ Vx].
    cbn [stringifyMembers]. simpl in Hx.
    apply oneLine_append; [apply quote_oneLine|].
    apply oneLine_append; [apply oneLine_cons; [reflexivity | exact (Hx Vx)]|].
    destruct r; [reflexivity|].
    apply oneLine_cons; [reflexivity | exact (IH Vr)].
Qed.

Lemma startsValue_not_blank c s :
  startsValue c = true -> FileUtils.isBlank (String c s) = false.
Proof.
  intros H.
  destruct s as [|d [|e r]];
    destruct c as [[] [] [] [] [] [] [] []]; try discriminate H; reflexivity.
Qed.

Lemma stringify_not_blank v :
  isValue v = true -> FileUtils.isBlank (stringify v) = false.
Proof.
  intros V. destruct (stringify_head v V) as [c [s [E H]]]. rewrite E.
  apply startsValue_not_blank. exact H.
Qed.

End JsonParsed.


(** ** The file stager *)

Section Lines.

Import JSON JsonFacts FileUtils.

Lemma split_oneLine s : oneLine s -> JsString.split JsString.LF s = [s].
Proof.
  unfold oneLine, JsString.nl. induction s as [|x s IH]; [reflexivity|].
  cbn [JsString.includes String.prefix JsString.split]. intros H.
  apply orb_false_elim in H. destruct H as [H1 H2].
  destruct (Ascii.eqb_spec x JsString.LF) as [E|E].
  - subst x. destruct (ascii_dec JsString.LF JsString.LF) as [_|N];
      [|contradiction].
    rewrite prefix_empty in H1. discriminate H1.
  - rewrite (IH H2). reflexivity.
Qed.

Lemma split_pieces_oneLine s :
  Forall oneLine (JsString.split JsString.LF s).
Proof.
  induction s as [|x s IH]; simpl.
  - constructor; [reflexivity | constructor].
  - destruct (Ascii.eqb x JsString.LF) eqn:E.
    + constructor; [reflexivity | exact IH].
    + destruct (split_nonempty JsString.LF s) as [p [ps S]].
      rewrite S in *. inversion IH; subst.
      constructor; [apply oneLine_cons; assumption | assumption].
Qed.

Lemma join_cons sep x y r :
  JsString.join sep (x :: y :: r) = x ++ sep ++ JsString.join sep (y :: r).
Proof. reflexivity. Qed.

(** Joining with line breaks and splitting again gives the lines back,
    the first one split wherever it holds a line break itself. *)
Lemma split_join first rest :
  Forall oneLine rest ->
  JsString.split JsString.LF (JsString.join JsString.nl (first :: rest))
  = (JsString.split JsString.LF first ++ rest)%list.
Proof.
  intros H. revert first. induction H as [|y r Hy Hr IH]; intros first.
  - simpl. symmetry. apply app_nil_r.
  - rewrite join_cons. unfold JsString.nl at 1. cbn [append].
    rewrite split_at_separator, IH, (split_oneLine y Hy). reflexivity.
Qed.

Lemma nonBlankLines_oneLine content : Forall oneLine (nonBlankLines content).
Proof.
  unfold nonBlankLines.
  pose proof (split_pieces_oneLine content) as H.
  induction H as [|p ps Hp Hps IH]; simpl; [constructor|].
  destruct (negb (isBlank p)); [constructor; assumption | assumption].
Qed.

Lemma lowerChar_LF c :
  Ascii.eqb c JsString.LF = false ->
  Ascii.eqb (JsString.lowerChar c) JsString.LF = false.
Proof.
  destruct c as [[] [] [] [] [] [] [] []]; intros H;
    try discriminate H; reflexivity.
Qed.

Lemma oneLine_inv c s :
  oneLine (String c s) -> Ascii.eqb c JsString.LF = false /\ oneLine s.
Proof.
  unfold oneLine, JsString.nl. cbn [JsString.includes String.prefix].
  intros H. apply orb_false_elim in H. destruct H as [H1 H2].
  split; [|exact H2].
  destruct (Ascii.eqb_spec c JsString.LF) as [E|E]; [|reflexivity].
  subst c. destruct (ascii_dec JsString.LF JsString.LF) as [_|N];
    [|contradiction].
  rewrite prefix_empty in H1. discriminate H1.
Qed.

Lemma toLowerCase_oneLine s : oneLine s -> oneLine (JsString.toLowerCase s).
Proof.
  induction s as [|c s IH]; [intros; reflexivity|].
  intros H. apply oneLine_inv in H. destruct H as [H1 H2].
  simpl. apply oneLine_cons; [apply lowerChar_LF; exact H1 | apply IH; exact H2].
Qed.

Lemma metaLine_oneLine name : oneLine name -> oneLine (metaLine name).
Proof.
  intros H. unfold metaLine.
  repeat (apply oneLine_append; [try reflexivity; try exact H|]).
  reflexivity.
Qed.

(** *** Valid object types *)

Lemma lookup_key_in k table v :
  ObjectTypes.lookup k table = Some v -> In k (map fst table).
Proof.
  induction table as [|[k' v'] table IH]; simpl; [discriminate|].
  destruct (String.eqb_spec k k') as [E|E]; [intros _; left; auto | auto].
Qed.

Lemma valid_type_metaLine objectType :
  ObjectTypes.isValidObjectType objectType = true ->
  let name := JsString.toLowerCase objectType in
  oneLine (metaLine name)
  /\ isBlank (metaLine name) = false
  /\ JSON.parse (metaLine name)
     = Some (JObj [("meta", JObj [("objectname", JStr name)])]).
Proof.
  unfold ObjectTypes.isValidObjectType, ObjectTypes.getObjectType.
  destruct (ObjectTypes.lookup _ _) as [v|] eqn:L; [|discriminate].
  intros _. apply lookup_key_in in L. cbv zeta.
  set (name := JsString.toLowerCase objectType) in *. clearbody name.
  vm_compute in L.
  repeat (destruct L as [<- | L];
          [split; [|split]; vm_compute; reflexivity|]).
  destruct L.
Qed.

Lemma parseAll_stringify data :
  forallb isValue data = true -> forallb plainNumbers data = true ->
  parseAll (map stringify data) = Some data.
Proof.
  induction data as [|v r IH]; [reflexivity|]. simpl. intros H P.
  apply andb_prop in H. destruct H as [V R].
  apply andb_prop in P. destruct P as [Pv Pr].
  rewrite (parse_stringify v V Pv), (IH R Pr). reflexivity.
Qed.

Lemma filter_nonblank_stringify data :
  forallb isValue data = true ->
  filter (fun line => negb (isBlank line)) (map stringify data)
  = map stringify data.
Proof.
  induction data as [|v r IH]; [reflexivity|]. simpl. intros H.
  apply andb_prop in H. destruct H as [V R].
  rewrite (stringify_not_blank v V), (IH R). reflexivity.
Qed.

Lemma stringify_lines data :
  forallb isValue data = true -> Forall oneLine (map stringify data).
Proof.
  intros V. apply Forall_forall. intros l Hin. apply in_map_iff in Hin.
  destruct Hin as [x [<- Hx]]. apply stringify_oneLine.
  rewrite forallb_forall in V. exact (V x Hx).
Qed.

Lemma parseJSONL_record_lines data :
  forallb isValue data = true -> forallb plainNumbers data = true ->
  parseJSONL (JsString.join JsString.nl (map stringify data)) = Some data.
Proof.
  intros V P. unfold parseJSONL, nonBlankLines.
  destruct data as [|v r]; [reflexivity|].
  pose proof (stringify_lines (v :: r) V) as L. inversion L as [|? ? Lv Lr]; subst.
  cbn [map]. rewrite split_join by exact Lr.
  rewrite (split_oneLine _ Lv).
  change ([stringify v] ++ map stringify r)%list with (map stringify (v :: r)).
  rewrite (filter_nonblank_stringify _ V). apply parseAll_stringify; assumption.
Qed.

Lemma parseAll_values ls : forall vs,
  parseAll ls = Some vs -> forallb isValue vs = true.
Proof.
  induction ls as [|l r IH]; intros vs H; simpl in H.
  - injection H as <-. reflexivity.
  - destruct (JSON.parse l) as [v|] eqn:E; [|discriminate H].
    destruct (parseAll r) as [ws|]; [|discriminate H].
    injection H as <-. simpl.
    rewrite (parse_gives_value _ _ E), (IH ws eq_refl). reflexivity.
Qed.

(** *** The metadata line *)

Lemma parseValue_space f s : parseValue f (String " " s) = parseValue f s.
Proof. destruct f; reflexivity. Qed.

Lemma metaLine_text name :
  escape name = name ->
  metaLine name
  = String "{"
      (quote "meta"
         ++ String ":"
              (String " "
                 (String "{"
                    (quote "objectname"
                       ++ String ":" (String " " (quote name ++ "}}")))))).
Proof.
  intros E. rewrite (quote_append name), E. reflexivity.
Qed.

(** The metadata line of a name that needs no escape is the JSON text of
    [{meta: {objectname: name}}]. *)
Lemma parse_metaLine name :
  escape name = name -> isString name = true ->
  JSON.parse (metaLine name)
  = Some (JObj [("meta", JObj [("objectname", JStr name)])]).
Proof.
  intros E Hs. unfold JSON.parse.
  assert (F : exists f, String.length (metaLine name) = S (S (S (S f)))).
  { unfold metaLine, q. simpl. eexists. reflexivity. }
  destruct F as [f F]. rewrite F, (metaLine_text name E).
  rewrite parseValue_object.
  rewrite quote_append at 1. cbn [skipWs]. change (isWs dquote) with false.
  cbv iota. change (Ascii.eqb dquote "}") with false. cbv iota.
  rewrite (parseMembers_step _ "meta" _ [] eq_refl).
  rewrite parseValue_space, parseValue_object.
  rewrite quote_append at 1. cbn [skipWs]. change (isWs dquote) with false.
  cbv iota. change (Ascii.eqb dquote "}") with false. cbv iota.
  rewrite (parseMembers_step _ "objectname" _ [] eq_refl).
  rewrite parseValue_space, (parseValue_string _ name "}}" Hs).
  reflexivity.
Qed.

(** A string of ASCII characters has no surrogate in it, and its lower
    case is one too. *)
Lemma isAscii_isString s : JsString.isAscii s = true -> isString s = true.
Proof.
  intros A. apply String.eqb_eq.
  induction s as [|c s IH]; [reflexivity|].
  simpl in A. apply andb_prop in A. destruct A as [C A].
  rewrite pairUp_copy, (IH A); [reflexivity|].
  apply N.ltb_lt in C. apply N.eqb_neq. lia.
Qed.

Lemma isAscii_toLowerCase s :
  JsString.isAscii s = true -> JsString.isAscii (JsString.toLowerCase s) = true.
Proof.
  induction s as [|c s IH]; [reflexivity|]. simpl. intros A.
  apply andb_prop in A. destruct A as [C A]. rewrite (IH A), andb_true_r.
  destruct c as [[] [] [] [] [] [] [] []]; try discriminate C; reflexivity.
Qed.

End Lines.

(** *** C2: staging a JSON array *)

Section StagingJson.

Import JSON JsonFacts FileUtils.

Variable parseCSV : string -> json + string.
Variable fs : string -> option string.
Variables (filePath objectType format content : string).
Variable data : list json.

Let name : string := JsString.toLowerCase objectType.

(** The file holds a JSON array, [data] are its records, and the format
    asked for is [json].  The object type is a word of ASCII characters
    none of which [JSON.stringify] would escape: no double quote, no
    backslash, no control character.  The numbers of the records are
    finite doubles, none the negative zero. *)
Hypothesis file_read : fs filePath = Some content.
Hypothesis format_json : JsString.toLowerCase format = "json".
Hypothesis file_is_array : JSON.parse content = Some (JArr data).
Hypothesis type_is_ascii : JsString.isAscii objectType = true.
Hypothesis type_needs_no_escape : escape name = name.
Hypothesis numbers_are_plain : forallb plainNumbers data = true.

(** C2, as it holds.  Staging a JSON array of [n] records whose numbers
    are finite and none the negative zero, for an object type of plain
    ASCII characters, writes [n + 1] lines: the first is the one-line JSON
    object [{"meta": {"objectname": name}}] with the object type in lower
    case, the others are the records in order, one [JSON.stringify] each;
    and reading lines 2 to [n + 1] back as JSON-Lines gives the [n]
    records again, value for value. *)
Theorem staged_json_array_reads_back :
  exists out,
    convertToJSONL parseCSV fs filePath objectType format
    = ([], Returned (replaceExtension filePath, out))
    /\ JsString.split JsString.LF out = metaLine name :: map stringify data
    /\ length (JsString.split JsString.LF out) = S (length data)
    /\ JSON.parse (metaLine name)
       = Some (JObj [("meta", JObj [("objectname", JStr name)])])
    /\ parseByFormat parseCSV
         (JsString.join JsString.nl (tl (JsString.split JsString.LF out)))
         "jsonl"
       = inl (JArr data).
Proof.
  assert (M1 : oneLine (metaLine name)).
  { apply metaLine_oneLine. rewrite <- type_needs_no_escape.
    apply escape_oneLine. }
  assert (M3 : JSON.parse (metaLine name)
               = Some (JObj [("meta", JObj [("objectname", JStr name)])])).
  { apply parse_metaLine; [exact type_needs_no_escape|].
    apply isAscii_isString, isAscii_toLowerCase. exact type_is_ascii. }
  assert (V : forallb isValue data = true).
  { apply parse_gives_value in file_is_array. exact file_is_array. }
  pose proof (stringify_lines data V) as L.
  exists (JsString.join JsString.nl (metaLine name :: map stringify data)).
  assert (S : JsString.split JsString.LF
                (JsString.join JsString.nl (metaLine name :: map stringify data))
              = metaLine name :: map stringify data).
  { rewrite split_join by exact L. rewrite (split_oneLine _ M1). reflexivity. }
  split; [|split; [|split; [|split]]].
  - unfold convertToJSONL, parseImportFile, parseByFormat.
    rewrite file_read, format_json. simpl. rewrite file_is_array. reflexivity.
  - exact S.
  - rewrite S. simpl. rewrite length_map. reflexivity.
  - exact M3.
  - rewrite S. simpl tl. unfold parseByFormat. simpl.
    rewrite parseJSONL_record_lines by assumption. reflexivity.
Qed.

End StagingJson.

Lemma staged_json_array_reads_back_witness :
  SampleFiles.importFs "data/products.json" = Some SampleFiles.productsJson
  /\ JsString.toLowerCase "JSON" = "json"
  /\ JSON.parse SampleFiles.productsJson = Some (JSON.JArr SampleFiles.records)
  /\ JsString.isAscii "Product" = true
  /\ JSON.escape "product" = "product"
  /\ forallb JsonFacts.plainNumbers SampleFiles.records = true
  /\ exists out,
       FileUtils.convertToJSONL SampleFiles.noCsv SampleFiles.importFs
         "data/products.json" "Product" "JSON"
       = ([], Returned ("data/products.jsonl", out))
       /\ JsString.split JsString.LF out
          = [ SampleFiles.quoted "{'meta': {'objectname': 'product'}}";
              SampleFiles.quoted
                "{'id':1,'name':'Basic','price':19.99,'active':true}";
              SampleFiles.quoted
                "{'id':2,'name':'Plus','price':2.5,'active':false}";
              SampleFiles.quoted "{'id':3,'name':'Pro','tags':['a',null]}" ]
       /\ FileUtils.parseJSONL
            (JsString.join JsString.nl (tl (JsString.split JsString.LF out)))
          = Some SampleFiles.records.
Proof.
  assert (H3 : JSON.parse SampleFiles.productsJson
               = Some (JSON.JArr SampleFiles.records))
    by (vm_compute; reflexivity).
  assert (H5 : forallb JsonFacts.plainNumbers SampleFiles.records = true)
    by (vm_compute; reflexivity).
  split; [reflexivity|]. split; [reflexivity|]. split; [exact H3|].
  split; [reflexivity|]. split; [reflexivity|]. split; [exact H5|].
  destruct (staged_json_array_reads_back SampleFiles.noCsv SampleFiles.importFs
              "data/products.json" "Product" "JSON" SampleFiles.productsJson
              SampleFiles.records eq_refl eq_refl H3 eq_refl eq_refl H5)
    as [out [A [B [C [D E]]]]].
  exists out. split; [exact A|]. split.
  - rewrite B. vm_compute. reflexivity.
  - rewrite B. vm_compute. reflexivity.
Defined.

(** C2, where it fails.  A number of the file beyond the largest double is
    read as an infinity, which [JSON.stringify] writes as [null]: the
    record line [{"id":7,"price":null}] is staged, and reading it back
    gives a record whose price is [null], not the record that was read.
    And the object type goes into the first line as it is: with a double
    quote in it, that line is no JSON. *)
Lemma staged_records_are_not_always_read_back :
  JSON.parse SampleFiles.overflowJson
  = Some (JSON.JArr [JSON.JObj [("id", SampleFiles.num 7 0);
                                ("price", JSON.JNum (Number.Infinite false))]])
  /\ (exists out,
        FileUtils.convertToJSONL SampleFiles.noCsv SampleFiles.overflowFs
          "data/overflow.json" "Product" "json"
        = ([], Returned ("data/overflow.jsonl", out))
        /\ JsString.split JsString.LF out
           = [ SampleFiles.quoted "{'meta': {'objectname': 'product'}}";
               SampleFiles.quoted "{'id':7,'price':null}" ]
        /\ FileUtils.parseByFormat SampleFiles.noCsv
             (JsString.join JsString.nl (tl (JsString.split JsString.LF out)))
             "jsonl"
           = inl (JSON.JArr [JSON.JObj [("id", SampleFiles.num 7 0);
                                        ("price", JSON.JNull)]]))
  /\ (exists out,
        FileUtils.convertToJSONL SampleFiles.noCsv SampleFiles.importFs
          "data/products.json" (SampleFiles.quoted "Wid'get") "json"
        = ([], Returned ("data/products.jsonl", out))
        /\ hd "" (JsString.split JsString.LF out)
           = SampleFiles.quoted "{'meta': {'objectname': 'wid'get'}}"
        /\ JSON.parse (hd "" (JsString.split JsString.LF out)) = None).
Proof.
  split; [vm_compute; reflexivity|]. split.
  - eexists. split; [vm_compute; reflexivity|].
    split; vm_compute; reflexivity.
  - eexists. split; [vm_compute; reflexivity|].
    split; vm_compute; reflexivity.
Qed.

(** *** C5: re-staging an exported file *)

Section Restaging.

Import JSON JsonFacts FileUtils.

Variable fs : string -> option string.
Variables (filePath objectType content : string).
Variables (firstLine objectName : string) (rest : list string).

(** The file has a first line that is not blank, it is JSON, and the name
    it carries under [meta_objectName], or else the object type, is a
    string, of ASCII characters. *)
Hypothesis file_read : fs filePath = Some content.
Hypothesis file_lines : nonBlankLines content = firstLine :: rest.
Hypothesis first_line_names :
  objectNameOf firstLine objectType = Some (JStr objectName).
Hypothesis name_is_ascii : JsString.isAscii objectName = true.

(** C5.  Re-staging an exported file for import writes, in place of the
    first line, the text [{"meta": {"objectname": "name"}}] with the name
    in lower case between the quotes, which is the JSON text of the
    import metadata [{meta: {objectname: name}}] when the name needs no
    escape; and after it the lines that followed the first one in the
    input, each byte for byte and in order (lines that are blank are not
    lines of the file for either side).  The name is the one the first
    line carries under [meta_objectName], or the object type asked for
    when it carries none. *)
Theorem restaging_rewrites_only_the_first_line :
  let name := JsString.toLowerCase objectName in
  let dq := String "034"%char "" in
  let first :=
    "{" ++ dq ++ "meta" ++ dq ++ ": {"
        ++ dq ++ "objectname" ++ dq ++ ": " ++ dq ++ name ++ dq ++ "}}" in
  exists out,
    convertExportedFileToImportFormat fs filePath objectType
    = ([], Returned (replaceFirst ".jsonl" "-import.jsonl" filePath, out))
    /\ out = JsString.join JsString.nl (first :: rest)
    /\ JsString.split JsString.LF out
       = (JsString.split JsString.LF first ++ rest)%list
    /\ (oneLine objectName -> JsString.split JsString.LF out = first :: rest)
    /\ (escape name = name ->
        JSON.parse first
        = Some (JObj [("meta", JObj [("objectname", JStr name)])]))
    /\ rest = tl (nonBlankLines content)
    /\ (forall members,
          JSON.parse firstLine = Some (JObj members) ->
          match getMember "meta_objectName" members with
          | Some (JStr s) =>
              objectName
              = if JsString.truthy s then s else JsString.toLowerCase objectType
          | Some _ => True
          | None => objectName = JsString.toLowerCase objectType
          end).
Proof.
  cbv zeta.
  change ("{" ++ String "034" "" ++ "meta" ++ String "034" "" ++ ": {"
              ++ String "034" "" ++ "objectname" ++ String "034" "" ++ ": "
              ++ String "034" "" ++ JsString.toLowerCase objectName
              ++ String "034" "" ++ "}}")
    with (metaLine (JsString.toLowerCase objectName)).
  assert (R : Forall oneLine rest).
  { pose proof (nonBlankLines_oneLine content) as H. rewrite file_lines in H.
    inversion H; assumption. }
  eexists. split; [|split; [reflexivity|split; [|split; [|split; [|split]]]]].
  - unfold convertExportedFileToImportFormat.
    rewrite file_read, file_lines, first_line_names. reflexivity.
  - apply split_join. exact R.
  - intros H. rewrite split_join by exact R.
    rewrite (split_oneLine (metaLine (JsString.toLowerCase objectName))).
    + reflexivity.
    + apply metaLine_oneLine, toLowerCase_oneLine. exact H.
  - intros E. apply parse_metaLine; [exact E|].
    apply isAscii_isString, isAscii_toLowerCase. exact name_is_ascii.
  - rewrite file_lines. reflexivity.
  - intros members Pm. pose proof first_line_names as H.
    unfold objectNameOf in H. rewrite Pm in H.
    destruct (getMember "meta_objectName" members) as [[| | |s| |]|];
      try exact I.
    + simpl in H. destruct (JsString.truthy s); congruence.
    + congruence.
Qed.

End Restaging.

Lemma restaging_rewrites_only_the_first_line_witness :
  SampleFiles.exportFs "product-job-9.jsonl" = Some SampleFiles.exportedFile
  /\ exists out,
       FileUtils.convertExportedFileToImportFormat SampleFiles.exportFs
         "product-job-9.jsonl" "widget"
       = ([], Returned ("product-job-9-import.jsonl", out))
       /\ JsString.split JsString.LF out
          = [ SampleFiles.quoted "{'meta': {'objectname': 'product'}}";
              SampleFiles.quoted "{'id':1,'name':'Basic'}";
              SampleFiles.quoted "{'id':2, 'name':'Plus', 'price':1e999}" ]
       /\ JSON.parse (hd "" (JsString.split JsString.LF out))
          = Some (JSON.JObj
                    [("meta", JSON.JObj [("objectname", JSON.JStr "product")])]).
Proof.
  split; [reflexivity|].
  destruct (restaging_rewrites_only_the_first_line SampleFiles.exportFs
              "product-job-9.jsonl" "widget" SampleFiles.exportedFile
              (hd "" SampleFiles.exportedLines) "Product"
              (firstn 2 (tl SampleFiles.exportedLines))
              eq_refl ltac:(vm_compute; reflexivity)
              ltac:(vm_compute; reflexivity) eq_refl)
    as [out [A [B [C [D [E [F G]]]]]]].
  exists out. split; [exact A|].
  rewrite (D eq_refl). split; [reflexivity|].
  exact (E eq_refl).
Defined.

(* ================================================================== *)
(** * Further properties of the code                                   *)
(* ================================================================== *)

(** ** The pollers *)

(** *** The import poller on a top-level [failed] status *)

Section ImportFailedStatus.

Import JobManager.

Variable jobId : string.
Variable options : Options.
Variable client : nat -> tick.
Variable startTime : Z.
Variables (fuel n : nat) (now : Z).
Variable st : JobStatus.

Hypothesis in_time : now - startTime <= timeout options * 1000.
Hypothesis answered : snd (reply (client n)) = Returned st.
Hypothesis failed : JsString.toLowerCase (js_status st) = "failed".

Let r : run :=
  loop "Import" (importOnStatus jobId options) options client startTime
       (S fuel) n now.

Let partly (job : ImportJob) : bool :=
  ((ij_status job =? "PartialCompleted") || (ij_status job =? "Completed"))%string.

Lemma import_failed_status_react :
  react "Import" (importOnStatus jobId options) (Returned st)
  = if existsb partly (importJobsOf st)
    then ([(Warning, "Import job completed with partial success")], Return st)
    else ((fst (ErrorHandler.handleJobFailure st options) ++ [])%list,
          Throw (mkError "Job failed" None)).
Proof.
  simpl. unfold importOnStatus. rewrite failed. simpl.
  unfold importJobsOf, JsString.some, partly.
  destruct (existsb _ _); reflexivity.
Qed.

(** X1.  On a status that says [failed] in any casing, the import poller
    looks at the import jobs only: it resolves, handing back the status
    under a warning, as soon as one import job is [PartialCompleted] or
    [Completed]; when none is, it ends with the thrown error [Job failed];
    either way after this one request. *)
Theorem import_failed_status_resolves_on_partial_success :
  ((exists job, In job (importJobsOf st)
                /\ (ij_status job = "PartialCompleted"
                    \/ ij_status job = "Completed")) ->
   ended r = Resolved st
   /\ In (Warning, "Import job completed with partial success") (printed r))
  /\ ((forall job, In job (importJobsOf st) ->
         ij_status job <> "PartialCompleted" /\ ij_status job <> "Completed") ->
      ended r = Failed (mkError "Job failed" None))
  /\ requests r = 1%nat.
Proof.
  assert (R : r = addRequest
                (addLog (fst (reply (client n))
                         ++ fst (react "Import" (importOnStatus jobId options)
                                       (Returned st)))%list
                   match snd (react "Import" (importOnStatus jobId options)
                                    (Returned st)) with
                   | Return s => mkRun [] (Resolved s) (now + latency (client n)) 0
                   | Throw e => mkRun [] (Failed e) (now + latency (client n)) 0
                   | Exit code => mkRun [] (ProcessExit code) (now + latency (client n)) 0
                   | Sleep ms =>
                       loop "Import" (importOnStatus jobId options) options
                            client startTime fuel (S n)
                            (now + latency (client n) + ms + jitter (client n))
                   end)).
  { unfold r. rewrite loop_in_time.
    2:{ unfold timedOut. apply Z.ltb_ge. exact in_time. }
    cbv zeta. rewrite answered. reflexivity. }
  rewrite R, import_failed_status_react.
  split; [|split].
  - intros [job [Hin Hs]].
    assert (E : existsb partly (importJobsOf st) = true).
    { apply existsb_exists. exists job. split; [exact Hin|].
      unfold partly. destruct Hs as [-> | ->]; reflexivity. }
    rewrite E. split; [reflexivity|]. simpl.
    apply in_or_app. left. apply in_or_app. right. left. reflexivity.
  - intros Hall.
    destruct (existsb partly (importJobsOf st)) eqn:E; [|reflexivity].
    apply existsb_exists in E. destruct E as [job [Hin Hp]].
    destruct (Hall job Hin) as [H1 H2]. unfold partly in Hp.
    apply orb_prop in Hp. destruct Hp as [Hp|Hp]; apply String.eqb_eq in Hp;
      contradiction.
  - destruct (existsb partly (importJobsOf st)); reflexivity.
Qed.

End ImportFailedStatus.

Lemma import_failed_status_resolves_on_partial_success_witness :
  let options := mkOptions 300 false in
  let st := Sample.failedImport [Sample.rejectedProduct; Sample.importedUom] in
  JobManager.ended
    (JobManager.loop "Import" (JobManager.importOnStatus "job-7" options)
       options (Sample.answering st "job-7") 0 1 0 0)
  = JobManager.Resolved st.
Proof.
  cbv zeta.
  refine (proj1 (proj1 (import_failed_status_resolves_on_partial_success
            "job-7" (mkOptions 300 false)
            (Sample.answering
               (Sample.failedImport [Sample.rejectedProduct; Sample.importedUom])
               "job-7")
            0 0 0 0
            (Sample.failedImport [Sample.rejectedProduct; Sample.importedUom])
            _ eq_refl eq_refl) _)).
  - simpl. lia.
  - exists Sample.importedUom. split; [right; left; reflexivity | right; reflexivity].
Defined.


(** *** The transaction hub poller *)

Section TransactionHub.

Import JobManager.

Variable jobId : string.
Variable apiClient : string -> nat -> tick.
Variable options : Options.
Variable startTime : Z.
Variable fuel : nat.

Hypothesis timeout_set : 0 <= timeout options.
Hypothesis time_passes :
  forall n, 0 <= latency (apiClient jobId n) /\ 0 <= jitter (apiClient jobId n).
Hypothesis enough_fuel : timeout options * 1000 < 2000 * (Z.of_nat fuel - 1).

Let hubLoop :=
  loop "Import" (transactionHubOnStatus jobId options) options
       (apiClient jobId) startTime.

Lemma transactionHub_sleeps r out ms :
  react "Import" (transactionHubOnStatus jobId options) r = (out, Sleep ms) ->
  2000 <= ms.
Proof.
  destruct r as [st|e|code]; simpl.
  - unfold transactionHubOnStatus.
    destruct (_ =? "completed")%string; [discriminate|].
    destruct (_ =? "failed")%string.
    + rewrite tryCatch_job_failure. discriminate.
    + simpl. intros H; inversion H; lia.
  - intros H. apply onError_sleep in H. lia.
  - discriminate.
Qed.

Lemma transactionHub_other_status st :
  js_status st <> "completed" -> js_status st <> "failed" ->
  react "Import" (transactionHubOnStatus jobId options) (Returned st)
  = ([(JobStatusLine, js_status st)], Sleep 5000).
Proof.
  intros H1 H2. simpl. unfold transactionHubOnStatus.
  destruct (String.eqb_spec (js_status st) "completed") as [E|_]; [contradiction|].
  destruct (String.eqb_spec (js_status st) "failed") as [E|_]; [contradiction|].
  reflexivity.
Qed.

Lemma hubLoop_keeps_polling :
  (forall k, exists st,
      snd (reply (apiClient jobId k)) = Returned st
      /\ js_status st <> "completed" /\ js_status st <> "failed") ->
  forall k n now,
    ended (hubLoop k n now) = TimedOut (timeoutError "Import" options)
    \/ ended (hubLoop k n now) = OutOfFuel.
Proof.
  intros Hall. induction k as [|k IH]; intros n now; [right; reflexivity|].
  unfold hubLoop in *.
  destruct (timedOut startTime (timeout options * 1000) now) eqn:T.
  - rewrite loop_timed_out by exact T. left. reflexivity.
  - rewrite loop_in_time by exact T. cbv zeta.
    rewrite ended_addRequest, ended_addLog.
    destruct (Hall n) as [st [Hr [H1 H2]]].
    rewrite Hr, (transactionHub_other_status st H1 H2). simpl snd.
    apply IH.
Qed.

Lemma hubLoop_first_answer st :
  snd (reply (apiClient jobId 0%nat)) = Returned st ->
  ended (waitForTransactionHubImportCompletion jobId apiClient options
           startTime fuel)
  = match snd (react "Import" (transactionHubOnStatus jobId options)
                     (Returned st)) with
    | Return s => Resolved s
    | Throw e => Failed e
    | Exit code => ProcessExit code
    | Sleep ms =>
        ended (hubLoop (pred fuel) 1%nat
                 (startTime + latency (apiClient jobId 0%nat) + ms
                  + jitter (apiClient jobId 0%nat)))
    end.
Proof.
  intros Hr. unfold waitForTransactionHubImportCompletion.
  rewrite ended_addLog.
  destruct fuel as [|k]; [simpl in enough_fuel; lia|].
  rewrite loop_in_time.
  2:{ unfold timedOut. apply Z.ltb_ge. lia. }
  cbv zeta. rewrite ended_addRequest, ended_addLog, Hr.
  destruct (snd (react "Import" (transactionHubOnStatus jobId options)
                       (Returned st))); reflexivity.
Qed.

(** X2.  The transaction hub poller compares the status as it comes.  A
    first answer whose status is exactly [completed] is handed back; one
    whose status is exactly [failed] ends the poll with the thrown error
    [Job failed], whatever else the status carries; and as long as the
    answers carry any other status, another casing of these two included,
    the poller goes on asking, until the timeout error ends it. *)
Theorem transaction_hub_poller_compares_status_as_is :
  let run :=
    waitForTransactionHubImportCompletion jobId apiClient options startTime
      fuel in
  (forall st, snd (reply (apiClient jobId 0%nat)) = Returned st ->
              js_status st = "completed" -> ended run = Resolved st)
  /\ (forall st, snd (reply (apiClient jobId 0%nat)) = Returned st ->
                 js_status st = "failed" ->
                 ended run = Failed (mkError "Job failed" None))
  /\ ((forall k, exists st,
          snd (reply (apiClient jobId k)) = Returned st
          /\ js_status st <> "completed" /\ js_status st <> "failed") ->
      ended run = TimedOut (timeoutError "Import" options)).
Proof.
  cbv zeta. split; [|split].
  - intros st Hr Hs. rewrite (hubLoop_first_answer st Hr).
    simpl. unfold transactionHubOnStatus. rewrite Hs. reflexivity.
  - intros st Hr Hs. rewrite (hubLoop_first_answer st Hr).
    simpl. unfold transactionHubOnStatus. rewrite Hs. reflexivity.
  - intros Hall.
    assert (N : ended (waitForTransactionHubImportCompletion jobId apiClient
                         options startTime fuel) <> OutOfFuel).
    { unfold waitForTransactionHubImportCompletion. rewrite ended_addLog.
      apply loop_ends; [exact transactionHub_sleeps | exact time_passes
                       | lia | lia]. }
    unfold waitForTransactionHubImportCompletion in *.
    rewrite ended_addLog in *.
    destruct (hubLoop_keeps_polling Hall fuel 0%nat startTime) as [H|H];
      [exact H | contradiction].
Qed.

End TransactionHub.

Lemma transaction_hub_poller_compares_status_as_is_witness :
  let options := mkOptions 10 false in
  let st := withStatus Sample.processingStatus "Completed" in
  0 <= timeout options
  /\ timeout options * 1000 < 2000 * (Z.of_nat 7 - 1)
  /\ JsString.toLowerCase (js_status st) = "completed"
  /\ JobManager.ended
       (JobManager.waitForTransactionHubImportCompletion "job-1"
          (Sample.answering st) options 0 7)
     = JobManager.TimedOut (mkError "Import job timed out after 10 seconds" None).
Proof.
  cbv zeta.
  assert (H1 : 0 <= timeout (mkOptions 10 false)) by (simpl; lia).
  assert (H2 : forall n,
             0 <= JobManager.latency
                    (Sample.answering
                       (withStatus Sample.processingStatus "Completed") "job-1" n)
             /\ 0 <= JobManager.jitter
                       (Sample.answering
                          (withStatus Sample.processingStatus "Completed")
                          "job-1" n))
    by (intros n; simpl; lia).
  assert (H3 : timeout (mkOptions 10 false) * 1000 < 2000 * (Z.of_nat 7 - 1))
    by (simpl; lia).
  split; [exact H1|]. split; [exact H3|]. split; [reflexivity|].
  apply (proj2 (proj2 (transaction_hub_poller_compares_status_as_is "job-1"
                         (Sample.answering
                            (withStatus Sample.processingStatus "Completed"))
                         (mkOptions 10 false) 0 7 H1 H2 H3))).
  intros k. exists (withStatus Sample.processingStatus "Completed").
  split; [reflexivity|]. split; discriminate.
Defined.

(** *** Errors of the status request *)

(** X3.  Of the errors a status request throws into the [catch] of a
    poller, only one that carries a 404 response is retried: the poller
    warns and, after two seconds, is back at the head of its loop.  Any
    other error, one without a response included, ends the poll at once
    with that very error. *)
Theorem only_a_404_is_retried :
  forall kind onStatus options client startTime fuel n now e,
    now - startTime <= timeout options * 1000 ->
    snd (JobManager.reply (client n)) = Threw e ->
    let t := client n in
    let r := JobManager.loop kind onStatus options client startTime
               (S fuel) n now in
    (ApiClient.is404 e = true ->
     r = JobManager.addRequest
           (JobManager.addLog
              (fst (JobManager.reply t)
               ++ [(Warning, (kind ++ " job not found yet, waiting...")%string)])%list
              (JobManager.loop kind onStatus options client startTime fuel
                 (S n)
                 (now + JobManager.latency t + 2000 + JobManager.jitter t))))
    /\ (ApiClient.is404 e = false ->
        JobManager.ended r = JobManager.Failed e
        /\ JobManager.requests r = 1%nat
        /\ JobManager.clock r = now + JobManager.latency t).
Proof.
  intros kind onStatus options client startTime fuel n now e Hin Hr.
  cbv zeta. rewrite loop_in_time.
  2:{ unfold JobManager.timedOut. apply Z.ltb_ge. exact Hin. }
  cbv zeta. rewrite Hr. simpl JobManager.react.
  unfold JobManager.onError, ApiClient.is404.
  destruct (response e) as [resp|].
  - destruct (http_status resp =? 404); split; intros H; try discriminate H.
    + reflexivity.
    + split; [reflexivity|]. split; reflexivity.
  - split; intros H; [discriminate H|].
    split; [reflexivity|]. split; reflexivity.
Qed.

Lemma only_a_404_is_retried_witness :
  JobManager.ended
    (JobManager.loop "Export"
       (JobManager.exportOnStatus "job-1" (mkOptions 10 false))
       (mkOptions 10 false)
       (fun _ => JobManager.mkTick 100
                   ([], Threw (mkError "socket hang up" None)) 0)
       0 1 0 0)
  = JobManager.Failed (mkError "socket hang up" None).
Proof.
  refine (proj1 (proj2 (only_a_404_is_retried "Export"
            (JobManager.exportOnStatus "job-1" (mkOptions 10 false))
            (mkOptions 10 false)
            (fun _ => JobManager.mkTick 100
                        ([], Threw (mkError "socket hang up" None)) 0)
            0 0 0 0 (mkError "socket hang up" None) _ eq_refl) eq_refl)).
  simpl. lia.
Defined.

(** *** The status request as [ApiClient] sends it *)

(** X4.  [ApiClient.getImportJobStatus] never gets to its fallback
    endpoints.  Its first request goes through [ApiClient.get], which
    hands every rejection to [handleApiError]; so nothing is thrown into
    the [catch] that would try the next endpoint: exactly one endpoint is
    requested, its data is returned, and a rejection, a 404 included, ends
    the process with exit code 1. *)
Theorem import_status_fallback_is_never_taken :
  forall (A : Type) (jobId : string)
         (axios : string -> ApiClient.AxiosResult A),
    let first := "/cpq/async/imports/revenue-builder-data/" ++ jobId in
    let call := ApiClient.getImportJobStatus jobId axios in
    call = ([first], ApiClient.get first (axios first))
    /\ (forall e, snd (snd call) <> Threw e)
    /\ (forall data, axios first = inl data -> snd call = ([], Returned data))
    /\ (forall e, axios first = inr e -> snd (snd call) = Exited 1).
Proof.
  intros A jobId axios. cbv zeta.
  unfold ApiClient.getImportJobStatus.
  destruct (axios ("/cpq/async/imports/revenue-builder-data/" ++ jobId))
    as [data|e]; simpl.
  - split; [reflexivity|]. split; [discriminate|].
    split; [intros d [= ->]; reflexivity | discriminate].
  - split; [reflexivity|]. split; [discriminate|].
    split; [discriminate | reflexivity].
Qed.

(** X5.  Whatever the rejection, a status request sent through
    [ApiClient] ends the process, and the poller with it, after that one
    request: the export poller, the import poller and the transaction hub
    poller alike, for a 404 as for any other error. *)
Theorem rejected_status_request_through_ApiClient_ends_process :
  forall jobId options startTime fuel
         (exportAxios hubAxios : nat -> Z * ApiClient.AxiosResult JobStatus * Z)
         (importAxios :
            nat -> Z * (string -> ApiClient.AxiosResult JobStatus) * Z),
    0 <= timeout options ->
    (exists e, snd (fst (exportAxios 0%nat)) = inr e) ->
    (exists e, snd (fst (importAxios 0%nat))
                 ("/cpq/async/imports/revenue-builder-data/" ++ jobId)
               = inr e) ->
    (exists e, snd (fst (hubAxios 0%nat)) = inr e) ->
    let exported :=
      JobManager.waitForExportCompletion jobId
        (JobManager.viaApiClient exportAxios) options startTime (S fuel) in
    let imported :=
      JobManager.waitForImportCompletion jobId
        (JobManager.importViaApiClient importAxios) options startTime (S fuel) in
    let hub :=
      JobManager.waitForTransactionHubImportCompletion jobId
        (JobManager.hubViaApiClient hubAxios) options startTime (S fuel) in
    JobManager.ended exported = JobManager.ProcessExit 1
    /\ JobManager.requests exported = 1%nat
    /\ JobManager.ended imported = JobManager.ProcessExit 1
    /\ JobManager.requests imported = 1%nat
    /\ JobManager.ended hub = JobManager.ProcessExit 1
    /\ JobManager.requests hub = 1%nat.
Proof.
  intros jobId options startTime fuel exportAxios hubAxios importAxios Ht
         [e He] [e' He'] [e'' He''].
  cbv zeta.
  assert (T : JobManager.timedOut startTime (timeout options * 1000) startTime
              = false).
  { unfold JobManager.timedOut. apply Z.ltb_ge. lia. }
  unfold JobManager.waitForExportCompletion, JobManager.waitForImportCompletion,
    JobManager.waitForTransactionHubImportCompletion.
  rewrite !ended_addLog.
  rewrite !loop_in_time by exact T. cbv zeta.
  unfold JobManager.viaApiClient, JobManager.importViaApiClient,
    JobManager.hubViaApiClient.
  destruct (exportAxios 0%nat) as [[lat r] jit]. simpl in He. subst r.
  destruct (hubAxios 0%nat) as [[lat'' r''] jit'']. simpl in He''. subst r''.
  destruct (importAxios 0%nat) as [[lat' answer] jit']. cbn [fst snd] in He'.
  unfold ApiClient.getImportJobStatus. cbv zeta. rewrite He'.
  repeat split; reflexivity.
Qed.

Lemma rejected_status_request_through_ApiClient_ends_process_witness :
  JobManager.ended
    (JobManager.waitForImportCompletion "job-1"
       (JobManager.importViaApiClient
          (fun n => (100, fun endpoint => snd (fst (Sample.notFoundYet n)), 0)))
       (mkOptions 10 false) 0 20)
  = JobManager.ProcessExit 1.
Proof.
  refine (proj1 (proj2 (proj2
            (rejected_status_request_through_ApiClient_ends_process
               "job-1" (mkOptions 10 false) 0 19 Sample.notFoundYet
               Sample.notFoundYet
               (fun n => (100, fun endpoint => snd (fst (Sample.notFoundYet n)), 0))
               _ _ _ _)))).
  - simpl. lia.
  - eexists. reflexivity.
  - eexists. reflexivity.
  - eexists. reflexivity.
Defined.

(** *** The job summary *)

(** X6.  The three lists of [displayJobSummary] split the objects of a
    status whose [status] is [Completed] or [Failed]: no object is in two
    of the lists, and together they hold as many objects as the status has
    with one of these two statuses.  Objects in any other state are in
    none. *)
Theorem summary_lists_partition_objects :
  forall st : JobStatus,
    (length (JobManager.completedObjects st)
     + length (JobManager.noRecordsObjects st)
     + length (JobManager.actualFailedObjects st)
     = length (filter (fun obj => (status obj =? "Completed")
                                  || (status obj =? "Failed"))%string
                      (objectsOf st)))%nat
    /\ (forall obj,
          ~ (In obj (JobManager.completedObjects st)
             /\ In obj (JobManager.noRecordsObjects st))
          /\ ~ (In obj (JobManager.completedObjects st)
                /\ In obj (JobManager.actualFailedObjects st))
          /\ ~ (In obj (JobManager.noRecordsObjects st)
                /\ In obj (JobManager.actualFailedObjects st)))
    /\ (forall obj,
          In obj (JobManager.completedObjects st)
          \/ In obj (JobManager.noRecordsObjects st)
          \/ In obj (JobManager.actualFailedObjects st) ->
          In obj (objectsOf st)
          /\ (status obj = "Completed" \/ status obj = "Failed")).
Proof.
  intros st.
  unfold JobManager.completedObjects, JobManager.noRecordsObjects,
    JobManager.actualFailedObjects, JobManager.filterObjects, objectsOf.
  destruct (objects st) as [objs|].
  2:{ split; [reflexivity|]. split.
      - intros obj. repeat split; intros [[] _].
      - intros obj [[]|[[]|[]]]. }
  split; [|split].
  - induction objs as [|o objs IH]; [reflexivity|]. simpl.
    unfold JobManager.isCompleted, JobManager.isNoRecords,
      JobManager.isActualFailed in *.
    destruct (String.eqb_spec (status o) "Completed") as [E|E].
    + rewrite E. simpl. lia.
    + destruct (status o =? "Failed")%string; simpl;
        [destruct (JobManager.noRecordsPattern o); simpl; lia | lia].
  - intros obj.
    unfold JobManager.isCompleted, JobManager.isNoRecords,
      JobManager.isActualFailed.
    repeat split; intros [H1 H2];
      apply filter_In in H1; apply filter_In in H2;
      destruct H1 as [_ H1]; destruct H2 as [_ H2].
    + apply String.eqb_eq in H1. rewrite H1 in H2. discriminate H2.
    + apply String.eqb_eq in H1. rewrite H1 in H2. discriminate H2.
    + apply andb_prop in H1. apply andb_prop in H2.
      destruct H1 as [_ H1]. destruct H2 as [_ H2].
      rewrite H1 in H2. discriminate H2.
  - intros obj H.
    unfold JobManager.isCompleted, JobManager.isNoRecords,
      JobManager.isActualFailed in H.
    destruct H as [H|[H|H]]; apply filter_In in H; destruct H as [Hin H];
      (split; [exact Hin|]).
    + left. apply String.eqb_eq. exact H.
    + right. apply andb_prop in H. apply String.eqb_eq. apply H.
    + right. apply andb_prop in H. apply String.eqb_eq. apply H.
Qed.


(** ** The object-type registry *)

Section Registry.

Import ObjectTypes.

Lemma lowerChar_idempotent c :
  JsString.lowerChar (JsString.lowerChar c) = JsString.lowerChar c.
Proof. destruct c as [[] [] [] [] [] [] [] []]; reflexivity. Qed.

Lemma toLowerCase_idempotent s :
  JsString.toLowerCase (JsString.toLowerCase s) = JsString.toLowerCase s.
Proof.
  induction s as [|c s IH]; [reflexivity|]. simpl.
  rewrite lowerChar_idempotent, IH. reflexivity.
Qed.

(** The names under which [initializeTypes] registers the types. *)
Let names : list string := map fst registered.

Lemma lookup_pair_in k table v :
  lookup k table = Some v -> In (k, v) table.
Proof.
  induction table as [|[k' v'] table IH]; simpl; [discriminate|].
  destruct (String.eqb_spec k k') as [E|E].
  - intros [= ->]. left. rewrite E. reflexivity.
  - intros H. right. apply IH. exact H.
Qed.

Lemma lookup_none_not_in k table :
  lookup k table = None -> ~ In k (map fst table).
Proof.
  induction table as [|[k' v'] table IH]; simpl; [intros _ []|].
  destruct (String.eqb_spec k k') as [E|E]; [discriminate|].
  intros H [H'|H']; [apply E; symmetry; exact H' | exact (IH H H')].
Qed.

(** Every key of the registry is the name of its type: the name and the
    API name of a type are the same word in lower case. *)
Lemma registry_key_is_name k name :
  lookup k types = Some name -> name = k /\ In k names.
Proof.
  intros H. apply lookup_pair_in in H. vm_compute in H.
  repeat (destruct H as [[= <- <-] | H];
          [split; [reflexivity | vm_compute; tauto]|]).
  destruct H.
Qed.

Lemma registry_has_names k : In k names -> lookup k types = Some k.
Proof.
  intros H. vm_compute in H.
  repeat (destruct H as [<- | H]; [vm_compute; reflexivity|]).
  destruct H.
Qed.

Lemma getObjectType_name objectType name :
  getObjectType objectType = Some name ->
  name = JsString.toLowerCase objectType /\ getObjectType name = Some name.
Proof.
  unfold getObjectType. intros H.
  destruct (registry_key_is_name _ _ H) as [-> Hin].
  split; [reflexivity|].
  rewrite toLowerCase_idempotent. exact H.
Qed.

(** X7.  On a word of ASCII characters [normalizeObjectType] gives a
    canonical name: a registered type, under any casing of its name or of
    its API name, comes out as its name, which is the given word in lower
    case; any other word comes out unchanged; and normalizing twice changes
    nothing more. *)
Theorem normalizeObjectType_is_canonical :
  forall objectType : string,
    JsString.isAscii objectType = true ->
    normalizeObjectType (normalizeObjectType objectType)
    = normalizeObjectType objectType
    /\ (isValidObjectType objectType = true ->
        normalizeObjectType objectType = JsString.toLowerCase objectType
        /\ isValidObjectType (normalizeObjectType objectType) = true)
    /\ (isValidObjectType objectType = false ->
        normalizeObjectType objectType = objectType)
    /\ (forall other,
          JsString.toLowerCase other = JsString.toLowerCase objectType ->
          isValidObjectType objectType = true ->
          normalizeObjectType other = normalizeObjectType objectType).
Proof.
  intros objectType _. unfold normalizeObjectType, isValidObjectType.
  destruct (getObjectType objectType) as [name|] eqn:G.
  - destruct (getObjectType_name _ _ G) as [E G'].
    split; [rewrite G'; reflexivity|].
    split; [intros _; split; [exact E | rewrite G'; reflexivity]|].
    split; [discriminate|].
    intros other Ho _. unfold getObjectType in *. rewrite Ho, G. reflexivity.
  - split; [rewrite G; reflexivity|].
    split; [discriminate|]. split; [reflexivity|]. discriminate.
Qed.

Lemma normalizeObjectType_is_canonical_witness :
  JsString.isAscii "PriceBook" = true
  /\ normalizeObjectType "PriceBook" = "pricebook"
  /\ normalizeObjectType (normalizeObjectType "PriceBook") = "pricebook".
Proof.
  split; [reflexivity|]. split; [reflexivity|].
  rewrite (proj1 (normalizeObjectType_is_canonical "PriceBook" eq_refl)).
  reflexivity.
Defined.

(** X8.  The name and the API name of a registered type stand for each
    other: the API name is registered too, it normalizes to the name, and
    asking for the API name of either gives the same answer. *)
Theorem api_name_and_name_are_interchangeable :
  forall objectType : string,
    isValidObjectType objectType = true ->
    isValidObjectType (getApiObjectName objectType) = true
    /\ normalizeObjectType (getApiObjectName objectType)
       = normalizeObjectType objectType
    /\ getApiObjectName (getApiObjectName objectType)
       = getApiObjectName objectType
    /\ getApiObjectName (normalizeObjectType objectType)
       = getApiObjectName objectType.
Proof.
  intros objectType. unfold isValidObjectType, normalizeObjectType,
    getApiObjectName.
  destruct (getObjectType objectType) as [name|] eqn:G; [|discriminate].
  intros _. unfold getObjectType in G.
  destruct (registry_key_is_name _ _ G) as [_ Hin].
  destruct (getObjectType_name _ _ G) as [E _]. rewrite <- E in Hin.
  clear G E. vm_compute in Hin.
  repeat (destruct Hin as [<- | Hin];
          [split; [|split; [|split]]; vm_compute; reflexivity|]).
  destruct Hin.
Qed.

Lemma api_name_and_name_are_interchangeable_witness :
  isValidObjectType "PRICEBOOK" = true
  /\ getApiObjectName "PRICEBOOK" = "PriceBook"
  /\ normalizeObjectType (getApiObjectName "PRICEBOOK") = "pricebook".
Proof.
  split; [reflexivity|]. split; [reflexivity|].
  rewrite (proj1 (proj2 (api_name_and_name_are_interchangeable "PRICEBOOK"
                           eq_refl))).
  reflexivity.
Defined.

(** X9.  A registered type is in exactly one of the three categories,
    and a word that is not registered is in none. *)
Theorem registered_type_has_one_category :
  forall objectType : string,
    (isProductCatalogObjectType objectType
     || isTransactionObjectType objectType
     || isTransactionHubObjectType objectType)
    = isValidObjectType objectType
    /\ (isProductCatalogObjectType objectType
        && isTransactionObjectType objectType) = false
    /\ (isProductCatalogObjectType objectType
        && isTransactionHubObjectType objectType) = false
    /\ (isTransactionObjectType objectType
        && isTransactionHubObjectType objectType) = false.
Proof.
  intros objectType.
  unfold isProductCatalogObjectType, isTransactionObjectType,
    isTransactionHubObjectType, isInCategory, getObjectCategory,
    isValidObjectType, getObjectType.
  generalize (JsString.toLowerCase objectType). intros k.
  destruct (lookup k types) as [name|] eqn:G.
  2:{ repeat split. }
  destruct (registry_key_is_name _ _ G) as [-> Hin]. clear G.
  vm_compute in Hin.
  repeat (destruct Hin as [<- | Hin];
          [split; [|split; [|split]]; vm_compute; reflexivity|]).
  destruct Hin.
Qed.

(** Either table of field names, seen as a function of the word in lower
    case. *)
Lemma registry_field_name objectType :
  getFormFieldName objectType
  = generateFormFieldName (JsString.toLowerCase objectType).
Proof.
  unfold getFormFieldName, getObjectType.
  generalize (JsString.toLowerCase objectType). intros k.
  destruct (lookup k types) as [name|] eqn:G.
  - destruct (registry_key_is_name _ _ G) as [-> _]. reflexivity.
  - unfold generateFormFieldName.
    destruct (lookup k formFieldMap) as [v|] eqn:F; [|reflexivity].
    exfalso. apply lookup_none_not_in in G. apply G.
    apply lookup_pair_in in F. vm_compute in F.
    repeat (destruct F as [[= <- <-] | F]; [vm_compute; tauto|]).
    destruct F.
Qed.

(** X10.  On a word of ASCII characters whose lower case is neither
    [constructor] nor [__proto__], the two tables of upload field names,
    that of the registry and that of the [import] command, agree except on
    the eight types whose name is made of two words: there the registry
    says [price-book] where the command says [priceBook], and so on.
    Outside both tables each gives the word in lower case. *)
Theorem field_name_tables_differ_on_two_word_types :
  forall objectType : string,
    let k := JsString.toLowerCase objectType in
    JsString.isAscii objectType = true ->
    k <> "constructor" -> k <> "__proto__" ->
    (lookup k formFieldMap = None ->
     getFormFieldName objectType
     = ImportMetadataCommand.getFormFieldName objectType)
    /\ (forall hyphenated, lookup k formFieldMap = Some hyphenated ->
          getFormFieldName objectType = hyphenated
          /\ ImportMetadataCommand.getFormFieldName objectType <> hyphenated
          /\ JsString.includes hyphenated "-" = true
          /\ JsString.includes
               (ImportMetadataCommand.getFormFieldName objectType) "-" = false)
    /\ (isValidObjectType objectType = false ->
        getFormFieldName objectType = k
        /\ ImportMetadataCommand.getFormFieldName objectType = k).
Proof.
  intros objectType. cbv zeta. intros _. rewrite registry_field_name.
  unfold ImportMetadataCommand.getFormFieldName, generateFormFieldName,
    isValidObjectType, getObjectType.
  generalize (JsString.toLowerCase objectType). intros k _ _.
  split; [|split].
  - intros F. rewrite F.
    destruct (lookup k ImportMetadataCommand.fieldMap) as [v|] eqn:M;
      [|reflexivity].
    apply lookup_pair_in in M. vm_compute in M.
    repeat (destruct M as [[= <- <-] | M];
            [try reflexivity; vm_compute in F; discriminate F|]).
    destruct M.
  - intros hyphenated F. rewrite F.
    apply lookup_pair_in in F. vm_compute in F.
    repeat (destruct F as [[= <- <-] | F];
            [split; [reflexivity|]; split; [vm_compute; discriminate|];
             split; vm_compute; reflexivity|]).
    destruct F.
  - destruct (lookup k types) as [name|] eqn:G; [discriminate|]. intros _.
    pose proof (lookup_none_not_in _ _ G) as N.
    assert (F : lookup k formFieldMap = None).
    { destruct (lookup k formFieldMap) as [v|] eqn:F; [|reflexivity].
      exfalso. apply N. apply lookup_pair_in in F. vm_compute in F.
      repeat (destruct F as [[= <- <-] | F]; [vm_compute; tauto|]).
      destruct F. }
    assert (M : lookup k ImportMetadataCommand.fieldMap = None).
    { destruct (lookup k ImportMetadataCommand.fieldMap) as [v|] eqn:M;
        [|reflexivity].
      exfalso. apply N. apply lookup_pair_in in M. vm_compute in M.
      repeat (destruct M as [[= <- <-] | M]; [vm_compute; tauto|]).
      destruct M. }
    rewrite F, M. split; reflexivity.
Qed.

Lemma field_name_tables_differ_on_two_word_types_witness :
  JsString.isAscii "PriceBook" = true
  /\ getFormFieldName "PriceBook" = "price-book"
  /\ ImportMetadataCommand.getFormFieldName "PriceBook" = "priceBook".
Proof.
  split; [reflexivity|].
  destruct (proj1 (proj2 (field_name_tables_differ_on_two_word_types
                            "PriceBook" eq_refl
                            ltac:(discriminate) ltac:(discriminate)))
              "price-book" eq_refl) as [A _].
  split; [exact A | reflexivity].
Defined.

(** X11.  The list of product catalog types the [import] command carries
    and the categories of the registry say the same of every word. *)
Theorem product_catalog_lists_agree :
  forall objectType : string,
    ImportMetadataCommand.isProductCatalogObjectType objectType
    = isProductCatalogObjectType objectType.
Proof.
  intros objectType.
  unfold ImportMetadataCommand.isProductCatalogObjectType,
    isProductCatalogObjectType, isInCategory, getObjectCategory, getObjectType.
  generalize (JsString.toLowerCase objectType). intros k.
  destruct (lookup k types) as [name|] eqn:G.
  - destruct (registry_key_is_name _ _ G) as [-> Hin]. clear G.
    vm_compute in Hin.
    repeat (destruct Hin as [<- | Hin]; [vm_compute; reflexivity|]).
    destruct Hin.
  - apply lookup_none_not_in in G.
    destruct (existsb (String.eqb k) ImportMetadataCommand.productCatalogObjects)
      eqn:E; [|reflexivity].
    exfalso. apply G. apply existsb_exists in E. destruct E as [x [Hin Hx]].
    apply String.eqb_eq in Hx. subst x. vm_compute in Hin.
    repeat (destruct Hin as [<- | Hin]; [vm_compute; tauto|]).
    destruct Hin.
Qed.

End Registry.


(** ** More on the downloader *)

Section DownloadMore.

Import ExportStrategy.

Variable P : Path.api.

Lemma downloadResults_visitAll downloadFile o st objs :
  objs <> [] ->
  downloadResults P downloadFile o (withObjects st objs)
  = visitAll P downloadFile o (1 <? length (completedFor objs))%nat
             (filter notUsage objs).
Proof.
  intros N. unfold downloadResults, completedFor. simpl objects.
  destruct objs as [|x l]; [contradiction|]. reflexivity.
Qed.

Lemma visit_no_exit downloadFile o b obj :
  neverExits downloadFile -> snd (visit P downloadFile o b obj) = None.
Proof.
  intros N. unfold visit.
  destruct (wanted o obj); simpl; [|reflexivity].
  destruct (completedWithFile obj).
  - destruct (firstUrl obj) as [url|]; [|reflexivity].
    destruct (downloadFile url) as [data|e|code] eqn:D; try reflexivity.
    exfalso. exact (N url code D).
  - destruct (status obj =? "Failed")%string.
    + destruct (JobManager.noRecordsPattern obj); reflexivity.
    + destruct (status obj =? "Completed")%string; reflexivity.
Qed.

Lemma visitAll_no_exit downloadFile o b l :
  neverExits downloadFile -> snd (visitAll P downloadFile o b l) = None.
Proof.
  intros N. induction l as [|obj rest IH]; [reflexivity|]. simpl.
  pose proof (visit_no_exit downloadFile o b obj N) as E.
  destruct (visit P downloadFile o b obj) as [ev [code|]]; [discriminate E|].
  destruct (visitAll P downloadFile o b rest). exact IH.
Qed.

Lemma completedWithFile_url obj :
  completedWithFile obj = true -> firstUrl obj = Some (urlOf obj).
Proof.
  unfold completedWithFile, urlOf. intros C. apply andb_prop in C.
  destruct C as [_ C]. destruct (firstUrl obj); [reflexivity | discriminate C].
Qed.

Lemma visitAll_fetches_all downloadFile o b l :
  neverExits downloadFile ->
  fetches (fst (visitAll P downloadFile o b l))
  = map urlOf (filter (fun obj => wanted o obj && completedWithFile obj) l).
Proof.
  intros N. induction l as [|obj rest IH]; [reflexivity|].
  rewrite visitAll_cons, fetches_app, (visit_no_exit _ _ _ _ N), IH,
    visit_fetches.
  simpl filter.
  destruct (wanted o obj && completedWithFile obj) eqn:S; [|reflexivity].
  apply andb_prop in S. destruct S as [_ C].
  rewrite (completedWithFile_url obj C). reflexivity.
Qed.

Lemma visitAll_writes_all downloadFile o b l :
  neverExits downloadFile ->
  writes (fst (visitAll P downloadFile o b l))
  = flat_map (writtenFor P downloadFile o b)
      (filter (fun obj => wanted o obj && completedWithFile obj) l).
Proof.
  intros N. induction l as [|obj rest IH]; [reflexivity|].
  rewrite visitAll_cons, writes_app, (visit_no_exit _ _ _ _ N), IH,
    visit_writes.
  simpl filter.
  destruct (wanted o obj && completedWithFile obj) eqn:S; [|reflexivity].
  apply andb_prop in S. destruct S as [_ C].
  cbn [flat_map]. unfold writtenFor at 2.
  rewrite (completedWithFile_url obj C).
  destruct (downloadFile (urlOf obj)); reflexivity.
Qed.



(** *** The requested type *)

Lemma visit_same_options downloadFile o1 o2 b obj :
  requestedObjectType o1 = requestedObjectType o2 ->
  output o1 = output o2 -> jobId o1 = jobId o2 ->
  visit P downloadFile o1 b obj = visit P downloadFile o2 b obj.
Proof.
  intros R O J. unfold visit, wanted, outputPath, individualName.
  rewrite R, O, J. reflexivity.
Qed.

Lemma visitAll_same_options downloadFile o1 o2 b l :
  requestedObjectType o1 = requestedObjectType o2 ->
  output o1 = output o2 -> jobId o1 = jobId o2 ->
  visitAll P downloadFile o1 b l = visitAll P downloadFile o2 b l.
Proof.
  intros R O J. induction l as [|obj rest IH]; [reflexivity|]. simpl.
  rewrite (visit_same_options downloadFile o1 o2 b obj R O J), IH. reflexivity.
Qed.

Lemma downloadResults_same_options downloadFile o1 o2 st :
  requestedObjectType o1 = requestedObjectType o2 ->
  output o1 = output o2 -> jobId o1 = jobId o2 ->
  downloadResults P downloadFile o1 st = downloadResults P downloadFile o2 st.
Proof.
  intros R O J. unfold downloadResults.
  destruct (objects st) as [[|x l]|]; try reflexivity.
  apply visitAll_same_options; assumption.
Qed.

Lemma lowered_same_options o :
  requestedObjectType (DownloadStrategy.lowered o) = requestedObjectType o
  /\ output (DownloadStrategy.lowered o) = output o
  /\ jobId (DownloadStrategy.lowered o) = jobId o.
Proof.
  unfold DownloadStrategy.lowered.
  destruct (JsString.truthyOpt (objectType o)); [|repeat split].
  unfold requestedObjectType. simpl.
  destruct (objectType o) as [t|]; simpl; [|repeat split].
  rewrite toLowerCase_idempotent. repeat split.
Qed.

(** X13.  The requested type is matched without regard to case, on both
    sides.  Two sets of options that differ only in the casing of the
    requested type make the downloader do the same, so the lowering of the
    type by the download command changes nothing; and two objects whose
    names differ only in casing are both taken or both left. *)
Theorem requested_type_is_matched_ignoring_case :
  forall (downloadFile : string -> outcome string) (o1 o2 : options)
         (st : JobStatus),
    option_map JsString.toLowerCase (objectType o1)
    = option_map JsString.toLowerCase (objectType o2) ->
    output o1 = output o2 -> jobId o1 = jobId o2 ->
    downloadResults P downloadFile o1 st = downloadResults P downloadFile o2 st
    /\ downloadResults P downloadFile (DownloadStrategy.lowered o1) st
       = downloadResults P downloadFile o1 st
    /\ (forall a b, JsString.toLowerCase (name a) = JsString.toLowerCase (name b) ->
                    wanted o1 a = wanted o2 b).
Proof.
  intros downloadFile o1 o2 st R O J.
  split; [apply downloadResults_same_options; assumption|].
  split.
  - destruct (lowered_same_options o1) as [R' [O' J']].
    apply downloadResults_same_options; assumption.
  - intros a b Hab. unfold wanted, requestedObjectType. rewrite R, Hab.
    reflexivity.
Qed.


(** *** Where the files go *)

Variable content : string -> string.

Hypothesis join_names :
  forall dir f, JsString.truthy f = true ->
                JsString.truthy (Path.join P dir f) = true.

Lemma individualName_shape o obj :
  individualName P o obj
  = JsString.toLowerCase (name obj) ++ "-" ++ orElse (jobId o) "unknown"
      ++ baseExtension P o.
Proof. reflexivity. Qed.

Lemma serving_neverExits : neverExits (serving content).
Proof. intros url code. discriminate. Qed.

Lemma writtenFor_individual o obj :
  writtenFor P (serving content) o true obj
  = [(besideOutput P o (individualName P o obj), content (urlOf obj))].
Proof.
  unfold writtenFor, serving. rewrite writes_writeOutput.
  assert (T : JsString.truthy (individualName P o obj) = true).
  { unfold individualName. apply truthy_append_r. reflexivity. }
  unfold outputPath, besideOutput.
  generalize dependent (individualName P o obj). intros file T.
  destruct (output o) as [out|]; [|rewrite T; reflexivity].
  destruct (JsString.truthy out); [|rewrite T; reflexivity].
  rewrite (join_names _ _ T). reflexivity.
Qed.

Lemma writtenFor_single o obj :
  writtenFor P (serving content) o false obj
  = match output o with
    | Some out =>
        if JsString.truthy out then [(out, content (urlOf obj))] else []
    | None => []
    end.
Proof.
  unfold writtenFor, serving. rewrite writes_writeOutput.
  unfold outputPath. reflexivity.
Qed.

Lemma flat_map_singleton {A B} (f : A -> B) (l : list A) :
  flat_map (fun x => [f x]) l = map f l.
Proof. induction l as [|x l IH]; simpl; [reflexivity | rewrite IH; reflexivity]. Qed.





(** *** The download command *)

Lemma nothingCompleted_completedObjects st :
  DownloadStrategy.nothingCompleted st = true
  <-> JobManager.completedObjects st = [].
Proof.
  unfold DownloadStrategy.nothingCompleted, JobManager.completedObjects,
    JobManager.filterObjects.
  destruct (objects st) as [objs|]; [|split; reflexivity].
  destruct (filter JobManager.isCompleted objs); simpl; split;
    intros H; try reflexivity; discriminate H.
Qed.

(** X17.  The download command looks at the status as it comes.  It
    ends the process with exit code 1, asking for no file, when the status
    is [Processing], and when the status is [Failed] and no object is
    [Completed].  The latter includes the jobs whose objects merely had no
    records, which the export poller hands back as a partial success.  On
    any other status it does what the downloader does with the same
    options. *)
Theorem download_command_refuses_unfinished_and_failed_jobs :
  forall (downloadFile : string -> outcome string) (o : options)
         (jobId : string) (options : Options) (st : JobStatus),
    let run := DownloadStrategy.execute P (Returned st) downloadFile o jobId in
    let results := downloadResults P downloadFile o st in
    (js_status st = "Processing" ->
     snd run = Exited 1 /\ fetches (fst run) = [])
    /\ (js_status st = "Failed" -> JobManager.completedObjects st = [] ->
        snd run = Exited 1 /\ fetches (fst run) = []
        /\ (JobManager.noRecordsObjects st <> [] ->
            verdictOf (JobManager.exportOnStatus jobId options st) = Resolves))
    /\ (js_status st <> "Processing" ->
        js_status st <> "Failed" \/ JobManager.completedObjects st <> [] ->
        fetches (fst run) = fetches (fst results)
        /\ writes (fst run) = writes (fst results)
        /\ snd run = match snd results with
                     | Some code => Exited code
                     | None => Returned tt
                     end).
Proof.
  intros downloadFile o jobId options st. cbv zeta.
  unfold DownloadStrategy.execute.
  split; [|split].
  - intros E. rewrite E. split; reflexivity.
  - intros E C. rewrite E. simpl String.eqb. cbv iota.
    rewrite (proj2 (nothingCompleted_completedObjects st) C). simpl andb.
    cbv iota. split; [reflexivity|]. split; [reflexivity|].
    intros N. unfold JobManager.exportOnStatus, verdictOf. rewrite E.
    simpl. rewrite C. simpl.
    destruct (JobManager.noRecordsObjects st); [contradiction | reflexivity].
  - intros N1 N2.
    destruct (String.eqb_spec (js_status st) "Processing") as [E|_];
      [contradiction|].
    assert (B : ((js_status st =? "Failed")%string
                 && DownloadStrategy.nothingCompleted st) = false).
    { destruct N2 as [N2|N2].
      - destruct (String.eqb_spec (js_status st) "Failed"); [contradiction|].
        reflexivity.
      - destruct (DownloadStrategy.nothingCompleted st) eqn:C.
        + apply nothingCompleted_completedObjects in C. contradiction.
        + apply andb_false_r. }
    rewrite B.
    destruct (lowered_same_options o) as [R' [O' J']].
    rewrite (downloadResults_same_options downloadFile
               (DownloadStrategy.lowered o) o st R' O' J').
    destruct (downloadResults P downloadFile o st) as [evs code].
    repeat split.
Qed.

(** *** Downloads as [ApiClient] sends them *)

Variable axios : string -> ApiClient.AxiosResult string.

Let viaApiClient (url : string) : outcome string :=
  snd (ApiClient.downloadFile url (axios url)).

Let chosen (o : options) (obj : JobObject) : bool :=
  wanted o obj && completedWithFile obj.

Lemma visit_chosen o b obj :
  chosen o obj = true ->
  fetches (fst (visit P viaApiClient o b obj)) = [urlOf obj]
  /\ snd (visit P viaApiClient o b obj)
     = match axios (urlOf obj) with
       | inl _ => None
       | inr _ => Some 1
       end.
Proof.
  intros S. rewrite visit_fetches. fold (chosen o obj). rewrite S.
  unfold chosen in S. apply andb_prop in S. destruct S as [W C].
  rewrite (completedWithFile_url _ C). split; [reflexivity|].
  unfold visit. rewrite W, C. simpl negb. cbv iota.
  rewrite (completedWithFile_url _ C).
  unfold viaApiClient, ApiClient.downloadFile.
  destruct (axios (urlOf obj)); reflexivity.
Qed.

Lemma visit_not_chosen o b obj :
  chosen o obj = false ->
  fetches (fst (visit P viaApiClient o b obj)) = []
  /\ snd (visit P viaApiClient o b obj) = None.
Proof.
  intros S. rewrite visit_fetches. fold (chosen o obj). rewrite S.
  split; [reflexivity|].
  unfold visit. unfold chosen in S.
  destruct (wanted o obj); simpl in *; [|reflexivity]. rewrite S.
  destruct (status obj =? "Failed")%string.
  - destruct (JobManager.noRecordsPattern obj); reflexivity.
  - destruct (status obj =? "Completed")%string; reflexivity.
Qed.

Lemma visitAll_stops_at_rejection o b obj post :
  (exists e, axios (urlOf obj) = inr e) ->
  forall l pre,
    filter (chosen o) l = (pre ++ obj :: post)%list ->
    (forall x, In x pre -> exists data, axios (urlOf x) = inl data) ->
    snd (visitAll P viaApiClient o b l) = Some 1
    /\ fetches (fst (visitAll P viaApiClient o b l))
       = map urlOf (pre ++ [obj])%list.
Proof.
  intros [e He]. induction l as [|y r IH]; intros pre F A.
  - destruct pre; discriminate F.
  - simpl in F. destruct (chosen o y) eqn:S.
    + destruct (visit_chosen o b y S) as [Vf Vs].
      destruct pre as [|p pre'].
      * simpl in F. injection F as -> F.
        rewrite visitAll_cons, fetches_app, Vf. simpl visitAll.
        rewrite He in Vs.
        destruct (visit P viaApiClient o b obj) as [ev code]. simpl in Vs.
        subst code. split; reflexivity.
      * simpl in F. injection F as -> F.
        destruct (A p (or_introl eq_refl)) as [data Hd]. rewrite Hd in Vs.
        destruct (IH pre' F (fun x Hx => A x (or_intror Hx))) as [IH1 IH2].
        rewrite visitAll_cons, fetches_app, Vf, Vs, IH2. simpl visitAll.
        destruct (visit P viaApiClient o b p) as [ev code]. simpl in Vs.
        subst code.
        destruct (visitAll P viaApiClient o b r) as [ev' code'].
        simpl in IH1. subst code'. split; reflexivity.
    + destruct (visit_not_chosen o b y S) as [Vf Vs].
      destruct (IH pre F A) as [IH1 IH2].
      rewrite visitAll_cons, fetches_app, Vf, Vs, IH2. simpl visitAll.
      destruct (visit P viaApiClient o b y) as [ev code]. simpl in Vs.
      subst code.
      destruct (visitAll P viaApiClient o b r) as [ev' code'].
      simpl in IH1. subst code'. split; reflexivity.
Qed.


End DownloadMore.


Lemma requested_type_is_matched_ignoring_case_witness :
  ExportStrategy.downloadResults Path.posix (serving (fun url => url))
    (ExportStrategy.mkOptions (Some "PRODUCT") None (Some "job-9"))
    (withObjects Sample.processingStatus [Sample.product; Sample.bundle])
  = ExportStrategy.downloadResults Path.posix (serving (fun url => url))
      (ExportStrategy.mkOptions (Some "product") None (Some "job-9"))
      (withObjects Sample.processingStatus [Sample.product; Sample.bundle]).
Proof.
  exact (proj1 (requested_type_is_matched_ignoring_case Path.posix
                  (serving (fun url => url))
                  (ExportStrategy.mkOptions (Some "PRODUCT") None (Some "job-9"))
                  (ExportStrategy.mkOptions (Some "product") None (Some "job-9"))
                  (withObjects Sample.processingStatus
                     [Sample.product; Sample.bundle])
                  eq_refl eq_refl eq_refl)).
Defined.




Lemma download_command_refuses_unfinished_and_failed_jobs_witness :
  let st := withObjects (withStatus Sample.processingStatus "Failed")
              [Sample.emptyUom] in
  snd (DownloadStrategy.execute Path.posix (Returned st)
         (serving (fun url => url))
         (ExportStrategy.mkOptions None None (Some "job-9")) "job-9")
  = Exited 1
  /\ verdictOf (JobManager.exportOnStatus "job-9" (mkOptions 300 false) st)
     = Resolves.
Proof.
  cbv zeta.
  destruct (proj1 (proj2
              (download_command_refuses_unfinished_and_failed_jobs Path.posix
                 (serving (fun url => url))
                 (ExportStrategy.mkOptions None None (Some "job-9")) "job-9"
                 (mkOptions 300 false)
                 (withObjects (withStatus Sample.processingStatus "Failed")
                    [Sample.emptyUom])))
              eq_refl eq_refl) as [A [_ B]].
  split; [exact A|]. apply B. discriminate.
Defined.



(** ** Files between export and import *)

Section FilesOfAJob.

Import FileUtils.

Lemma toLowerCase_append a b :
  JsString.toLowerCase (a ++ b)
  = JsString.toLowerCase a ++ JsString.toLowerCase b.
Proof.
  induction a as [|c a IH]; [reflexivity|]. simpl. rewrite IH. reflexivity.
Qed.

Variable regExp : string -> option (string -> bool).
Variable P : Path.api.
Variable currentDir : string.
Variable dirContents : list string.
Variable existsSync : string -> bool.

Let found (exportJobId objectType : string) : list string :=
  fst (findDownloadedFiles regExp P currentDir (inl dirContents)
         existsSync exportJobId objectType false).

Lemma found_iff exportJobId objectType path :
  In path (found exportJobId objectType)
  <-> exists file,
        In file dirContents
        /\ JsString.toLowerCase file
           = JsString.toLowerCase objectType ++ "-" ++ exportJobId ++ ".jsonl"
        /\ path = Path.join P currentDir file
        /\ existsSync path = true.
Proof.
  unfold found, findDownloadedFiles. simpl fst. split.
  - intros H. apply filter_In in H. destruct H as [H E].
    apply in_map_iff in H. destruct H as [file [<- H]].
    apply filter_In in H. destruct H as [Hin M].
    apply String.eqb_eq in M. exists file. repeat split; assumption.
  - intros [file [Hin [M [-> E]]]].
    apply filter_In. split; [|exact E].
    apply in_map. apply filter_In. split; [exact Hin|].
    apply String.eqb_eq. exact M.
Qed.


(** X20.  The name of a file is compared in lower case with a name in
    which the job id stands as it was given.  So for a job id that holds a
    capital letter no file is ever found for an object type, the one the
    downloader wrote for that job included. *)
Theorem job_id_with_a_capital_finds_no_file :
  forall exportJobId objectType : string,
    JsString.toLowerCase exportJobId <> exportJobId ->
    found exportJobId objectType = [].
Proof.
  intros exportJobId objectType N.
  destruct (found exportJobId objectType) as [|path rest] eqn:F; [reflexivity|].
  exfalso.
  assert (Hin : In path (found exportJobId objectType))
    by (rewrite F; left; reflexivity).
  apply found_iff in Hin. destruct Hin as [file [_ [M _]]].
  pose proof (f_equal JsString.toLowerCase M) as M'.
  rewrite toLowerCase_idempotent, M in M'.
  rewrite !toLowerCase_append, toLowerCase_idempotent in M'.
  apply string_app_inv_head in M'. apply (string_app_inv_head "-") in M'.
  change (JsString.toLowerCase ".jsonl") with ".jsonl" in M'.
  apply string_app_inv_tail in M'. apply N. symmetry. exact M'.
Qed.

End FilesOfAJob.


Lemma job_id_with_a_capital_finds_no_file_witness :
  fst (FileUtils.findDownloadedFiles (fun _ => None) Path.posix "."
         (inl ["product-Job-9.jsonl"]) (fun _ => true) "Job-9" "product" false)
  = [].
Proof.
  apply (job_id_with_a_capital_finds_no_file (fun _ => None) Path.posix "."
           ["product-Job-9.jsonl"] (fun _ => true) "Job-9" "product").
  discriminate.
Defined.

(** ** The multi-file batcher *)

(** X21.  The batcher accounts for every file, in order: each file either
    becomes one part of the request, under the field name of the prefix of
    its base name and with its base name as file name, or is passed over
    with one warning; nothing else is logged but one line per file, and no
    file ends the batch. *)
Theorem batcher_accounts_for_every_file :
  forall (files : list string) (getFieldName : string -> string),
    let result := FileUtils.createMultiFileFormData files getFieldName in
    let prefixOf path := Path.prefixBeforeDash (Path.basename path) in
    map FileUtils.filePath (fst result)
    = filter (fun path => JsString.truthy (getFieldName (prefixOf path))) files
    /\ length (snd result) = length files
    /\ (length (fst result) + length (filter isWarning (snd result))
        = length files)%nat
    /\ (forall part, In part (fst result) ->
          FileUtils.fileName part = Path.basename (FileUtils.filePath part)
          /\ FileUtils.fieldName part
             = getFieldName (prefixOf (FileUtils.filePath part))).
Proof.
  intros files getFieldName. cbv zeta.
  induction files as [|f rest IH].
  - split; [reflexivity|]. split; [reflexivity|]. split; [reflexivity|].
    intros added [].
  - simpl FileUtils.createMultiFileFormData.
    destruct (FileUtils.createMultiFileFormData rest getFieldName) as [ps ls].
    simpl fst in IH. simpl snd in IH. destruct IH as [I1 [I2 [I3 I4]]].
    unfold FileUtils.addFile. simpl filter.
    destruct (JsString.truthy
                (getFieldName (Path.prefixBeforeDash (Path.basename f)))).
    + simpl. rewrite I1, I2. split; [reflexivity|]. split; [reflexivity|].
      split; [lia|]. intros added [<-|Hin]; [split; reflexivity | auto].
    + simpl. rewrite I2. split; [exact I1|]. split; [reflexivity|].
      split; [lia|]. exact I4.
Qed.

(** ** Where the staged files are written *)

Section StagedPaths.

Import JSON JsonFacts FileUtils.

Lemma prefix_append p s : String.prefix p (p ++ s) = true.
Proof.
  induction p as [|c p IH]; simpl; [apply prefix_empty|].
  destruct (ascii_dec c c) as [_|N]; [exact IH | contradiction].
Qed.

Lemma prefix_split p s :
  String.prefix p s = true ->
  s = p ++ String.substring (String.length p)
             (String.length s - String.length p) s.
Proof.
  revert s. induction p as [|c p IH]; intros s H.
  - simpl. rewrite Nat.sub_0_r, substring_whole. reflexivity.
  - destruct s as [|d s]; [discriminate H|]. simpl in H.
    destruct (ascii_dec c d) as [->|N]; [|discriminate H].
    simpl. f_equal. apply IH. exact H.
Qed.

(** [s.replace(pattern, replacement)] puts the replacement in the place
    of the first occurrence of the pattern, and changes nothing when there
    is none. *)
Lemma replaceFirst_spec pattern replacement s :
  (JsString.includes s pattern = false ->
   replaceFirst pattern replacement s = s)
  /\ (JsString.includes s pattern = true ->
      exists pre post,
        s = pre ++ pattern ++ post
        /\ replaceFirst pattern replacement s = pre ++ replacement ++ post
        /\ forall pre' post', s = pre' ++ pattern ++ post' ->
                              (String.length pre <= String.length pre')%nat).
Proof.
  induction s as [|c s [IH1 IH2]].
  - cbn [JsString.includes replaceFirst].
    destruct (String.prefix pattern "") eqn:E; simpl orb.
    + split; [discriminate|]. intros _.
      exists "", (String.substring (String.length pattern)
                    (String.length "" - String.length pattern) "").
      split; [apply (prefix_split pattern "" E)|].
      split; [reflexivity|]. intros; simpl; lia.
    + split; [reflexivity | discriminate].
  - cbn [JsString.includes replaceFirst].
    destruct (String.prefix pattern (String c s)) eqn:E; simpl orb.
    + split; [discriminate|]. intros _.
      exists "", (String.substring (String.length pattern)
                    (String.length (String c s) - String.length pattern)
                    (String c s)).
      split; [apply (prefix_split pattern _ E)|].
      split; [reflexivity|]. intros; simpl; lia.
    + split.
      * intros H. rewrite (IH1 H). reflexivity.
      * intros H. destruct (IH2 H) as [pre [post [S [R M]]]].
        exists (String c pre), post.
        split; [simpl; rewrite <- S; reflexivity|].
        split; [simpl; rewrite R; reflexivity|].
        intros pre' post' S'. destruct pre' as [|d pre'].
        -- simpl in S'. rewrite S', prefix_append in E. discriminate E.
        -- simpl in S'. injection S' as _ S'. simpl.
           specialize (M pre' post' S'). lia.
Qed.

(** X22.  The import version of an exported file is written to the path
    of that file with its first [.jsonl] turned into [-import.jsonl],
    wherever in the path that is.  For a path that holds no [.jsonl] this
    is the path itself: the import version is written over the exported
    file. *)
Theorem import_version_replaces_a_file_without_jsonl_in_its_path :
  forall (fs : string -> option string) (filePath objectType f out : string),
    snd (convertExportedFileToImportFormat fs filePath objectType)
    = Returned (f, out) ->
    (JsString.includes filePath ".jsonl" = false -> f = filePath)
    /\ (JsString.includes filePath ".jsonl" = true ->
        f <> filePath
        /\ exists pre post,
             filePath = pre ++ ".jsonl" ++ post
             /\ f = pre ++ "-import.jsonl" ++ post
             /\ forall pre' post', filePath = pre' ++ ".jsonl" ++ post' ->
                                   (String.length pre <= String.length pre')%nat).
Proof.
  intros fs filePath objectType f out H.
  assert (F : f = replaceFirst ".jsonl" "-import.jsonl" filePath).
  { unfold convertExportedFileToImportFormat, handleFileError in H.
    destruct (fs filePath) as [content|]; [|discriminate H].
    destruct (nonBlankLines content) as [|firstLine rest]; [discriminate H|].
    destruct (objectNameOf firstLine objectType) as [[| | |objectName| |]|];
      try discriminate H.
    simpl in H. injection H as <- _. reflexivity. }
  destruct (replaceFirst_spec ".jsonl" "-import.jsonl" filePath) as [A B].
  split.
  - intros N. rewrite F. apply A. exact N.
  - intros Y. destruct (B Y) as [pre [post [S [R M]]]].
    split.
    + rewrite F, R. intros E. rewrite S in E.
      apply (f_equal String.length) in E.
      rewrite !string_length_append in E. simpl in E. lia.
    + exists pre, post. rewrite F. auto.
Qed.

Lemma import_version_replaces_a_file_without_jsonl_in_its_path_witness :
  let fs := fun path : string =>
              if (path =? "product-job-9.json")%string
              then Some SampleFiles.exportedFile else None in
  exists out,
    snd (convertExportedFileToImportFormat fs "product-job-9.json" "product")
    = Returned ("product-job-9.json", out).
Proof.
  cbv zeta.
  destruct (snd (convertExportedFileToImportFormat
                   (fun path : string =>
                      if (path =? "product-job-9.json")%string
                      then Some SampleFiles.exportedFile else None)
                   "product-job-9.json" "product")) as [[f out]|e|code] eqn:H;
    try (vm_compute in H; discriminate H).
  exists out.
  rewrite (proj1 (import_version_replaces_a_file_without_jsonl_in_its_path
                    _ _ _ _ _ H) eq_refl).
  reflexivity.
Defined.

Lemma concat_split c s :
  JsString.join (String c "") (JsString.split c s) = s.
Proof.
  unfold JsString.join. induction s as [|x s IH]; [reflexivity|]. simpl.
  destruct (Ascii.eqb_spec x c) as [->|N].
  - destruct (split_nonempty c s) as [p [ps E]]. rewrite E in *.
    simpl. simpl in IH. rewrite IH. reflexivity.
  - destruct (split_nonempty c s) as [p [ps E]]. rewrite E in *.
    destruct ps as [|q ps]; simpl in *; rewrite IH; reflexivity.
Qed.

Lemma replaceExtension_jsonl base :
  replaceExtension (base ++ ".jsonl") = base ++ ".jsonl".
Proof.
  unfold replaceExtension.
  change (base ++ ".jsonl") with (base ++ String "." "jsonl").
  rewrite split_at_separator. simpl JsString.split at 2.
  rewrite rev_app_distr. simpl rev at 1. simpl app.
  destruct (split_nonempty "." base) as [p [ps E]].
  assert (R : exists q qs, rev (JsString.split "." base) = q :: qs).
  { rewrite E. destruct (rev (p :: ps)) as [|q qs] eqn:R.
    - apply (f_equal (@length string)) in R. rewrite length_rev in R.
      discriminate R.
    - exists q, qs. reflexivity. }
  destruct R as [q [qs R]]. rewrite R. simpl JsString.truthy. cbv iota.
  rewrite <- R, rev_involutive, concat_split. reflexivity.
Qed.

Lemma parseAll_length ls vs : parseAll ls = Some vs -> length vs = length ls.
Proof.
  revert vs. induction ls as [|l r IH]; intros vs H; simpl in H.
  - injection H as <-. reflexivity.
  - destruct (JSON.parse l); [|discriminate H].
    destruct (parseAll r) as [ws|]; [|discriminate H].
    injection H as <-. simpl. rewrite (IH ws eq_refl). reflexivity.
Qed.

(** X23.  Staging a file whose name already ends in [.jsonl] writes the
    staged text over the file itself, and each time with one line more:
    the metadata line, then one line for each line of the file that was
    not blank, the metadata line of an earlier staging among them. *)
Theorem staging_a_jsonl_file_writes_over_it :
  forall (parseCSV : string -> json + string) (fs : string -> option string)
         (base objectType format content : string) (items : list json),
    fs (base ++ ".jsonl") = Some content ->
    JsString.toLowerCase format = "jsonl" ->
    parseJSONL content = Some items ->
    ObjectTypes.isValidObjectType objectType = true ->
    exists out,
      convertToJSONL parseCSV fs (base ++ ".jsonl") objectType format
      = ([], Returned (base ++ ".jsonl", out))
      /\ nonBlankLines out
         = metaLine (JsString.toLowerCase objectType) :: map stringify items
      /\ length (nonBlankLines out) = S (length (nonBlankLines content)).
Proof.
  intros parseCSV fs base objectType format content items R F I V.
  destruct (valid_type_metaLine objectType V) as [M1 [M2 M3]].
  assert (W : forallb isValue items = true)
    by exact (parseAll_values _ _ I).
  exists (JsString.join JsString.nl
            (metaLine (JsString.toLowerCase objectType) :: map stringify items)).
  assert (L : nonBlankLines
                (JsString.join JsString.nl
                   (metaLine (JsString.toLowerCase objectType)
                      :: map stringify items))
              = metaLine (JsString.toLowerCase objectType) :: map stringify items).
  { unfold nonBlankLines. rewrite split_join by exact (stringify_lines _ W).
    rewrite (split_oneLine _ M1). cbn [app filter]. rewrite M2. cbn [negb].
    rewrite (filter_nonblank_stringify _ W). reflexivity. }
  split; [|split].
  - unfold convertToJSONL, parseImportFile, parseByFormat.
    rewrite R, F. simpl. rewrite I, replaceExtension_jsonl. reflexivity.
  - exact L.
  - rewrite L. simpl. rewrite length_map. f_equal.
    apply parseAll_length. exact I.
Qed.

End StagedPaths.

Lemma staging_a_jsonl_file_writes_over_it_witness :
  let fs := fun path : string =>
              if (path =? "data/products.jsonl")%string
              then Some (FileUtils.metaLine "product") else None in
  exists out,
    FileUtils.convertToJSONL SampleFiles.noCsv fs "data/products.jsonl"
      "Product" "jsonl"
    = ([], Returned ("data/products.jsonl", out))
    /\ length (FileUtils.nonBlankLines out) = 2%nat.
Proof.
  cbv zeta.
  destruct (staging_a_jsonl_file_writes_over_it SampleFiles.noCsv
              (fun path : string =>
                 if (path =? "data/products.jsonl")%string
                 then Some (FileUtils.metaLine "product") else None)
              "data/products" "Product" "jsonl" (FileUtils.metaLine "product")
              [JSON.JObj [("meta", JSON.JObj [("objectname", JSON.JStr "product")])]]
              eq_refl eq_refl ltac:(vm_compute; reflexivity) eq_refl)
    as [out [A [_ C]]].
  exists out. split; [exact A | exact C].
Defined.


(** ** Reading and staging a CSV file *)

Section Csv.

Import JSON JsonFacts FileUtils.

Lemma insertIndex_key_in i k v l x :
  In x (map fst (insertIndex i k v l)) <-> x = k \/ In x (map fst l).
Proof.
  induction l as [|[k' v'] l IH]; simpl.
  - split; intros [H|[]]; left; symmetry; exact H.
  - destruct (arrayIndex k') as [j|]; [destruct (j <? i)|]; simpl.
    + rewrite IH. tauto.
    + split; intros [H|H]; auto.
    + split; intros [H|H]; auto.
Qed.

Lemma setMember_key_in k v acc x :
  In x (map fst (setMember k v acc)) <-> x = k \/ In x (map fst acc).
Proof.
  unfold setMember. destruct (hasKey k acc) eqn:H.
  - rewrite replaceMember_keys. apply hasKey_in in H.
    split; [auto | intros [-> | Hin]; assumption].
  - destruct (arrayIndex k) as [i|].
    + apply insertIndex_key_in.
    + rewrite map_app, in_app_iff. simpl. split.
      * intros [Hin | [E | []]]; [right; exact Hin | left; symmetry; exact E].
      * intros [E | Hin]; [right; left; symmetry; exact E | left; exact Hin].
Qed.

Lemma assign_key_in h t row x :
  In x (map fst (assign h t row))
  <-> (x = h /\ h <> "__proto__") \/ In x (map fst row).
Proof.
  unfold assign. destruct (String.eqb_spec h "__proto__") as [E|E].
  - split; [auto | intros [[_ N] | H]; [contradiction | exact H]].
  - rewrite setMember_key_in. tauto.
Qed.

Lemma fillRow_keys headers : forall index values row x,
  In x (map fst (fillRow headers index values row))
  <-> In x (map fst row) \/ (In x headers /\ x <> "__proto__").
Proof.
  induction headers as [|h rest IH]; intros index values row x; simpl.
  - tauto.
  - rewrite IH, assign_key_in. split; intros H.
    + destruct H as [[[-> N]|H]|[H N]]; auto.
    + destruct H as [H|[[<-|H] N]]; auto.
Qed.

Section EachCell.

Variable P : string * json -> bool.
Hypothesis P_strings : forall k (t : string), P (k, JStr t) = true.

Lemma fillRow_each headers : forall index values row,
  forallb P row = true -> forallb P (fillRow headers index values row) = true.
Proof.
  induction headers as [|h rest IH]; intros index values row F; simpl;
    [exact F|].
  apply IH. unfold assign. destruct (h =? "__proto__")%string; [exact F|].
  apply setMember_each; [apply P_strings | exact F].
Qed.

End EachCell.

Lemma fillRow_ordered headers : forall index values row,
  ordered 0 (map fst row) = true ->
  ordered 0 (map fst (fillRow headers index values row)) = true.
Proof.
  induction headers as [|h rest IH]; intros index values row O; simpl;
    [exact O|].
  apply IH. unfold assign. destruct (h =? "__proto__")%string; [exact O|].
  apply setMember_ordered. exact O.
Qed.

Lemma nth_isString values i :
  forallb isString values = true -> isString (nth i values "") = true.
Proof.
  revert i. induction values as [|v r IH]; intros i H.
  - destruct i; reflexivity.
  - simpl in H. apply andb_prop in H. destruct H as [A B].
    destruct i; [exact A | exact (IH i B)].
Qed.

Lemma fillRow_good headers : forall index values row,
  forallb isString headers = true -> forallb isString values = true ->
  goodMembers row -> goodMembers (fillRow headers index values row).
Proof.
  induction headers as [|h rest IH]; intros index values row H V G; simpl;
    [exact G|].
  simpl in H. apply andb_prop in H. destruct H as [Hh Hr].
  apply IH; [exact Hr | exact V |].
  unfold assign. destruct (h =? "__proto__")%string; [exact G|].
  apply setMember_good; [exact Hh | apply nth_isString; exact V | exact G].
Qed.

Lemma fillRow_distinct headers : forall index values row,
  NoDup headers ->
  forallb isName headers = true ->
  ~ In "__proto__" headers ->
  (forall h, In h headers -> ~ In h (map fst row)) ->
  fillRow headers index values row
  = (row ++ combine headers
              (map (fun i => JStr (nth i values ""))
                   (seq index (length headers))))%list.
Proof.
  induction headers as [|h rest IH]; intros index values row D N P F; simpl.
  - symmetry. apply app_nil_r.
  - inversion D as [|? ? Hh Hrest]; subst.
    simpl in N. apply andb_prop in N. destruct N as [Nh Nr].
    assert (A : assign h (nth index values "") row
                = (row ++ [(h, JStr (nth index values ""))])%list).
    { unfold assign, setMember.
      destruct (String.eqb_spec h "__proto__") as [E|E].
      - exfalso. apply P. left. exact E.
      - assert (K : hasKey h row = false)
          by (apply hasKey_out, F; left; reflexivity).
        rewrite K. unfold isName in Nh.
        destruct (arrayIndex h); [discriminate Nh | reflexivity]. }
    rewrite A, IH; [rewrite <- app_assoc; reflexivity | exact Hrest | exact Nr | |].
    + intros Hin. apply P. right. exact Hin.
    + intros x Hx. rewrite map_app, in_app_iff. simpl.
      intros [H|[H|[]]].
      * exact (F x (or_intror Hx) H).
      * subst x. exact (Hh Hx).
Qed.

Lemma map_fst_combine {A B} (l : list A) : forall l' : list B,
  length l = length l' -> map fst (combine l l') = l.
Proof.
  induction l as [|x l IH]; intros [|y l'] H; simpl in *;
    try reflexivity; try discriminate H.
  rewrite IH; [reflexivity | lia].
Qed.

Lemma row_isValue members :
  goodMembers members -> isValue (JObj members) = true.
Proof.
  intros [D F]. simpl. rewrite D, F. reflexivity.
Qed.

Lemma goodMembers_nil : goodMembers [].
Proof. split; reflexivity. Qed.

(** X24.  [parseCSV] wants a header line and at least one data line, blank
    lines not counted: with fewer it throws, and staging such a file ends
    the process with exit code 1, the error printed and nothing written;
    with these it gives one row for each line after the first, in order. *)
Theorem csv_needs_a_header_and_a_data_line :
  forall (fs : string -> option string)
         (filePath objectType format content : string),
    let lines := nonBlankLines content in
    let staged := convertToJSONL parseCSV fs filePath objectType format in
    ((length lines < 2)%nat ->
     parseCSV content = inr tooFewLines
     /\ (fs filePath = Some content ->
         JsString.toLowerCase format = "csv" ->
         snd staged = Exited 1
         /\ In (Err, "File Error: " ++ tooFewLines) (fst staged)))
    /\ ((2 <= length lines)%nat ->
        parseCSV content
        = inl (JArr (map (fun line =>
                            JObj (fillRow (cells (hd "" lines)) 0
                                          (cells line) []))
                         (tl lines)))
        /\ length (tl lines) = (length lines - 1)%nat).
Proof.
  intros fs filePath objectType format content. cbv zeta.
  assert (S : forall msg, parseCSV content = inr msg ->
                fs filePath = Some content ->
                JsString.toLowerCase format = "csv" ->
                snd (convertToJSONL parseCSV fs filePath objectType format)
                = Exited 1
                /\ In (Err, "File Error: " ++ msg)
                      (fst (convertToJSONL parseCSV fs filePath objectType
                              format))).
  { intros msg E R F.
    unfold convertToJSONL, parseImportFile, parseByFormat.
    rewrite R, F. simpl String.eqb. cbv iota. rewrite E.
    split; [reflexivity | left; reflexivity]. }
  unfold parseCSV in *.
  destruct (nonBlankLines content) as [|headerLine [|dataLine rest]];
    simpl length.
  - split; [|lia]. intros _. split; [reflexivity|]. apply S. reflexivity.
  - split; [|lia]. intros _. split; [reflexivity|]. apply S. reflexivity.
  - split; [lia|]. intros _. split; [reflexivity|]. simpl. lia.
Qed.

Lemma csv_needs_a_header_and_a_data_line_witness :
  parseCSV ("id,name" ++ JsString.nl) = inr tooFewLines.
Proof.
  refine (proj1 (proj1 (csv_needs_a_header_and_a_data_line
                          (fun _ => None) "" "" "" ("id,name" ++ JsString.nl)) _)).
  vm_compute. lia.
Defined.

Lemma fillRow_row (headers values : list string) :
  let row := fillRow headers 0 values [] in
  NoDup (map fst row)
  /\ ordered 0 (map fst row) = true
  /\ (forall k, In k (map fst row) <-> In k headers /\ k <> "__proto__")
  /\ (forall k v, In (k, v) row -> exists s, v = JStr s)
  /\ (NoDup headers -> forallb isName headers = true ->
      ~ In "__proto__" headers -> row = rowOf headers values).
Proof.
  cbv zeta.
  pose proof (fillRow_ordered headers 0%nat values [] eq_refl) as O.
  split; [exact (ordered_NoDup _ _ O)|].
  split; [exact O|].
  split.
  { intros k. rewrite fillRow_keys. simpl. tauto. }
  split.
  { intros k v Hin.
    pose proof (fillRow_each isStr (fun _ _ => eq_refl) headers 0%nat values []
                  eq_refl) as F.
    rewrite forallb_forall in F. specialize (F (k, v) Hin).
    unfold isStr in F. simpl in F.
    destruct v; try discriminate F. eexists. reflexivity. }
  intros D N P. rewrite (fillRow_distinct headers 0%nat values [] D N P)
    by (intros h _ []).
  reflexivity.
Qed.

Lemma rowOf_keys headers values : map fst (rowOf headers values) = headers.
Proof.
  unfold rowOf. apply map_fst_combine.
  rewrite length_map, length_seq. reflexivity.
Qed.

(** X25.  Every row [parseCSV] gives is an object whose keys are the
    headers other than [__proto__], each once and in the order of an
    object (array indices first, ascending), and whose values are
    strings.  When the headers are all different, none an array index and
    none [__proto__], the row holds them in their order, each with the
    cell of its column, trimmed and rid of double quotes, or with the
    empty string when the line has no such cell; cells beyond the last
    header are dropped. *)
Theorem csv_rows_carry_the_headers :
  forall (content : string) (rows : list json),
    parseCSV content = inl (JArr rows) ->
    let headers := cells (hd "" (nonBlankLines content)) in
    (forall row, In row rows ->
       exists members,
         row = JObj members
         /\ NoDup (map fst members)
         /\ ordered 0 (map fst members) = true
         /\ (forall k, In k (map fst members)
                       <-> In k headers /\ k <> "__proto__")
         /\ (forall k v, In (k, v) members -> exists s, v = JStr s))
    /\ (NoDup headers -> forallb isName headers = true ->
        ~ In "__proto__" headers ->
        rows = map (fun line => JObj (rowOf headers (cells line)))
                   (tl (nonBlankLines content))
        /\ forall row, In row rows ->
             exists members, row = JObj members /\ map fst members = headers).
Proof.
  intros content rows H. cbv zeta. unfold parseCSV in H.
  destruct (nonBlankLines content) as [|headerLine [|dataLine rest]];
    try discriminate H.
  assert (R : rows = map (fun line =>
                            JObj (fillRow (cells headerLine) 0 (cells line) []))
                         (dataLine :: rest))
    by (injection H as <-; reflexivity).
  clear H. subst rows. simpl hd. simpl tl.
  set (headers := cells headerLine).
  split.
  - intros row Hin. apply in_map_iff in Hin. destruct Hin as [line [<- _]].
    destruct (fillRow_row headers (cells line)) as [A [O [B [C _]]]].
    eexists. split; [reflexivity|]. split; [exact A|]. split; [exact O|].
    split; [exact B | exact C].
  - intros D N P.
    assert (E : map (fun line => JObj (fillRow headers 0 (cells line) []))
                    (dataLine :: rest)
                = map (fun line => JObj (rowOf headers (cells line)))
                      (dataLine :: rest)).
    { apply map_ext. intros line.
      rewrite (proj2 (proj2 (proj2 (proj2 (fillRow_row headers (cells line)))))
                 D N P).
      reflexivity. }
    split; [exact E|].
    intros row Hin. rewrite E in Hin. apply in_map_iff in Hin.
    destruct Hin as [line [<- _]]. eexists. split; [reflexivity|].
    apply rowOf_keys.
Qed.

Section StagingCsv.

Variable fs : string -> option string.
Variables (filePath objectType format content : string).

(** The cells of the file are strings of the language, a pair of
    surrogates one character, as they are in a text read from a file. *)
Hypothesis file_read : fs filePath = Some content.
Hypothesis format_csv : JsString.toLowerCase format = "csv".
Hypothesis enough_lines : (2 <= length (nonBlankLines content))%nat.
Hypothesis valid_type : ObjectTypes.isValidObjectType objectType = true.
Hypothesis cells_are_strings :
  forallb (fun line => forallb isString (cells line)) (nonBlankLines content)
  = true.

Let name : string := JsString.toLowerCase objectType.
Let headers : list string := cells (hd "" (nonBlankLines content)).
Let rows : list json :=
  map (fun line => JObj (fillRow headers 0 (cells line) []))
      (tl (nonBlankLines content)).

(** X26.  Staging a CSV file with a header line and [n] data lines writes
    [n + 1] lines: the metadata line with the object type in lower case,
    then each row as one JSON object; and reading lines 2 to [n + 1] back
    as JSON-Lines gives the rows [parseCSV] made, value for value. *)
Theorem staged_csv_reads_back :
  exists out,
    convertToJSONL parseCSV fs filePath objectType format
    = ([], Returned (replaceExtension filePath, out))
    /\ JsString.split JsString.LF out = metaLine name :: map stringify rows
    /\ length (JsString.split JsString.LF out)
       = length (nonBlankLines content)
    /\ parseByFormat parseCSV
         (JsString.join JsString.nl (tl (JsString.split JsString.LF out)))
         "jsonl"
       = inl (JArr rows).
Proof.
  destruct (valid_type_metaLine objectType valid_type) as [M1 [M2 M3]].
  fold name in M1, M2, M3.
  assert (P : parseCSV content = inl (JArr rows)).
  { unfold parseCSV, rows, headers.
    destruct (nonBlankLines content) as [|h [|d r]]; simpl in enough_lines;
      try lia. reflexivity. }
  assert (Hh : forallb isString headers = true).
  { unfold headers. rewrite forallb_forall in cells_are_strings.
    destruct (nonBlankLines content) as [|h r]; [simpl in enough_lines; lia|].
    apply cells_are_strings. left. reflexivity. }
  assert (V : forallb isValue rows = true).
  { unfold rows. apply forallb_forall. intros v Hin.
    apply in_map_iff in Hin. destruct Hin as [line [<- Hl]].
    apply row_isValue, fillRow_good; [exact Hh | | apply goodMembers_nil].
    rewrite forallb_forall in cells_are_strings. apply cells_are_strings.
    destruct (nonBlankLines content); [destruct Hl | right; exact Hl]. }
  assert (N : forallb plainNumbers rows = true).
  { unfold rows. apply forallb_forall. intros v Hin.
    apply in_map_iff in Hin. destruct Hin as [line [<- _]].
    simpl. apply fillRow_each; [reflexivity | reflexivity]. }
  pose proof (stringify_lines rows V) as L.
  exists (JsString.join JsString.nl (metaLine name :: map stringify rows)).
  assert (S : JsString.split JsString.LF
                (JsString.join JsString.nl (metaLine name :: map stringify rows))
              = metaLine name :: map stringify rows).
  { rewrite split_join by exact L. rewrite (split_oneLine _ M1). reflexivity. }
  split; [|split; [|split]].
  - unfold convertToJSONL, parseImportFile, parseByFormat.
    rewrite file_read, format_csv. simpl String.eqb. cbv iota. rewrite P.
    reflexivity.
  - exact S.
  - rewrite S. simpl. rewrite length_map. unfold rows. rewrite length_map.
    destruct (nonBlankLines content); simpl in *; lia.
  - rewrite S. simpl tl. unfold parseByFormat. simpl.
    rewrite parseJSONL_record_lines by assumption. reflexivity.
Qed.

End StagingCsv.

End Csv.

Lemma csv_rows_carry_the_headers_witness :
  let content := "id,name" ++ JsString.nl ++ "1, Basic ,extra" in
  FileUtils.parseCSV content
  = inl (JSON.JArr [JSON.JObj [("id", JSON.JStr "1");
                               ("name", JSON.JStr "Basic")]])
  /\ forall row,
       In row [JSON.JObj [("id", JSON.JStr "1"); ("name", JSON.JStr "Basic")]] ->
       exists members, row = JSON.JObj members /\ map fst members = ["id"; "name"].
Proof.
  cbv zeta.
  assert (H : FileUtils.parseCSV ("id,name" ++ JsString.nl ++ "1, Basic ,extra")
              = inl (JSON.JArr [JSON.JObj [("id", JSON.JStr "1");
                                           ("name", JSON.JStr "Basic")]]))
    by (vm_compute; reflexivity).
  split; [exact H|].
  apply (proj2 (csv_rows_carry_the_headers _ _ H)).
  - vm_compute. repeat constructor; simpl; intuition discriminate.
  - vm_compute. reflexivity.
  - vm_compute. intuition discriminate.
Defined.

(** Headers that are array indices come first in a row, in ascending
    order, whatever their columns; a header met again keeps its place and
    takes the later cell; the header [__proto__] leaves nothing. *)
Example csv_row_of_unusual_headers :
  FileUtils.parseCSV ("name,10,__proto__,2,name" ++ JsString.nl ++ "a,b,c,d,e")
  = inl (JSON.JArr [JSON.JObj [("2", JSON.JStr "d"); ("10", JSON.JStr "b");
                               ("name", JSON.JStr "e")]]).
Proof. vm_compute. reflexivity. Qed.

Lemma staged_csv_reads_back_witness :
  let content := "id,name" ++ JsString.nl ++ "1, Basic" ++ JsString.nl
                   ++ "2,Plus" ++ JsString.nl in
  let fs := fun path : string =>
              if (path =? "data/products.csv")%string then Some content
              else None in
  exists out,
    FileUtils.convertToJSONL FileUtils.parseCSV fs "data/products.csv"
      "Product" "csv"
    = ([], Returned ("data/products.jsonl", out))
    /\ JsString.split JsString.LF out
       = [ SampleFiles.quoted "{'meta': {'objectname': 'product'}}";
           SampleFiles.quoted "{'id':'1','name':'Basic'}";
           SampleFiles.quoted "{'id':'2','name':'Plus'}" ].
Proof.
  cbv zeta.
  destruct (staged_csv_reads_back
              (fun path : string =>
                 if (path =? "data/products.csv")%string
                 then Some ("id,name" ++ JsString.nl ++ "1, Basic"
                              ++ JsString.nl ++ "2,Plus" ++ JsString.nl)
                 else None)
              "data/products.csv" "Product" "csv"
              ("id,name" ++ JsString.nl ++ "1, Basic" ++ JsString.nl
                 ++ "2,Plus" ++ JsString.nl)
              eq_refl eq_refl ltac:(vm_compute; lia) eq_refl
              ltac:(vm_compute; reflexivity))
    as [out [A [B _]]].
  exists out. split; [exact A|]. rewrite B. vm_compute. reflexivity.
Defined.


(** ** The poller of the [import] command *)

Section ImportCommandPoller.

Import ImportMetadataCommand.

Variable displayImportJobResults : JobStatus -> list log.
Variable jobId : string.
Variable client : nat -> JobManager.tick.
Variable startTime : Z.

Let run_from := loop displayImportJobResults jobId client startTime.

Lemma includes_prefix p s : JsString.includes (p ++ s) p = true.
Proof.
  destruct p as [|c p].
  - destruct s; simpl; rewrite ?prefix_empty; reflexivity.
  - cbn [append JsString.includes String.prefix].
    destruct (ascii_dec c c) as [_|N]; [|contradiction].
    rewrite prefix_append. reflexivity.
Qed.

Lemma includes_append_r a b p :
  JsString.includes b p = true -> JsString.includes (a ++ b) p = true.
Proof.
  intros H. induction a as [|c a IH]; [exact H|].
  cbn [append JsString.includes]. rewrite IH. apply orb_true_r.
Qed.

Lemma thrownOn_failedError st : thrownOn (failedError jobId st) = true.
Proof.
  unfold thrownOn, failedError. cbn [message].
  apply andb_true_intro. split.
  - exact (includes_prefix "Import job" (" " ++ jobId ++ " failed: " ++ _)).
  - apply orb_true_intro. left. apply orb_true_intro. left.
    apply (includes_append_r "Import job "), includes_append_r.
    apply (includes_append_r " ").
    exact (includes_prefix "failed" (": " ++ _)).
Qed.

Lemma thrownOn_timedOutError : thrownOn (timedOutError jobId) = true.
Proof.
  unfold thrownOn, timedOutError. cbn [message].
  apply andb_true_intro. split.
  - exact (includes_prefix "Import job" (" " ++ jobId ++ _)).
  - apply orb_true_intro. right.
    apply (includes_append_r "Import job "), includes_append_r.
    apply (includes_append_r " ").
    exact (includes_prefix "timed out" (" after " ++ _)).
Qed.

Lemma loop_step fuel n now :
  run_from (S fuel) n now
  = let t := client n in
    let now1 := now + JobManager.latency t in
    let did := react displayImportJobResults jobId startTime now1
                     (snd (JobManager.reply t)) in
    addRequest (addLog (fst (JobManager.reply t) ++ fst did)%list
      match snd did with
      | Finish => mkRun [] Done now1 0
      | Raise e => mkRun [] (Thrown e) now1 0
      | Exit code => mkRun [] (ProcessExit code) now1 0
      | Wait => run_from fuel (S n)
                  (now1 + pollingInterval + JobManager.jitter t)
      end).
Proof. reflexivity. Qed.

(** X27.  When the status says [failed] in any casing and no import job
    is [PartialCompleted] or [Completed], the poller of the [import]
    command throws an error that names the job: its message is
    [Import job <job id> failed: ] followed by the error of the status, or
    by [Unknown error]; the [catch] of the loop throws it on; and this
    happens at the first such answer. *)
Theorem import_command_failure_names_the_job :
  forall (fuel n : nat) (now : Z) (st : JobStatus),
    snd (JobManager.reply (client n)) = Returned st ->
    JsString.toLowerCase (js_status st) = "failed" ->
    (forall job, In job (importJobsOf st) ->
                 ij_status job <> "PartialCompleted"
                 /\ ij_status job <> "Completed") ->
    let r := run_from (S fuel) n now in
    ended r = Thrown (failedError jobId st)
    /\ requests r = 1%nat
    /\ JsString.includes (message (failedError jobId st)) jobId = true
    /\ exists reason,
         message (failedError jobId st)
         = "Import job " ++ jobId ++ " failed: " ++ reason
         /\ (js_error st = Some reason \/ reason = "Unknown error").
Proof.
  intros fuel n now st Hr Hf Hall. cbv zeta.
  assert (E : react displayImportJobResults jobId startTime
                    (now + JobManager.latency (client n)) (Returned st)
              = ([], Raise (failedError jobId st))).
  { unfold react, onStatus. rewrite Hf. simpl String.eqb. cbv iota.
    simpl orb. cbv iota.
    assert (N : JsString.some
                  (fun job => ((ij_status job =? "PartialCompleted")
                               || (ij_status job =? "Completed"))%string)
                  (importJobsOf st) = false).
    { unfold JsString.some.
      destruct (existsb _ (importJobsOf st)) eqn:X; [|reflexivity].
      apply existsb_exists in X. destruct X as [job [Hin Hp]].
      destruct (Hall job Hin) as [H1 H2].
      apply orb_prop in Hp. destruct Hp as [Hp|Hp];
        apply String.eqb_eq in Hp; contradiction. }
    unfold importJobsOf in N. rewrite N.
    unfold onError. rewrite thrownOn_failedError. reflexivity. }
  rewrite loop_step. cbv zeta. rewrite Hr, E.
  split; [reflexivity|]. split; [reflexivity|]. split.
  - unfold failedError. cbn [message].
    apply (includes_append_r "Import job "). apply includes_prefix.
  - unfold failedError. cbn [message].
    destruct (js_error st) as [x|].
    + destruct (JsString.truthy x).
      * exists x. split; [reflexivity | left; reflexivity].
      * exists "Unknown error". split; [reflexivity | right; reflexivity].
    + exists "Unknown error". split; [reflexivity | right; reflexivity].
Qed.

(** X28.  The [catch] of this poller asks again after any error that is
    not one of its own, and there the time limit is never looked at: while
    the status request goes on throwing such errors the poller goes on
    asking, one request every five seconds, however late it is. *)
Theorem import_command_poller_asks_on_after_errors :
  (forall k, exists e, snd (JobManager.reply (client k)) = Threw e
                       /\ thrownOn e = false) ->
  forall (fuel n : nat) (now : Z),
    ended (run_from fuel n now) = OutOfFuel
    /\ requests (run_from fuel n now) = fuel.
Proof.
  intros Hall. induction fuel as [|fuel IH]; intros n now.
  - split; reflexivity.
  - rewrite loop_step. cbv zeta.
    destruct (Hall n) as [e [Hr He]]. rewrite Hr.
    unfold react, onError. rewrite He. cbn [snd].
    destruct (IH (S n) (now + JobManager.latency (client n) + pollingInterval
                        + JobManager.jitter (client n))) as [I1 I2].
    split; [exact I1|]. cbn [requests addRequest addLog]. rewrite I2.
    reflexivity.
Qed.

Lemma processing_reaction st now :
  let low := JsString.toLowerCase (js_status st) in
  low <> "completed" -> low <> "succeeded" -> low <> "failed" ->
  low <> "partialcompleted" ->
  react displayImportJobResults jobId startTime now (Returned st)
  = if maxPollingTime <? now - startTime
    then ([(JobStatusLine, js_status st)], Raise (timedOutError jobId))
    else ([(JobStatusLine, js_status st)], Wait).
Proof.
  cbv zeta. intros H1 H2 H3 H4. unfold react, onStatus.
  destruct (String.eqb_spec (JsString.toLowerCase (js_status st)) "completed");
    [contradiction|].
  destruct (String.eqb_spec (JsString.toLowerCase (js_status st)) "succeeded");
    [contradiction|].
  destruct (String.eqb_spec (JsString.toLowerCase (js_status st)) "failed");
    [contradiction|].
  destruct (String.eqb_spec (JsString.toLowerCase (js_status st))
              "partialcompleted"); [contradiction|].
  simpl orb. cbv iota.
  destruct (maxPollingTime <? now - startTime); [|reflexivity].
  unfold onError. rewrite thrownOn_timedOutError. reflexivity.
Qed.

(** X29.  While the job is reported in a state that is not final, the
    poller of the [import] command gives up once an answer comes in later
    than one hour after the start: it throws [Import job <job id> timed
    out after 3600 seconds], never earlier than that hour, and it does so
    by itself.  The hour is fixed; the options are not asked. *)
Theorem import_command_poller_gives_up_after_an_hour :
  (forall k, exists st,
      snd (JobManager.reply (client k)) = Returned st
      /\ let low := JsString.toLowerCase (js_status st) in
         low <> "completed" /\ low <> "succeeded" /\ low <> "failed"
         /\ low <> "partialcompleted") ->
  (forall k, 0 <= JobManager.latency (client k)
             /\ 0 <= JobManager.jitter (client k)) ->
  forall (fuel n : nat) (now : Z),
    (1 <= fuel)%nat ->
    maxPollingTime - (now - startTime) < 5000 * (Z.of_nat fuel - 1) ->
    let r := run_from fuel n now in
    ended r = Thrown (timedOutError jobId)
    /\ message (timedOutError jobId)
       = "Import job " ++ jobId ++ " timed out after 3600 seconds"
    /\ maxPollingTime < clock r - startTime
    /\ (1 <= requests r)%nat.
Proof.
  intros Hall Htime. cbv zeta.
  induction fuel as [|fuel IH]; intros n now H1f Hf; [lia|].
  rewrite loop_step. cbv zeta.
  destruct (Hall n) as [st [Hr [H1 [H2 [H3 H4]]]]].
  destruct (Htime n) as [Hl Hj].
  rewrite Hr, (processing_reaction st _ H1 H2 H3 H4).
  destruct (maxPollingTime <? now + JobManager.latency (client n) - startTime)
    eqn:T.
  - cbn [snd fst ended clock requests addRequest addLog].
    apply Z.ltb_lt in T. repeat split; [exact T | lia].
  - cbn [snd fst ended clock requests addRequest addLog].
    apply Z.ltb_ge in T.
    destruct (IH (S n) (now + JobManager.latency (client n) + pollingInterval
                        + JobManager.jitter (client n))) as [I1 [I2 [I3 I4]]].
    { lia. }
    { unfold pollingInterval. lia. }
    repeat split; [exact I1 | exact I3 | lia].
Qed.

End ImportCommandPoller.

Lemma import_command_failure_names_the_job_witness :
  let st := Sample.failedImport [Sample.rejectedProduct] in
  ImportMetadataCommand.ended
    (ImportMetadataCommand.loop silent "job-7" (Sample.answering st "job-7")
       0 1 0 0)
  = ImportMetadataCommand.Thrown
      (mkError "Import job job-7 failed: import failed" None).
Proof.
  cbv zeta.
  refine (proj1 (import_command_failure_names_the_job silent "job-7"
                   (Sample.answering (Sample.failedImport [Sample.rejectedProduct])
                      "job-7")
                   0 0 0 0 (Sample.failedImport [Sample.rejectedProduct])
                   eq_refl eq_refl _)).
  intros job [<-|[]]. split; discriminate.
Defined.

Lemma import_command_poller_asks_on_after_errors_witness :
  let r := ImportMetadataCommand.loop silent "job-7" (unreachable "job-7")
             0 1000 0 0 in
  ImportMetadataCommand.maxPollingTime < ImportMetadataCommand.clock r - 0
  /\ ImportMetadataCommand.ended r = ImportMetadataCommand.OutOfFuel
  /\ ImportMetadataCommand.requests r = 1000%nat.
Proof.
  cbv zeta. split; [vm_compute; reflexivity|].
  apply (import_command_poller_asks_on_after_errors silent "job-7"
           (unreachable "job-7") 0).
  intros k. eexists. split; reflexivity.
Defined.

Lemma import_command_poller_gives_up_after_an_hour_witness :
  ImportMetadataCommand.ended
    (ImportMetadataCommand.loop silent "job-7" (Sample.stillProcessing "job-7")
       0 722 0 0)
  = ImportMetadataCommand.Thrown
      (mkError "Import job job-7 timed out after 3600 seconds" None).
Proof.
  refine (proj1 (import_command_poller_gives_up_after_an_hour silent "job-7"
                   (Sample.stillProcessing "job-7") 0 _ _ 722 0 0 _ _)).
  - intros k. exists Sample.processingStatus. split; [reflexivity|].
    cbv zeta. repeat split; discriminate.
  - intros k. simpl. lia.
  - lia.
  - vm_compute. reflexivity.
Defined.


(** ** Validation of the object type *)

Lemma getAllNames_registered :
  ObjectTypes.getAllNames = map fst ObjectTypes.registered.
Proof. vm_compute. reflexivity. Qed.

(** X30.  [validateObjectType] lets a word of ASCII characters through
    exactly when it is a registered type, under any casing of its name or
    API name, and then prints nothing; any other such word ends the process
    with exit code 1 and a message that lists the valid types.  That list
    is complete and exact: it holds the eighteen names once each, and a
    word validates exactly when its lower case is in the list. *)
Theorem validation_lists_the_types_it_accepts :
  forall (objectType : string) (options : Options),
    let result := Validator.validateObjectType objectType options in
    JsString.isAscii objectType = true ->
    (ObjectTypes.isValidObjectType objectType = true <->
     In (JsString.toLowerCase objectType) ObjectTypes.getAllNames)
    /\ (ObjectTypes.isValidObjectType objectType = true <->
        result = ([], Returned tt))
    /\ (ObjectTypes.isValidObjectType objectType = false ->
        snd result = Exited 1
        /\ hd_error (fst result)
           = Some (Err, "Validation Error: Invalid object type '" ++ objectType
                          ++ "'. Valid types are: "
                          ++ JsString.join ", " ObjectTypes.getAllNames))
    /\ NoDup ObjectTypes.getAllNames
    /\ length ObjectTypes.getAllNames = 18%nat.
Proof.
  intros objectType options. cbv zeta. intros _.
  split; [|split; [|split; [|split]]].
  - rewrite getAllNames_registered.
    unfold ObjectTypes.isValidObjectType, ObjectTypes.getObjectType. split.
    + destruct (ObjectTypes.lookup _ _) as [name|] eqn:G; [|discriminate].
      intros _. exact (proj2 (registry_key_is_name _ _ G)).
    + intros H. rewrite (registry_has_names _ H). reflexivity.
  - unfold Validator.validateObjectType.
    destruct (ObjectTypes.isValidObjectType objectType); split; intros H;
      try reflexivity; discriminate H.
  - intros H. unfold Validator.validateObjectType. rewrite H.
    split; reflexivity.
  - vm_compute.
    repeat (constructor; [simpl; intuition discriminate|]). constructor.
  - reflexivity.
Qed.

Lemma validation_lists_the_types_it_accepts_witness :
  JsString.isAscii "widget" = true
  /\ ObjectTypes.isValidObjectType "widget" = false
  /\ snd (Validator.validateObjectType "widget" (mkOptions 300 false))
     = Exited 1.
Proof.
  split; [reflexivity|]. split; [reflexivity|].
  exact (proj1 (proj1 (proj2 (proj2 (validation_lists_the_types_it_accepts
                                       "widget" (mkOptions 300 false)
                                       eq_refl)))
                      eq_refl)).
Defined.
